(** * MCP server with OAuth bridge: storage, refresh, OAuth flow and dispatch

    A shallow embedding of the TypeScript sources

      - [shared/storage/memory.ts]   (MemoryTokenStore, MemorySessionStore)
      - [shared/oauth/refresh.ts]    (refreshProviderToken, ensureFreshToken)
      - [shared/oauth/flow.ts]       (handleAuthorize, handleProviderCallback,
                                      handleToken)
      - [shared/oauth/ssrf.ts], [shared/oauth/cimd.ts]
      - [shared/mcp/dispatcher.ts], [shared/tools/registry.ts]
      - [shared/utils/pagination.ts]

    Conventions.  Every [Date.now()] of the source is an explicit time
    argument (epoch milliseconds, in [Z]).  Random draws, the platform [URL]
    class, the network and the [oauth4webapi] calls are parameters of the
    sections that use them.  Calls to the logger have no effect on any value
    the functions return or store and are left out. *)

From Stdlib Require Import String Ascii List ZArith Lia Bool Arith.
From Stdlib Require Import DecimalString DecimalN NArith.
Import ListNotations.
Open Scope string_scope.
Open Scope Z_scope.

Set Implicit Arguments.
Set Warnings "-register-all".

(* ===================================================================== *)
(** * JavaScript values and control flow *)
(* ===================================================================== *)

Module Js.

(** A thrown [Error] carries its message. *)
Inductive result (A : Type) : Type :=
| Ok (a : A)
| Throw (message : string).
Arguments Ok {A} a.
Arguments Throw {A} message.

(** Truthiness of a string ([""] is falsy) and of an optional string. *)
Definition truthy_string (s : string) : bool := negb (s =? "")%string.

Definition truthy_opt (o : option string) : bool :=
  match o with
  | Some s => truthy_string s
  | None => false
  end.

(** [a || b] on strings. *)
Definition or_string (a : option string) (b : string) : string :=
  match a with
  | Some s => if truthy_string s then s else b
  | None => b
  end.

(** [a ?? b]. *)
Definition nullish {A : Type} (a : option A) (b : A) : A :=
  match a with
  | Some x => x
  | None => b
  end.

(** Values produced by [JSON.parse] (numbers restricted to integers). *)
Inductive json : Type :=
| JNull
| JBool (b : bool)
| JNum (n : Z)
| JStr (s : string)
| JArr (items : list json)
| JObj (fields : list (string * json)).

Definition truthy (v : json) : bool :=
  match v with
  | JNull => false
  | JBool b => b
  | JNum n => negb (n =? 0)
  | JStr s => truthy_string s
  | JArr _ => true
  | JObj _ => true
  end.

Definition string_of_Z (n : Z) : string :=
  match n with
  | Z0 => "0"
  | Zpos p => NilEmpty.string_of_uint (Pos.to_uint p)
  | Zneg p => "-" ++ NilEmpty.string_of_uint (Pos.to_uint p)
  end.

(** [String(v)]: arrays join the strings of their elements with [","],
    a [null] element printing as the empty string. *)
Fixpoint toString (v : json) : string :=
  match v with
  | JNull => "null"
  | JBool true => "true"
  | JBool false => "false"
  | JNum n => string_of_Z n
  | JStr s => s
  | JArr items =>
      (fix join (l : list json) : string :=
         match l with
         | [] => ""
         | [x] => match x with JNull => "" | _ => toString x end
         | x :: rest =>
             (match x with JNull => "" | _ => toString x end)
               ++ "," ++ join rest
         end) items
  | JObj _ => "[object Object]"
  end.

(** [a === b] on optional strings. *)
Definition same_opt (a b : option string) : bool :=
  match a, b with
  | Some x, Some y => (x =? y)%string
  | None, None => true
  | _, _ => false
  end.

Fixpoint assoc {V : Type} (k : string) (l : list (string * V)) : option V :=
  match l with
  | [] => None
  | (k', v) :: rest => if (k' =? k)%string then Some v else assoc k rest
  end.

(** [v.name] for a value that came out of [JSON.parse]: reading a property
    of [null] throws, a primitive or an array has no such own property. *)
Definition getProp (v : json) (name : string) : result (option json) :=
  match v with
  | JNull => Throw "Cannot read properties of null"
  | JObj fields => Ok (assoc name fields)
  | _ => Ok None
  end.

End Js.

(* ===================================================================== *)
(** * [Map<string, V>]: keys in insertion order *)
(* ===================================================================== *)

Module JsMap.

Definition t (V : Type) : Type := list (string * V).

Definition empty {V : Type} : t V := [].

Definition get {V : Type} (k : string) (m : t V) : option V := Js.assoc k m.

Definition has {V : Type} (k : string) (m : t V) : bool :=
  match get k m with Some _ => true | None => false end.

(** [m.set(k, v)]: an existing key keeps its position, a new key goes last. *)
Fixpoint set {V : Type} (k : string) (v : V) (m : t V) : t V :=
  match m with
  | [] => [(k, v)]
  | (k', v') :: rest =>
      if (k' =? k)%string then (k', v) :: rest else (k', v') :: set k v rest
  end.

(** [m.delete(k)]. *)
Definition delete {V : Type} (k : string) (m : t V) : t V :=
  filter (fun e => negb (fst e =? k)%string) m.

Definition size {V : Type} (m : t V) : Z := Z.of_nat (length m).

Definition values {V : Type} (m : t V) : list V := map snd m.

Definition keys {V : Type} (m : t V) : list string := map fst m.

End JsMap.

(** [Array.prototype.sort] with a numeric comparator [a - b] over a key: a
    stable sort, ascending. *)
Section StableSort.
Context {A : Type} (key : A -> Z).

Fixpoint sort_insert (x : A) (l : list A) : list A :=
  match l with
  | [] => [x]
  | y :: rest =>
      if key x <=? key y then x :: y :: rest else y :: sort_insert x rest
  end.

Definition sort_by : list A -> list A := fold_right sort_insert [].
End StableSort.

(* ===================================================================== *)
(** * storage/interface.ts and storage/memory.ts *)
(* ===================================================================== *)

Module Storage.

Record ProviderTokens : Type := mkProviderTokens {
  access_token : string;
  refresh_token : option string;
  expires_at : option Z;
  scopes : option (list string)
}.

(** [RsRecord & { expiresAt: number }], the object both index maps hold. *)
Record RsRecord : Type := mkRsRecord {
  rs_access_token : string;
  rs_refresh_token : string;
  provider : ProviderTokens;
  created_at : Z;
  expiresAt : Z
}.

Record Transaction : Type := mkTransaction {
  codeChallenge : string;
  state : option string;
  scope : option string;
  createdAt : Z;
  sid : option string;
  txn_provider : option ProviderTokens
}.

Record TimedEntry (T : Type) : Type := mkTimedEntry {
  value : T;
  entry_expiresAt : Z;
  entry_createdAt : Z
}.
Arguments mkTimedEntry {T} _ _ _.

Definition MAX_SESSIONS_PER_API_KEY : Z := 5.
Definition DEFAULT_TXN_TTL_MS : Z := 10 * 60 * 1000.
Definition DEFAULT_CODE_TTL_MS : Z := 10 * 60 * 1000.
Definition DEFAULT_SESSION_TTL_MS : Z := 24 * 60 * 60 * 1000.
Definition DEFAULT_RS_TOKEN_TTL_MS : Z := 7 * 24 * 60 * 60 * 1000.
Definition MAX_RS_RECORDS : Z := 10000.
Definition MAX_TRANSACTIONS : Z := 1000.
Definition MAX_SESSIONS : Z := 10000.

(** [evictOldest(map, maxSize, countToRemove)].  [time] reads
    [created_at ?? createdAt ?? 0] off a value. *)
Definition evictOldest {V : Type} (time : V -> Z) (m : JsMap.t V)
    (maxSize : Z) (countToRemove : nat) : JsMap.t V :=
  if JsMap.size m <? maxSize then m
  else
    let entries := sort_by (fun e : string * V => time (snd e)) m in
    fold_left (fun acc e => JsMap.delete (fst e) acc)
              (firstn countToRemove entries) m.

(** [cleanupExpired(map)]: the map without its expired entries, and how
    many were removed. *)
Definition cleanupExpired {V : Type} (expires : V -> Z) (now : Z)
    (m : JsMap.t V) : JsMap.t V * Z :=
  let kept := filter (fun e : string * V => negb (expires (snd e) <=? now)) m in
  (kept, JsMap.size m - JsMap.size kept).

(** ** MemoryTokenStore

    The two index maps hold references to shared record objects: a record
    mutated through one map is seen mutated through the other.  [heap]
    holds the objects, a reference is a position in it. *)
Definition ref : Type := nat.

Record MemoryTokenStore : Type := mkTokenStore {
  heap : list RsRecord;
  rsAccessMap : JsMap.t ref;
  rsRefreshMap : JsMap.t ref;
  transactions : JsMap.t (TimedEntry Transaction);
  codes : JsMap.t (TimedEntry string)
}.

Definition emptyTokenStore : MemoryTokenStore :=
  mkTokenStore [] JsMap.empty JsMap.empty JsMap.empty JsMap.empty.

Definition deref (s : MemoryTokenStore) (r : ref) : option RsRecord :=
  nth_error (heap s) r.

Fixpoint list_update {A : Type} (i : nat) (x : A) (l : list A) : list A :=
  match l, i with
  | [], _ => []
  | _ :: rest, O => x :: rest
  | y :: rest, S j => y :: list_update j x rest
  end.

Definition with_heap (h : list RsRecord) (s : MemoryTokenStore) :=
  mkTokenStore h (rsAccessMap s) (rsRefreshMap s) (transactions s) (codes s).
Definition with_access (m : JsMap.t ref) (s : MemoryTokenStore) :=
  mkTokenStore (heap s) m (rsRefreshMap s) (transactions s) (codes s).
Definition with_refresh (m : JsMap.t ref) (s : MemoryTokenStore) :=
  mkTokenStore (heap s) (rsAccessMap s) m (transactions s) (codes s).
Definition with_transactions (m : JsMap.t (TimedEntry Transaction))
    (s : MemoryTokenStore) :=
  mkTokenStore (heap s) (rsAccessMap s) (rsRefreshMap s) m (codes s).
Definition with_codes (m : JsMap.t (TimedEntry string))
    (s : MemoryTokenStore) :=
  mkTokenStore (heap s) (rsAccessMap s) (rsRefreshMap s) (transactions s) m.

(** Field read through a reference; every reference a map holds is live,
    the default is never used. *)
Definition field {A : Type} (f : RsRecord -> A) (d : A)
    (s : MemoryTokenStore) (r : ref) : A :=
  match deref s r with Some o => f o | None => d end.

(** [cleanup()]: both index maps are swept by the records' [expiresAt]
    at the reading [now] of [cleanup] itself; [tTransactions] and [tCodes]
    are the readings of the two [cleanupExpired] calls. *)
Definition token_cleanup (now tTransactions tCodes : Z) (s : MemoryTokenStore)
    : MemoryTokenStore * (Z * Z * Z) :=
  let expired (e : string * ref) := field expiresAt 0 s (snd e) <=? now in
  let acc := filter (fun e => negb (expired e)) (rsAccessMap s) in
  let rfr := filter (fun e => negb (expired e)) (rsRefreshMap s) in
  let '(txs, txRemoved) :=
    cleanupExpired (@entry_expiresAt _) tTransactions (transactions s) in
  let '(cds, cdRemoved) :=
    cleanupExpired (@entry_expiresAt _) tCodes (codes s) in
  (mkTokenStore (heap s) acc rfr txs cds,
   (JsMap.size (rsAccessMap s) - JsMap.size acc, txRemoved, cdRemoved)).

(** [storeRsMapping(rsAccess, provider, rsRefresh?, ttlMs)].  [uuid] is
    the value [crypto.randomUUID()] yields if it is called. *)
Definition storeRsMapping (now : Z) (uuid : string)
    (rsAccess : string) (prov : ProviderTokens) (rsRefresh : option string)
    (ttlMs : Z) (s : MemoryTokenStore) : ref * MemoryTokenStore :=
  let expires := now + ttlMs in
  let s1 := with_access
              (evictOldest (field created_at 0 s) (rsAccessMap s)
                           MAX_RS_RECORDS 10) s in
  let existing :=
    if Js.truthy_opt rsRefresh
    then match rsRefresh with
         | Some rr => JsMap.get rr (rsRefreshMap s1)
         | None => None
         end
    else None in
  match existing with
  | Some r =>
      let old := field rs_access_token "" s1 r in
      let s2 := with_access (JsMap.delete old (rsAccessMap s1)) s1 in
      let o' := match deref s2 r with
                | Some o => mkRsRecord rsAccess (rs_refresh_token o) prov
                                       (created_at o) expires
                | None => mkRsRecord rsAccess "" prov 0 expires
                end in
      let s3 := with_heap (list_update r o' (heap s2)) s2 in
      (r, with_access (JsMap.set rsAccess r (rsAccessMap s3)) s3)
  | None =>
      let record := mkRsRecord rsAccess (Js.nullish rsRefresh uuid) prov
                               now expires in
      let r := length (heap s1) in
      let s2 := with_heap (heap s1 ++ [record]) s1 in
      let s3 := with_access (JsMap.set rsAccess r (rsAccessMap s2)) s2 in
      (r, with_refresh
            (JsMap.set (rs_refresh_token record) r (rsRefreshMap s3)) s3)
  end.

(** [getByRsAccess(rsAccess)]: the record object or [null]; an expired
    record is deleted from both maps on read. *)
Definition getByRsAccess (now : Z) (rsAccess : string)
    (s : MemoryTokenStore) : option ref * MemoryTokenStore :=
  match JsMap.get rsAccess (rsAccessMap s) with
  | None => (None, s)
  | Some r =>
      if field expiresAt 0 s r <=? now then
        let s1 := with_access (JsMap.delete rsAccess (rsAccessMap s)) s in
        (None,
         with_refresh
           (JsMap.delete (field rs_refresh_token "" s r) (rsRefreshMap s1)) s1)
      else (Some r, s)
  end.

Definition getByRsRefresh (now : Z) (rsRefresh : string)
    (s : MemoryTokenStore) : option ref * MemoryTokenStore :=
  match JsMap.get rsRefresh (rsRefreshMap s) with
  | None => (None, s)
  | Some r =>
      if field expiresAt 0 s r <=? now then
        let s1 := with_access
                    (JsMap.delete (field rs_access_token "" s r)
                                  (rsAccessMap s)) s in
        (None, with_refresh (JsMap.delete rsRefresh (rsRefreshMap s1)) s1)
      else (Some r, s)
  end.

(** [updateByRsRefresh(rsRefresh, provider, maybeNewRsAccess?, ttlMs)]. *)
Definition updateByRsRefresh (now : Z) (rsRefresh : string)
    (prov : ProviderTokens) (maybeNewRsAccess : option string) (ttlMs : Z)
    (s : MemoryTokenStore) : option ref * MemoryTokenStore :=
  match JsMap.get rsRefresh (rsRefreshMap s) with
  | None => (None, s)
  | Some r =>
      match deref s r with
      | None => (None, s)
      | Some rec =>
          let '(s1, rec1) :=
            match maybeNewRsAccess with
            | Some a =>
                if Js.truthy_string a then
                  (with_access
                     (JsMap.delete (rs_access_token rec) (rsAccessMap s)) s,
                   mkRsRecord a (rs_refresh_token rec) (provider rec)
                              now (expiresAt rec))
                else (s, rec)
            | None => (s, rec)
            end in
          let rec2 := mkRsRecord (rs_access_token rec1) (rs_refresh_token rec1)
                                 prov (created_at rec1) (now + ttlMs) in
          let s2 := with_heap (list_update r rec2 (heap s1)) s1 in
          let s3 := with_access
                      (JsMap.set (rs_access_token rec2) r (rsAccessMap s2)) s2 in
          (Some r, with_refresh (JsMap.set rsRefresh r (rsRefreshMap s3)) s3)
      end
  end.

(** Two stores hold the same RS records under the same keys. *)
Definition same_rs_records (s s' : MemoryTokenStore) : Prop :=
  heap s' = heap s
  /\ rsAccessMap s' = rsAccessMap s
  /\ rsRefreshMap s' = rsRefreshMap s.

(** [ttlSeconds ? ttlSeconds * 1000 : default]. *)
Definition ttl_or (ttlSeconds : option Z) (default : Z) : Z :=
  match ttlSeconds with
  | Some n => if n =? 0 then default else n * 1000
  | None => default
  end.

Definition saveTransaction (now : Z) (txnId : string) (txn : Transaction)
    (ttlSeconds : option Z) (s : MemoryTokenStore) : MemoryTokenStore :=
  let ttlMs := ttl_or ttlSeconds DEFAULT_TXN_TTL_MS in
  let evicted := evictOldest (@entry_createdAt _) (transactions s)
                             MAX_TRANSACTIONS 10 in
  with_transactions
    (JsMap.set txnId (mkTimedEntry txn (now + ttlMs) now) evicted) s.

Definition getTransaction (now : Z) (txnId : string) (s : MemoryTokenStore)
    : option Transaction * MemoryTokenStore :=
  match JsMap.get txnId (transactions s) with
  | None => (None, s)
  | Some entry =>
      if entry_expiresAt entry <=? now
      then (None, with_transactions (JsMap.delete txnId (transactions s)) s)
      else (Some (value entry), s)
  end.

Definition deleteTransaction (txnId : string) (s : MemoryTokenStore) :=
  with_transactions (JsMap.delete txnId (transactions s)) s.

Definition saveCode (now : Z) (code txnId : string) (ttlSeconds : option Z)
    (s : MemoryTokenStore) : MemoryTokenStore :=
  let ttlMs := ttl_or ttlSeconds DEFAULT_CODE_TTL_MS in
  with_codes (JsMap.set code (mkTimedEntry txnId (now + ttlMs) now) (codes s)) s.

Definition getTxnIdByCode (now : Z) (code : string) (s : MemoryTokenStore)
    : option string * MemoryTokenStore :=
  match JsMap.get code (codes s) with
  | None => (None, s)
  | Some entry =>
      if entry_expiresAt entry <=? now
      then (None, with_codes (JsMap.delete code (codes s)) s)
      else (Some (value entry), s)
  end.

Definition deleteCode (code : string) (s : MemoryTokenStore) :=
  with_codes (JsMap.delete code (codes s)) s.

End Storage.

(* ===================================================================== *)
(** * storage/memory.ts: MemorySessionStore *)
(* ===================================================================== *)

Module SessionStore.

(** [InternalSession = SessionRecord & { expiresAt, sessionId }]. *)
Record InternalSession : Type := mkSession {
  sessionId : string;
  apiKey : option string;
  rs_access_token : option string;
  rs_refresh_token : option string;
  provider : option Storage.ProviderTokens;
  created_at : Z;
  last_accessed : Z;
  initialized : option bool;
  protocolVersion : option string;
  expiresAt : Z
}.

(** [SessionRecord], the argument of [put]. *)
Record SessionRecord : Type := mkRecord {
  r_apiKey : option string;
  r_rs_access_token : option string;
  r_rs_refresh_token : option string;
  r_provider : option Storage.ProviderTokens;
  r_created_at : Z;
  r_last_accessed : option Z;
  r_initialized : option bool;
  r_protocolVersion : option string
}.

(** [Partial<SessionRecord>], the argument of [update]: [Some] for a
    property the patch carries. *)
Record Patch : Type := mkPatch {
  p_apiKey : option string;
  p_rs_access_token : option string;
  p_rs_refresh_token : option string;
  p_provider : option (option Storage.ProviderTokens);
  p_created_at : option Z;
  p_initialized : option bool;
  p_protocolVersion : option string
}.

Definition MemorySessionStore : Type := JsMap.t InternalSession.

Definition MAX_SESSIONS_PER_API_KEY : Z := Storage.MAX_SESSIONS_PER_API_KEY.
Definition MAX_SESSIONS : Z := Storage.MAX_SESSIONS.
Definition DEFAULT_SESSION_TTL_MS : Z := Storage.DEFAULT_SESSION_TTL_MS.

Definition key_is (k : string) (o : option string) : bool :=
  match o with Some k' => (k' =? k)%string | None => false end.

(** [session.apiKey === apiKey && now < session.expiresAt]. *)
Definition live_for (k : string) (now : Z) (x : InternalSession) : bool :=
  key_is k (apiKey x) && (now <? expiresAt x).

(** [cleanup()]. *)
Definition cleanup (now : Z) (s : MemorySessionStore)
    : MemorySessionStore * Z :=
  let kept := filter (fun e : string * InternalSession =>
                        negb (expiresAt (snd e) <=? now)) s in
  (kept, JsMap.size s - JsMap.size kept).

(** The sessions the loop of [countByApiKey] counts. *)
Definition liveCount (now : Z) (k : string) (s : MemorySessionStore) : nat :=
  length (filter (live_for k now) (JsMap.values s)).

Definition countByApiKey (now : Z) (k : string) (s : MemorySessionStore) : Z :=
  Z.of_nat (liveCount now k s).

(** [getByApiKey]: live sessions of the key, most recently accessed first. *)
Definition getByApiKey (now : Z) (k : string) (s : MemorySessionStore)
    : list InternalSession :=
  sort_by (fun x => - last_accessed x)
          (filter (live_for k now) (JsMap.values s)).

(** The loop of [deleteOldestByApiKey]: [oldest] is replaced only by a
    strictly smaller [last_accessed]. *)
Fixpoint oldest_loop (k : string) (now : Z) (oldest : option InternalSession)
    (l : list InternalSession) : option InternalSession :=
  match l with
  | [] => oldest
  | x :: rest =>
      let oldest' :=
        if live_for k now x then
          match oldest with
          | None => Some x
          | Some o => if last_accessed x <? last_accessed o
                      then Some x else oldest
          end
        else oldest in
      oldest_loop k now oldest' rest
  end.

Definition deleteOldestByApiKey (now : Z) (k : string)
    (s : MemorySessionStore) : MemorySessionStore :=
  match oldest_loop k now None (JsMap.values s) with
  | Some o => JsMap.delete (sessionId o) s
  | None => s
  end.

(** The overflow step shared by [create] and [ensure]: at the global cap
    the session created first is dropped. *)
Definition dropOldestCreated (s : MemorySessionStore) : MemorySessionStore :=
  if MAX_SESSIONS <=? JsMap.size s then
    match sort_by (fun e : string * InternalSession => created_at (snd e)) s with
    | oldest :: _ => JsMap.delete (fst oldest) s
    | [] => s
    end
  else s.

(** [create(sessionId, apiKey, ttlMs)]; [tCount], [tOldest] and [now] are
    the clock readings of [countByApiKey], of [deleteOldestByApiKey] and
    of the body. *)
Definition create (tCount tOldest now : Z) (sid k : string) (ttlMs : Z)
    (s : MemorySessionStore) : InternalSession * MemorySessionStore :=
  let s1 := if MAX_SESSIONS_PER_API_KEY <=? countByApiKey tCount k s
            then deleteOldestByApiKey tOldest k s else s in
  let s2 := dropOldestCreated s1 in
  let record := mkSession sid (Some k) None None None now now (Some false)
                          None (now + ttlMs) in
  (record, JsMap.set sid record s2).

Definition touch (now : Z) (x : InternalSession) : InternalSession :=
  mkSession (sessionId x) (apiKey x) (rs_access_token x) (rs_refresh_token x)
            (provider x) (created_at x) now (initialized x)
            (protocolVersion x) (expiresAt x).

Definition get (now : Z) (sid : string) (s : MemorySessionStore)
    : option InternalSession * MemorySessionStore :=
  match JsMap.get sid s with
  | None => (None, s)
  | Some x =>
      if expiresAt x <=? now then (None, JsMap.delete sid s)
      else (Some (touch now x), JsMap.set sid (touch now x) s)
  end.

Definition patched {A : Type} (p : option A) (old : A) : A :=
  match p with Some v => v | None => old end.

(** [Object.assign(session, data, { last_accessed: now })]. *)
Definition assign (now : Z) (data : Patch) (x : InternalSession)
    : InternalSession :=
  mkSession (sessionId x)
            (match p_apiKey data with Some k => Some k | None => apiKey x end)
            (match p_rs_access_token data with
             | Some v => Some v | None => rs_access_token x end)
            (match p_rs_refresh_token data with
             | Some v => Some v | None => rs_refresh_token x end)
            (patched (p_provider data) (provider x))
            (patched (p_created_at data) (created_at x))
            now
            (match p_initialized data with
             | Some v => Some v | None => initialized x end)
            (match p_protocolVersion data with
             | Some v => Some v | None => protocolVersion x end)
            (expiresAt x).

Definition update (now : Z) (sid : string) (data : Patch)
    (s : MemorySessionStore) : MemorySessionStore :=
  match JsMap.get sid s with
  | None => s
  | Some x => JsMap.set sid (assign now data x) s
  end.

Definition delete (sid : string) (s : MemorySessionStore) : MemorySessionStore :=
  JsMap.delete sid s.

(** [ensure(sessionId, ttlMs)]; [t1] and [t2] are the two clock readings
    of the branch that refreshes an existing session. *)
Definition ensure (t1 t2 : Z) (sid : string) (ttlMs : Z)
    (s : MemorySessionStore) : MemorySessionStore :=
  match JsMap.get sid s with
  | Some x =>
      JsMap.set sid
        (mkSession (sessionId x) (apiKey x) (rs_access_token x)
                   (rs_refresh_token x) (provider x) (created_at x) t2
                   (initialized x) (protocolVersion x) (t1 + ttlMs)) s
  | None =>
      JsMap.set sid
        (mkSession sid None None None None t1 t1 None None (t1 + ttlMs))
        (dropOldestCreated s)
  end.

(** [put(sessionId, value, ttlMs)]: a plain write. *)
Definition put (now : Z) (sid : string) (v : SessionRecord) (ttlMs : Z)
    (s : MemorySessionStore) : MemorySessionStore :=
  JsMap.set sid
    (mkSession sid (r_apiKey v) (r_rs_access_token v) (r_rs_refresh_token v)
               (r_provider v) (r_created_at v)
               (Js.nullish (r_last_accessed v) now)
               (r_initialized v) (r_protocolVersion v) (now + ttlMs)) s.

Definition getSessionCount (s : MemorySessionStore) : Z := JsMap.size s.

(** ** Sequences of store operations *)

Inductive Op : Type :=
| Create (tCount tOldest now : Z) (sid k : string) (ttlMs : Z)
| Get (now : Z) (sid : string)
| Update (now : Z) (sid : string) (data : Patch)
| Delete (sid : string)
| DeleteOldestByApiKey (now : Z) (k : string)
| Cleanup (now : Z)
| Ensure (t1 t2 : Z) (sid : string) (ttlMs : Z)
| Put (now : Z) (sid : string) (v : SessionRecord) (ttlMs : Z).

Definition apply (op : Op) (s : MemorySessionStore) : MemorySessionStore :=
  match op with
  | Create tCount tOldest now sid k ttlMs =>
      snd (create tCount tOldest now sid k ttlMs s)
  | Get now sid => snd (get now sid s)
  | Update now sid data => update now sid data s
  | Delete sid => delete sid s
  | DeleteOldestByApiKey now k => deleteOldestByApiKey now k s
  | Cleanup now => fst (cleanup now s)
  | Ensure t1 t2 sid ttlMs => ensure t1 t2 sid ttlMs s
  | Put now sid v ttlMs => put now sid v ttlMs s
  end.

Definition run (ops : list Op) (s : MemorySessionStore) : MemorySessionStore :=
  fold_left (fun acc op => apply op acc) ops s.






End SessionStore.

(* ===================================================================== *)
(** * String operations of the JavaScript runtime (ASCII strings) *)
(* ===================================================================== *)

Module Str.

Definition lower_ascii (c : ascii) : ascii :=
  let n := nat_of_ascii c in
  if ((65 <=? n) && (n <=? 90))%nat then ascii_of_nat (n + 32) else c.

(** [s.toLowerCase()]. *)
Fixpoint toLowerCase (s : string) : string :=
  match s with
  | EmptyString => EmptyString
  | String c rest => String (lower_ascii c) (toLowerCase rest)
  end.

(** [s.startsWith(p)]. *)
Definition startsWith (p s : string) : bool := String.prefix p s.

(** [s.endsWith(p)]. *)
Definition endsWith (p s : string) : bool :=
  let n := String.length s in
  let k := String.length p in
  if (k <=? n)%nat then (substring (n - k) k s =? p)%string else false.

(** [s.includes(p)]. *)
Fixpoint includes (p s : string) : bool :=
  String.prefix p s
  || match s with
     | EmptyString => false
     | String _ rest => includes p rest
     end.

(** The class [\s] restricted to ASCII. *)
Definition is_space (c : ascii) : bool :=
  let n := nat_of_ascii c in
  ((n =? 32) || ((9 <=? n) && (n <=? 13)))%nat.

Definition is_digit (c : ascii) : bool :=
  let n := nat_of_ascii c in ((48 <=? n) && (n <=? 57))%nat.

Fixpoint trimStart (s : string) : string :=
  match s with
  | String c rest => if is_space c then trimStart rest else s
  | EmptyString => EmptyString
  end.

Fixpoint rev_string (acc s : string) : string :=
  match s with
  | EmptyString => acc
  | String c rest => rev_string (String c acc) rest
  end.

(** [s.trim()]. *)
Definition trim (s : string) : string :=
  rev_string "" (trimStart (rev_string "" (trimStart s))).

(** [s.split(/\s+/).filter(Boolean)]: the maximal runs of non-space
    characters.  [cur] is the run being read, reversed. *)
Fixpoint words_from (cur : string) (s : string) : list string :=
  match s with
  | EmptyString =>
      if (cur =? "")%string then [] else [rev_string "" cur]
  | String c rest =>
      if is_space c then
        if (cur =? "")%string then words_from "" rest
        else rev_string "" cur :: words_from "" rest
      else words_from (String c cur) rest
  end.

Definition words (s : string) : list string := words_from "" s.

(** [xs.join(sep)]. *)
Fixpoint join (sep : string) (xs : list string) : string :=
  match xs with
  | [] => ""
  | [x] => x
  | x :: rest => x ++ sep ++ join sep rest
  end.

Definition mem (x : string) (xs : list string) : bool :=
  existsb (String.eqb x) xs.

End Str.

(* ===================================================================== *)
(** * The platform the server runs on *)
(* ===================================================================== *)

(** The WHATWG [URL] class: [url_parse s] is [new URL(s)] and
    [url_resolve rel base] is [new URL(rel, base)], [None] when the
    constructor throws its [TypeError]. *)
Class UrlApi : Type := {
  URL : Type;
  url_parse : string -> option URL;
  url_resolve : string -> string -> option URL;
  url_protocol : URL -> string;
  url_hostname : URL -> string;
  url_host : URL -> string;
  url_pathname : URL -> string;
  url_origin : URL -> string;
  url_set_param : string -> string -> URL -> URL;
  url_toString : URL -> string;
  (** [new URLSearchParams(s)] as its list of entries. *)
  query_entries : string -> list (string * string)
}.

(** What a token endpoint call of [oauth4webapi] comes back with: the
    processed response, a [ResponseBodyError], or any other exception. *)
Record TokenEndpointResponse : Type := mkTokenEndpointResponse {
  tr_access_token : string;
  tr_refresh_token : option string;
  tr_expires_in : option Z;
  tr_scope : option string
}.

Inductive GrantOutcome : Type :=
| GrantOk (r : TokenEndpointResponse)
| GrantBodyError (error : string) (error_description : option string)
| GrantFailure (message : string).

Class OAuthLib : Type := {
  (** [ClientSecretBasic(secret)]: returns, or throws on a secret it
      refuses. *)
  clientSecretBasic : string -> Js.result unit;
  (** [refreshTokenGrantRequest] then [processRefreshTokenResponse], by
      token endpoint, client id, client secret and refresh token. *)
  refreshTokenGrant : string -> string -> string -> string -> GrantOutcome;
  (** [authorizationCodeGrantRequest] then
      [processAuthorizationCodeResponse], by token endpoint, client id,
      client secret, code and redirect URI. *)
  authorizationCodeGrant :
    string -> string -> string -> string -> string -> GrantOutcome;
  (** [calculatePKCECodeChallenge]: base64url(sha256(verifier)). *)
  calculatePKCECodeChallenge : string -> string;
  (** The message of the [TypeError] with which
      [authorizationCodeGrantRequest] refuses its arguments before any
      request is made, by client id and redirect URI. *)
  grantArgumentsError : string -> string -> string
}.

(** A [URLSearchParams] object as [oauth4webapi] sees it: its entries, and
    whether it is one of the objects that [validateAuthResponse()]
    returned.  The library keeps those apart and takes no other object
    for the callback parameters of an authorization code grant. *)
Record SearchParams : Type := mkSearchParams {
  sp_entries : list (string * string);
  sp_validated : bool
}.

(** [new URLSearchParams()]. *)
Definition newSearchParams : SearchParams := mkSearchParams [] false.

(** [params.set(name, value)]. *)
Definition searchParams_set (name value : string) (params : SearchParams)
    : SearchParams :=
  mkSearchParams (JsMap.set name value (sp_entries params))
                 (sp_validated params).

(** [oauth.authorizationCodeGrantRequest(as, client, clientAuth,
    callbackParameters, redirectUri, codeVerifier)] followed by
    [processAuthorizationCodeResponse].  Callback parameters that did not
    come out of [validateAuthResponse()] are refused with a [TypeError]
    before any request; validated ones carry the code to the token
    endpoint. *)
Definition authorizationCodeGrantRequest `{OAuthLib}
    (tokenEndpoint clientId clientSecret : string)
    (callbackParameters : SearchParams) (redirectUri : string)
    : GrantOutcome :=
  if negb (sp_validated callbackParameters)
  then GrantFailure (grantArgumentsError clientId redirectUri)
  else authorizationCodeGrant tokenEndpoint clientId clientSecret
         (Js.nullish (Js.assoc "code" (sp_entries callbackParameters)) "")
         redirectUri.

(** [JSON] and [Buffer]: [json_parse] is [None] when [JSON.parse] throws;
    [base64_decode s] is [Buffer.from(s, "base64").toString("utf-8")], which
    skips what it cannot decode and never throws. *)
Class JsonCodec : Type := {
  json_parse : string -> option Js.json;
  json_stringify : Js.json -> string;
  base64_encode : string -> string;
  base64_decode : string -> string
}.

(** [crypto.getRandomValues] and [crypto.randomUUID]: the value of the
    [k]-th draw a handler makes.  [opaqueToken k bytes] is what
    [generateOpaqueToken(bytes)] returns on that draw. *)
Class Entropy : Type := {
  opaqueToken : nat -> nat -> string;
  randomUUID : nat -> string
}.

(** The composite [state] of the provider redirect,
    [{ tid, cs, cr, sid }], and its base64url-JSON codec. *)
Record CompositeState : Type := mkCompositeState {
  tid : option string;
  cs : option string;
  cr : option string;
  cstate_sid : option string
}.

Class StateCodec : Type := {
  (** [base64UrlEncodeJson]: [""] when encoding fails. *)
  base64UrlEncodeJson : CompositeState -> string;
  (** [base64UrlDecodeJson]: [None] for [null], that is when decoding or
      parsing fails. *)
  base64UrlDecodeJson : string -> option CompositeState
}.

(* ===================================================================== *)
(** * oauth/ssrf.ts *)
(* ===================================================================== *)

Module Ssrf.

Definition BLOCKED_HOSTS : list string :=
  ["localhost"; "127.0.0.1"; "::1"; "0.0.0.0"; "[::1]"].

Definition nth_char (n : nat) (s : string) : option ascii := String.get n s.

Definition char_in (lo hi : nat) (o : option ascii) : bool :=
  match o with
  | Some c => ((lo <=? nat_of_ascii c) && (nat_of_ascii c <=? hi))%nat
  | None => false
  end.

Definition char_is (c : ascii) (o : option ascii) : bool :=
  match o with Some c' => Ascii.eqb c c' | None => false end.

(** [/^172\.(1[6-9]|2\d|3[01])\./]. *)
Definition re_172 (h : string) : bool :=
  Str.startsWith "172." h
  && ((char_is "1" (nth_char 4 h) && char_in 54 57 (nth_char 5 h))
      || (char_is "2" (nth_char 4 h) && char_in 48 57 (nth_char 5 h))
      || (char_is "3" (nth_char 4 h) && char_in 48 49 (nth_char 5 h)))
  && char_is "." (nth_char 6 h).

(** [PRIVATE_IP_PATTERNS]; the [/i] patterns are matched on the
    lower-cased text. *)
Definition PRIVATE_IP_PATTERNS : list (string -> bool) :=
  [ Str.startsWith "10.";
    re_172;
    Str.startsWith "192.168.";
    Str.startsWith "169.254.";
    (fun h => Str.startsWith "fc00:" (Str.toLowerCase h));
    (fun h => Str.startsWith "fd00:" (Str.toLowerCase h));
    (fun h => Str.startsWith "fe80:" (Str.toLowerCase h)) ].

Definition BLOCKED_DOMAIN_PATTERNS : list (string -> bool) :=
  map (fun suffix h => Str.endsWith suffix (Str.toLowerCase h))
      [".local"; ".internal"; ".localhost"; ".localdomain"; ".corp"; ".lan"].

Definition isPrivateIp (hostname : string) : bool :=
  existsb (fun pattern => pattern hostname) PRIVATE_IP_PATTERNS.

Definition isBlockedDomain (hostname : string) : bool :=
  let lower := Str.toLowerCase hostname in
  existsb (fun pattern => pattern lower) BLOCKED_DOMAIN_PATTERNS.

Inductive SsrfCheckResult : Type :=
| Safe
| Unsafe (reason : string).

Section WithUrl.
Context `{UrlApi}.

(** [checkSsrfSafe(urlString, { requireNonRootPath })]. *)
Definition checkSsrfSafe (urlString : string)
    (requireNonRootPath : option bool) : SsrfCheckResult :=
  let requireNonRootPath := Js.nullish requireNonRootPath true in
  match url_parse urlString with
  | None => Unsafe "invalid_url"
  | Some url =>
      if negb (url_protocol url =? "https:")%string
      then Unsafe "https_required"
      else
        let hostname := Str.toLowerCase (url_hostname url) in
        if Str.mem hostname BLOCKED_HOSTS then Unsafe "blocked_host"
        else if isPrivateIp hostname then Unsafe "private_ip"
        else if isBlockedDomain hostname then Unsafe "internal_domain"
        else if requireNonRootPath
                && ((url_pathname url =? "/")%string
                    || (url_pathname url =? "")%string)
        then Unsafe "root_path_not_allowed"
        else Safe
  end.

Definition isSsrfSafe (urlString : string)
    (requireNonRootPath : option bool) : bool :=
  match checkSsrfSafe urlString requireNonRootPath with
  | Safe => true
  | Unsafe _ => false
  end.

(** [assertSsrfSafe]: throws [ssrf_blocked: <reason>]. *)
Definition assertSsrfSafe (urlString : string)
    (requireNonRootPath : option bool) : Js.result unit :=
  match checkSsrfSafe urlString requireNonRootPath with
  | Safe => Js.Ok tt
  | Unsafe reason => Js.Throw ("ssrf_blocked: " ++ reason)
  end.
End WithUrl.

End Ssrf.

(* ===================================================================== *)
(** * oauth/cimd.ts *)
(* ===================================================================== *)

Module Cimd.

(** The fields of [ClientMetadata] the server reads. *)
Record ClientMetadata : Type := mkClientMetadata {
  client_id : string;
  client_name : option string;
  redirect_uris : list string
}.

Record CimdConfig : Type := mkCimdConfig {
  timeoutMs : option Z;
  maxBytes : option Z;
  allowedDomains : option (list string)
}.

Inductive CimdFetchResult : Type :=
| Success (metadata : ClientMetadata)
| Failure (error : string).

(** What [response.text()] settles with. *)
Inductive BodyOutcome : Type :=
| BodyText (text : string)
| BodyAbort
| BodyError (message : string).

Record Response : Type := mkResponse {
  ok : bool;
  status : Z;
  content_length : option string;
  content_type : option string;
  body : BodyOutcome
}.

(** What [fetch(url, ...)] settles with: a response, the [AbortError] of
    the timeout, or another exception. *)
Inductive FetchOutcome : Type :=
| Responded (r : Response)
| Aborted
| Failed (message : string).

(** The network and the parsers behind [fetchClientMetadata]. *)
Class Network : Type := {
  fetch : string -> Z -> FetchOutcome;
  (** [Number.parseInt(s, 10)], [None] for [NaN]. *)
  parseInt10 : string -> option Z;
  (** [ClientMetadataSchema.safeParse]: the data or the error message. *)
  schema_safeParse : Js.json -> ClientMetadata + string
}.

(** A fetch in the log of network calls. *)
Definition NetLog : Type := list string.

Section WithPlatform.
Context `{UrlApi} `{JsonCodec} `{Network}.

Definition isClientIdUrl (clientId : string) : bool :=
  if negb (Str.startsWith "https://" clientId) then false
  else match url_parse clientId with
       | Some url =>
           negb (url_pathname url =? "/")%string
           && (1 <? String.length (url_pathname url))%nat
       | None => false
       end.

Definition isDomainAllowed (clientIdUrl : string)
    (allowed : option (list string)) : bool :=
  match allowed with
  | None => true
  | Some [] => true
  | Some domains =>
      match url_parse clientIdUrl with
      | Some url =>
          let hostname := Str.toLowerCase (url_hostname url) in
          existsb (fun domain =>
                     let d := Str.toLowerCase domain in
                     (hostname =? d)%string
                     || Str.endsWith ("." ++ d) hostname) domains
      | None => false
      end
  end.

(** The body of the [try] around [fetch] once a response is there. *)
Definition readResponse (clientIdUrl : string) (maxBytes : Z)
    (response : Response) : CimdFetchResult :=
  if negb (ok response)
  then Failure ("fetch_failed: " ++ Js.string_of_Z (status response))
  else
    let tooLong :=
      match content_length response with
      | Some cl =>
          Js.truthy_string cl
          && match parseInt10 cl with
             | Some n => maxBytes <? n
             | None => false
             end
      | None => false
      end in
    if tooLong then Failure "metadata_too_large"
    else
      let contentType := Js.or_string (content_type response) "" in
      if negb (Str.includes "application/json" contentType
               || Str.includes "text/json" contentType)
      then Failure "invalid_content_type"
      else
        match body response with
        | BodyAbort => Failure "fetch_timeout"
        | BodyError message => Failure ("fetch_error: " ++ message)
        | BodyText text =>
            if maxBytes <? Z.of_nat (String.length text)
            then Failure "metadata_too_large"
            else
              match json_parse text with
              | None => Failure "invalid_json"
              | Some data =>
                  match schema_safeParse data with
                  | inr message => Failure ("invalid_metadata: " ++ message)
                  | inl parsed =>
                      if negb (client_id parsed =? clientIdUrl)%string
                      then Failure "client_id_mismatch"
                      else Success parsed
                  end
              end
        end.

(** [fetchClientMetadata(clientIdUrl, config)], with the fetches it
    performed. *)
Definition fetchClientMetadata (clientIdUrl : string)
    (config : option CimdConfig) : CimdFetchResult * NetLog :=
  let timeout := Js.nullish (match config with
                             | Some c => timeoutMs c | None => None end)
                            5000 in
  let limit := Js.nullish (match config with
                           | Some c => maxBytes c | None => None end)
                          65536 in
  let allowed := match config with
                 | Some c => allowedDomains c | None => None end in
  match Ssrf.assertSsrfSafe clientIdUrl (Some true) with
  | Js.Throw message => (Failure message, [])
  | Js.Ok _ =>
      if negb (isDomainAllowed clientIdUrl allowed)
      then (Failure "domain_not_allowed", [])
      else
        match fetch clientIdUrl timeout with
        | Responded response =>
            (readResponse clientIdUrl limit response, [clientIdUrl])
        | Aborted => (Failure "fetch_timeout", [clientIdUrl])
        | Failed message =>
            (Failure ("fetch_error: " ++ message), [clientIdUrl])
        end
  end.

Definition validateRedirectUri (metadata : ClientMetadata)
    (redirectUri : string) : bool :=
  Str.mem redirectUri (redirect_uris metadata).
End WithPlatform.

End Cimd.

(* ===================================================================== *)
(** * oauth/refresh.ts *)
(* ===================================================================== *)

Module Refresh.
Import Storage.

Record ProviderRefreshConfig : Type := mkProviderRefreshConfig {
  clientId : string;
  clientSecret : string;
  accountsUrl : string;
  tokenEndpointPath : option string
}.

Record RefreshResult : Type := mkRefreshResult {
  success : bool;
  tokens : option ProviderTokens;
  error : option string
}.

Record FreshToken : Type := mkFreshToken {
  accessToken : string;
  wasRefreshed : bool
}.

Definition EXPIRY_BUFFER_MS : Z := 60000.
Definition REFRESH_COOLDOWN_MS : Z := 30000.

(** The module-level [recentlyRefreshed] map. *)
Definition Recently : Type := JsMap.t Z.

Definition shouldSkipRefresh (now : Z) (rsToken : string) (m : Recently)
    : bool :=
  match JsMap.get rsToken m with
  | Some lastRefresh =>
      negb (lastRefresh =? 0) && (now - lastRefresh <? REFRESH_COOLDOWN_MS)
  | None => false
  end.

(** [markRefreshed]; [tSet] and [tSweep] are its two clock readings. *)
Definition markRefreshed (tSet tSweep : Z) (rsToken : string) (m : Recently)
    : Recently :=
  let m1 := JsMap.set rsToken tSet m in
  if 1000 <? JsMap.size m1 then
    filter (fun e : string * Z =>
              negb (REFRESH_COOLDOWN_MS <? tSweep - snd e)) m1
  else m1.

Definition isTokenExpiredOrExpiring (now : Z) (expiresAt : option Z)
    (bufferMs : Z) : bool :=
  match expiresAt with
  | None => false
  | Some e => if e =? 0 then false else e - bufferMs <=? now
  end.

Section WithPlatform.
Context `{UrlApi} `{OAuthLib}.

(** [buildAuthorizationServer(config).token_endpoint]. *)
Definition tokenEndpointOf (config : ProviderRefreshConfig)
    : Js.result string :=
  let tokenEndpoint := Js.or_string (tokenEndpointPath config) "/token" in
  match url_resolve tokenEndpoint (accountsUrl config) with
  | Some u => Js.Ok (url_toString u)
  | None => Js.Throw "Invalid URL"
  end.

(** [refreshProviderToken(refreshToken, config)]. *)
Definition refreshProviderToken (now : Z) (refreshToken : string)
    (config : ProviderRefreshConfig) : Js.result RefreshResult :=
  match tokenEndpointOf config with
  | Js.Throw message => Js.Throw message
  | Js.Ok endpoint =>
      Js.Ok
        match
          match clientSecretBasic (clientSecret config) with
          | Js.Throw message => GrantFailure message
          | Js.Ok _ => refreshTokenGrant endpoint (clientId config)
                                         (clientSecret config) refreshToken
          end
        with
        | GrantOk result =>
            if negb (Js.truthy_string (tr_access_token result))
            then mkRefreshResult false None
                   (Some "No access_token in provider response")
            else mkRefreshResult true
                   (Some (mkProviderTokens
                            (tr_access_token result)
                            (Some (Js.nullish (tr_refresh_token result)
                                              refreshToken))
                            (Some (now + Js.nullish (tr_expires_in result) 3600
                                           * 1000))
                            (Some (Str.words
                                     (Js.or_string (tr_scope result) "")))))
                   None
        | GrantBodyError e description =>
            mkRefreshResult false None
              (Some (Str.trim ("Provider returned " ++ e ++ ": "
                               ++ Js.or_string description "")))
        | GrantFailure message =>
            mkRefreshResult false None (Some ("Network error: " ++ message))
        end
  end.

(** [ensureFreshToken(rsAccessToken, tokenStore, providerConfig)].  The
    clock readings, in program order: [clk 0] in [getByRsAccess],
    [clk 1] in [isTokenExpiredOrExpiring], [clk 2] in
    [shouldSkipRefresh], [clk 3] in [refreshProviderToken], [clk 4] in
    [updateByRsRefresh], [clk 5] and [clk 6] in [markRefreshed]. *)
Definition ensureFreshToken (clk : nat -> Z) (rsAccessToken : string)
    (providerConfig : option ProviderRefreshConfig)
    (tokenStore : MemoryTokenStore) (recently : Recently)
    : Js.result (FreshToken * MemoryTokenStore * Recently) :=
  let '(found, s1) := getByRsAccess (clk 0%nat) rsAccessToken tokenStore in
  let none := Js.Ok (mkFreshToken "" false, s1, recently) in
  match found with
  | None => none
  | Some r =>
      match deref s1 r with
      | None => none
      | Some record =>
          let current := access_token (provider record) in
          let existing := Js.Ok (mkFreshToken current false, s1, recently) in
          if negb (Js.truthy_string current) then none
          else if negb (isTokenExpiredOrExpiring
                          (clk 1%nat) (expires_at (provider record))
                          EXPIRY_BUFFER_MS)
          then existing
          else if shouldSkipRefresh (clk 2%nat) rsAccessToken recently
          then existing
          else if negb (Js.truthy_opt (refresh_token (provider record)))
          then existing
          else
            match providerConfig with
            | None => existing
            | Some config =>
                match refreshProviderToken
                        (clk 3%nat)
                        (Js.nullish (refresh_token (provider record)) "")
                        config with
                | Js.Throw message => Js.Throw message
                | Js.Ok result =>
                    match success result, tokens result with
                    | true, Some fresh =>
                        let providerRefreshRotated :=
                          negb (Js.same_opt
                                  (refresh_token fresh)
                                  (refresh_token (provider record))) in
                        let newRsAccess :=
                          if providerRefreshRotated then None
                          else Some (rs_access_token record) in
                        let '(_, s2) :=
                          updateByRsRefresh (clk 4%nat)
                            (rs_refresh_token record) fresh newRsAccess
                            DEFAULT_RS_TOKEN_TTL_MS s1 in
                        Js.Ok (mkFreshToken (access_token fresh) true, s2,
                               markRefreshed (clk 5%nat) (clk 6%nat)
                                             rsAccessToken recently)
                    | _, _ => existing
                    end
                end
            end
      end
  end.
End WithPlatform.

End Refresh.

(* ===================================================================== *)
(** * oauth/flow.ts *)
(* ===================================================================== *)

Module Flow.
Import Storage.

Record AuthorizeInput : Type := mkAuthorizeInput {
  in_clientId : option string;
  in_codeChallenge : string;
  in_codeChallengeMethod : string;
  in_redirectUri : string;
  in_requestedScope : option string;
  in_state : option string;
  in_sid : option string
}.

Record CallbackInput : Type := mkCallbackInput {
  compositeState : string;
  providerCode : string
}.

Inductive TokenInput : Type :=
| RefreshTokenGrant (refreshToken : string)
| AuthorizationCodeGrant (code codeVerifier : string).

Record ProviderConfig : Type := mkProviderConfig {
  clientId : option string;
  clientSecret : option string;
  accountsUrl : string;
  oauthScopes : option string;
  extraAuthParams : option string;
  authorizationEndpointPath : option string;
  tokenEndpointPath : option string
}.

Record OAuthConfig : Type := mkOAuthConfig {
  redirectUri : string;
  redirectAllowlist : list string;
  redirectAllowAll : bool
}.

Record CimdOptions : Type := mkCimdOptions {
  enabled : option bool;
  cimd_timeoutMs : option Z;
  cimd_maxBytes : option Z;
  cimd_allowedDomains : option (list string)
}.

Record FlowOptions : Type := mkFlowOptions {
  baseUrl : string;
  isDev : bool;
  callbackPath : option string;
  cimd : option CimdOptions
}.

Record AuthorizeResult : Type := mkAuthorizeResult {
  redirectTo : string;
  txnId : string
}.

Record CallbackResult : Type := mkCallbackResult {
  cb_redirectTo : string;
  cb_txnId : string;
  providerTokens : ProviderTokens
}.

Record TokenResponse : Type := mkTokenResponse {
  tok_access_token : string;
  tok_refresh_token : string;
  token_type : string;
  expires_in : Z;
  tok_scope : string
}.

Section WithPlatform.
Context `{UrlApi} `{OAuthLib} `{Entropy} `{StateCodec} `{JsonCodec}
        `{Cimd.Network}.

Definition generateOpaqueToken (draw bytes : nat) : string :=
  opaqueToken draw bytes.

(** [buildAuthorizationServer(providerConfig)]: the authorization and
    the token endpoint. *)
Definition buildAuthorizationServer (providerConfig : ProviderConfig)
    : Js.result (string * string) :=
  let authEndpoint :=
    Js.or_string (authorizationEndpointPath providerConfig) "/authorize" in
  let tokenEndpoint :=
    Js.or_string (tokenEndpointPath providerConfig) "/token" in
  match url_resolve authEndpoint (accountsUrl providerConfig) with
  | None => Js.Throw "Invalid URL"
  | Some a =>
      match url_resolve tokenEndpoint (accountsUrl providerConfig) with
      | None => Js.Throw "Invalid URL"
      | Some t => Js.Ok (url_toString a, url_toString t)
      end
  end.

Definition isAllowedRedirect (uri : string) (config : OAuthConfig)
    (dev : bool) : bool :=
  let allowed :=
    filter Js.truthy_string (redirectAllowlist config ++ [redirectUri config]) in
  match url_parse uri with
  | None => false
  | Some url =>
      if dev && Str.mem (url_hostname url) ["localhost"; "127.0.0.1"; "::1"]
      then true
      else if redirectAllowAll config then true
      else Str.mem (url_protocol url ++ "//" ++ url_host url
                      ++ url_pathname url) allowed
           || Str.mem uri allowed
  end.

(** The CIMD block of [handleAuthorize]: nothing to do for a client id
    that is not a URL, otherwise the metadata is fetched and the
    redirect URI checked against it. *)
Definition checkCimdClient (input : AuthorizeInput) (options : FlowOptions)
    : Js.result unit * Cimd.NetLog :=
  let cimdEnabled :=
    Js.nullish (match cimd options with
                | Some c => enabled c | None => None end) true in
  match in_clientId input with
  | Some cid =>
      if Js.truthy_string cid && Cimd.isClientIdUrl cid then
        if negb cimdEnabled
        then (Js.Throw "invalid_client: URL-based client_id not supported", [])
        else
          let '(result, log) :=
            Cimd.fetchClientMetadata cid
              (Some (Cimd.mkCimdConfig
                       (match cimd options with
                        | Some c => cimd_timeoutMs c | None => None end)
                       (match cimd options with
                        | Some c => cimd_maxBytes c | None => None end)
                       (match cimd options with
                        | Some c => cimd_allowedDomains c | None => None end)))
          in
          match result with
          | Cimd.Failure e => (Js.Throw ("invalid_client: " ++ e), log)
          | Cimd.Success metadata =>
              if negb (Cimd.validateRedirectUri metadata (in_redirectUri input))
              then (Js.Throw
                      "invalid_request: redirect_uri not registered for this client",
                    log)
              else (Js.Ok tt, log)
          end
      else (Js.Ok tt, [])
  | None => (Js.Ok tt, [])
  end.

(** [if (st) redirect.searchParams.set("state", st)]. *)
Definition attachState (st : option string) (redirect : URL) : URL :=
  match st with
  | Some v => if Js.truthy_string v
              then url_set_param "state" v redirect else redirect
  | None => redirect
  end.

(** The redirect a flow ends with: [new URL(safe)] with [code] and, when
    truthy, [state] set on it; [None] when the constructor throws. *)
Definition redirectWith (safe code : string) (st : option string)
    : option string :=
  match url_parse safe with
  | None => None
  | Some redirect =>
      Some (url_toString
              (attachState st (url_set_param "code" code redirect)))
  end.

(** [base64UrlDecodeJson(compositeState) || {}]. *)
Definition decodeState (composite : string) : CompositeState :=
  match base64UrlDecodeJson composite with
  | Some d => d
  | None => mkCompositeState None None None None
  end.

(** The production branch of [handleAuthorize]: the provider's
    authorization URL. *)
Definition providerRedirect (input : AuthorizeInput)
    (providerConfig : ProviderConfig) (options : FlowOptions)
    (cid txn : string) : Js.result string :=
  match buildAuthorizationServer providerConfig with
  | Js.Throw m => Js.Throw m
  | Js.Ok (authorizationEndpoint, _) =>
      if negb (Js.truthy_string authorizationEndpoint)
      then Js.Throw "Authorization endpoint not configured"
      else
        match url_parse authorizationEndpoint with
        | None => Js.Throw "Invalid URL"
        | Some authUrl =>
            let u1 := url_set_param "response_type" "code" authUrl in
            let u2 := url_set_param "client_id" cid u1 in
            let path := Js.or_string (callbackPath options) "/oauth/callback" in
            match url_resolve path (baseUrl options) with
            | None => Js.Throw "Invalid URL"
            | Some cb =>
                let u3 := url_set_param "redirect_uri" (url_toString cb) u2 in
                let scopeToUse :=
                  Js.or_string (oauthScopes providerConfig)
                               (Js.or_string (in_requestedScope input) "") in
                let u4 := if Js.truthy_string scopeToUse
                          then url_set_param "scope" scopeToUse u3 else u3 in
                let encoded :=
                  base64UrlEncodeJson
                    (mkCompositeState (Some txn) (in_state input)
                                      (Some (in_redirectUri input))
                                      (in_sid input)) in
                let composite :=
                  if Js.truthy_string encoded then encoded else txn in
                let u5 := url_set_param "state" composite u4 in
                let u6 :=
                  match extraAuthParams providerConfig with
                  | Some extra =>
                      if Js.truthy_string extra then
                        fold_left (fun u kv => url_set_param (fst kv) (snd kv) u)
                                  (query_entries extra) u5
                      else u5
                  | None => u5
                  end in
                Js.Ok (url_toString u6)
            end
        end
  end.

(** [providerConfig.clientId && providerConfig.clientSecret]. *)
Definition providerClient (providerConfig : ProviderConfig) : option string :=
  match clientId providerConfig, clientSecret providerConfig with
  | Some cid, Some secret =>
      if Js.truthy_string cid && Js.truthy_string secret
      then Some cid else None
  | _, _ => None
  end.

(** [handleAuthorize(input, store, providerConfig, oauthConfig, options)].
    Clock: [clk 0] is [createdAt], [clk 1] the reading of
    [saveTransaction], [clk 2] that of [saveCode].  Draws: [0] is the
    transaction id, [1] the dev-shortcut code. *)
Definition handleAuthorize (clk : nat -> Z) (input : AuthorizeInput)
    (providerConfig : ProviderConfig) (oauthConfig : OAuthConfig)
    (options : FlowOptions) (store : MemoryTokenStore)
    : Js.result AuthorizeResult * MemoryTokenStore * Cimd.NetLog :=
  if negb (Js.truthy_string (in_redirectUri input))
  then (Js.Throw "invalid_request: redirect_uri is required", store, [])
  else if negb (Js.truthy_string (in_codeChallenge input))
          || negb (in_codeChallengeMethod input =? "S256")%string
  then (Js.Throw
          "invalid_request: PKCE code_challenge with S256 method is required",
        store, [])
  else
    match checkCimdClient input options with
    | (Js.Throw m, log) => (Js.Throw m, store, log)
    | (Js.Ok _, log) =>
        let txn := generateOpaqueToken 0 16 in
        let s1 :=
          saveTransaction (clk 1%nat) txn
            (mkTransaction (in_codeChallenge input) (in_state input)
                           (in_requestedScope input) (clk 0%nat)
                           (in_sid input) None)
            None store in
        match providerClient providerConfig with
        | Some cid =>
            match providerRedirect input providerConfig options cid txn with
            | Js.Throw m => (Js.Throw m, s1, log)
            | Js.Ok target => (Js.Ok (mkAuthorizeResult target txn), s1, log)
            end
        | None =>
            let code := generateOpaqueToken 1 16 in
            let s2 := saveCode (clk 2%nat) code txn None s1 in
            let safe :=
              if isAllowedRedirect (in_redirectUri input) oauthConfig
                                   (isDev options)
              then in_redirectUri input else redirectUri oauthConfig in
            match redirectWith safe code (in_state input) with
            | None => (Js.Throw "Invalid URL", s2, log)
            | Some target =>
                (Js.Ok (mkAuthorizeResult target txn), s2, log)
            end
        end
    end.

(** [handleProviderCallback(input, store, providerConfig, oauthConfig,
    options)].  Clock: [clk 0] in [getTransaction], [clk 1] for
    [expiresAt], [clk 2] in [saveTransaction], [clk 3] in [saveCode].
    Draw [0] is the RS authorization code.  Whatever is thrown inside
    the [try] comes out as [fetch_failed: <message>], a
    [ResponseBodyError] as [provider_token_error: ...].  The callback
    parameters are a fresh [new URLSearchParams()] with the code set on
    it. *)
Definition handleProviderCallback (clk : nat -> Z) (input : CallbackInput)
    (providerConfig : ProviderConfig) (oauthConfig : OAuthConfig)
    (options : FlowOptions) (store : MemoryTokenStore)
    : Js.result CallbackResult * MemoryTokenStore :=
  let decoded := decodeState (compositeState input) in
  let txn := Js.or_string (tid decoded) (compositeState input) in
  match getTransaction (clk 0%nat) txn store with
  | (None, s1) => (Js.Throw "unknown_txn", s1)
  | (Some t, s1) =>
      let path := Js.or_string (callbackPath options) "/oauth/callback" in
      match url_resolve path (baseUrl options) with
      | None => (Js.Throw "Invalid URL", s1)
      | Some cbUrl =>
          match buildAuthorizationServer providerConfig with
          | Js.Throw m => (Js.Throw m, s1)
          | Js.Ok (_, tokenEndpoint) =>
              let callbackParams :=
                searchParams_set "code" (providerCode input) newSearchParams in
              match clientSecretBasic
                      (Js.or_string (clientSecret providerConfig) "") with
              | Js.Throw m => (Js.Throw m, s1)
              | Js.Ok _ =>
              match authorizationCodeGrantRequest tokenEndpoint
                      (Js.or_string (clientId providerConfig) "")
                      (Js.or_string (clientSecret providerConfig) "")
                      callbackParams (url_toString cbUrl) with
              | GrantBodyError e description =>
                  (Js.Throw (Str.trim ("provider_token_error: " ++ e ++ " "
                                       ++ Js.or_string description "")), s1)
              | GrantFailure m => (Js.Throw ("fetch_failed: " ++ m), s1)
              | GrantOk result =>
                  if negb (Js.truthy_string (tr_access_token result))
                  then (Js.Throw "fetch_failed: provider_no_token", s1)
                  else
                    let expiresIn := Js.nullish (tr_expires_in result) 3600 in
                    let tokens :=
                      mkProviderTokens
                        (tr_access_token result) (tr_refresh_token result)
                        (Some (clk 1%nat + expiresIn * 1000))
                        (Some (Str.words (Js.or_string (tr_scope result) "")))
                    in
                    let t' := mkTransaction (codeChallenge t) (state t)
                                (scope t) (createdAt t) (sid t) (Some tokens) in
                    let s2 := saveTransaction (clk 2%nat) txn t' None s1 in
                    let asCode := generateOpaqueToken 0 24 in
                    let s3 := saveCode (clk 3%nat) asCode txn None s2 in
                    let clientRedirect :=
                      Js.or_string (cr decoded) (redirectUri oauthConfig) in
                    let safe :=
                      if isAllowedRedirect clientRedirect oauthConfig
                                           (isDev options)
                      then clientRedirect else redirectUri oauthConfig in
                    match redirectWith safe asCode (cs decoded) with
                    | None => (Js.Throw "fetch_failed: Invalid URL", s3)
                    | Some target =>
                        (Js.Ok (mkCallbackResult target txn tokens), s3)
                    end
              end
              end
          end
      end
  end.

(** The [refresh_token] grant of [handleToken].  Clock: [clk 0] in
    [getByRsRefresh], [clk 1] is [now], [clk 2] in
    [refreshProviderToken], [clk 3] in [updateByRsRefresh], [clk 4] for
    [expires_in].  Draw [0] is the rotated RS access token. *)
Definition handleRefreshGrant (clk : nat -> Z) (refreshToken : string)
    (providerConfig : option ProviderConfig) (store : MemoryTokenStore)
    : Js.result TokenResponse * MemoryTokenStore :=
  match getByRsRefresh (clk 0%nat) refreshToken store with
  | (None, s1) => (Js.Throw "invalid_grant", s1)
  | (Some r, s1) =>
      match deref s1 r with
      | None => (Js.Throw "invalid_grant", s1)
      | Some rec =>
          let now := clk 1%nat in
          let providerExpiresAt := Js.nullish (expires_at (provider rec)) 0 in
          let isExpiringSoon := providerExpiresAt - 60000 <=? now in
          let refreshed : Js.result ProviderTokens :=
            match providerConfig with
            | Some pc =>
                if isExpiringSoon then
                  if negb (Js.truthy_opt (refresh_token (provider rec)))
                  then Js.Throw "provider_token_expired"
                  else
                    match Refresh.refreshProviderToken (clk 2%nat)
                            (Js.nullish (refresh_token (provider rec)) "")
                            (Refresh.mkProviderRefreshConfig
                               (Js.or_string (clientId pc) "")
                               (Js.or_string (clientSecret pc) "")
                               (accountsUrl pc) (tokenEndpointPath pc)) with
                    | Js.Throw m => Js.Throw m
                    | Js.Ok res =>
                        match Refresh.success res, Refresh.tokens res with
                        | true, Some fresh => Js.Ok fresh
                        | _, _ => Js.Throw "provider_refresh_failed"
                        end
                    end
                else Js.Ok (provider rec)
            | None => Js.Ok (provider rec)
            end in
          match refreshed with
          | Js.Throw m => (Js.Throw m, s1)
          | Js.Ok prov =>
              let providerRefreshRotated :=
                negb (Js.same_opt (refresh_token prov)
                               (refresh_token (provider rec))) in
              let newAccess := if providerRefreshRotated
                               then Some (generateOpaqueToken 0 24) else None in
              let '(updated, s2) :=
                updateByRsRefresh (clk 3%nat) refreshToken prov newAccess
                                  DEFAULT_RS_TOKEN_TTL_MS s1 in
              let expiresIn :=
                match expires_at prov with
                | Some e => if e =? 0 then 3600
                            else Z.max 1 ((e - clk 4%nat) / 1000)
                | None => 3600
                end in
              let scopesOf :=
                match updated with
                | Some u => Js.nullish (field (fun o => scopes (provider o))
                                              None s2 u) []
                | None => []
                end in
              (Js.Ok (mkTokenResponse
                        (Js.nullish newAccess (rs_access_token rec))
                        refreshToken "bearer" expiresIn
                        (Str.join " " scopesOf)), s2)
          end
      end
  end.

(** The [authorization_code] grant of [handleToken].  Clock: [clk 0] in
    [getTxnIdByCode], [clk 1] in [getTransaction], [clk 2] in
    [storeRsMapping].  Draws: [0] is [rsAccess], [1] is [rsRefresh]. *)
Definition handleCodeGrant (clk : nat -> Z) (code codeVerifier : string)
    (store : MemoryTokenStore)
    : Js.result TokenResponse * MemoryTokenStore :=
  match getTxnIdByCode (clk 0%nat) code store with
  | (None, s1) => (Js.Throw "invalid_grant", s1)
  | (Some txn, s1) =>
      if negb (Js.truthy_string txn) then (Js.Throw "invalid_grant", s1)
      else
        match getTransaction (clk 1%nat) txn s1 with
        | (None, s2) => (Js.Throw "invalid_grant", s2)
        | (Some t, s2) =>
            let expected := codeChallenge t in
            let actual := calculatePKCECodeChallenge codeVerifier in
            if negb (expected =? actual)%string
            then (Js.Throw "invalid_grant", s2)
            else
              let rsAccess := generateOpaqueToken 0 24 in
              let rsRefresh := generateOpaqueToken 1 24 in
              let s3 :=
                match txn_provider t with
                | Some p =>
                    if Js.truthy_string (access_token p)
                    then snd (storeRsMapping (clk 2%nat) (randomUUID 0)
                                rsAccess p (Some rsRefresh)
                                DEFAULT_RS_TOKEN_TTL_MS s2)
                    else s2
                | None => s2
                end in
              let s4 := deleteCode code (deleteTransaction txn s3) in
              let joined :=
                Str.join " "
                  (match txn_provider t with
                   | Some p => Js.nullish (scopes p) []
                   | None => []
                   end) in
              (Js.Ok (mkTokenResponse rsAccess rsRefresh "bearer" 3600
                        (if Js.truthy_string joined then joined
                         else Js.or_string (scope t) "")), s4)
        end
  end.

(** [!txn.provider?.access_token]. *)
Definition lacks_provider_token (t : Transaction) : bool :=
  match txn_provider t with
  | Some p => negb (Js.truthy_string (access_token p))
  | None => true
  end.

(** [handleToken(input, store, providerConfig)]. *)
Definition handleToken (clk : nat -> Z) (input : TokenInput)
    (providerConfig : option ProviderConfig) (store : MemoryTokenStore)
    : Js.result TokenResponse * MemoryTokenStore :=
  match input with
  | RefreshTokenGrant refreshToken =>
      handleRefreshGrant clk refreshToken providerConfig store
  | AuthorizationCodeGrant code codeVerifier =>
      handleCodeGrant clk code codeVerifier store
  end.
End WithPlatform.

End Flow.

(* ===================================================================== *)
(** * utils/pagination.ts *)
(* ===================================================================== *)

Module Pagination.

Record Page (T : Type) : Type := mkPage {
  data : list T;
  nextCursor : option string
}.
Arguments mkPage {T} _ _.

(** A relative index of [Array.prototype.slice] against length [len]. *)
Definition clampIndex (len i : Z) : Z :=
  if i <? 0 then Z.max (len + i) 0 else Z.min i len.

(** [items.slice(start, stop)]. *)
Definition slice {T : Type} (start stop : Z) (items : list T) : list T :=
  let len := Z.of_nat (length items) in
  let k := clampIndex len start in
  let final := clampIndex len stop in
  firstn (Z.to_nat (final - k)) (skipn (Z.to_nat k) items).

Section WithCodec.
Context `{JsonCodec}.

Definition createCursor (offset : Z) : string :=
  base64_encode (json_stringify (Js.JObj [("offset", Js.JNum offset)])).

(** The body of the [try] in [parseCursor]. *)
Definition parseCursor_try (cursor : string) : Js.result Z :=
  let decoded := base64_decode cursor in
  match json_parse decoded with
  | None => Js.Throw "Unexpected token in JSON"
  | Some parsed =>
      match Js.getProp parsed "offset" with
      | Js.Throw m => Js.Throw m
      | Js.Ok (Some (Js.JNum offset)) => Js.Ok offset
      | Js.Ok _ => Js.Ok 0
      end
  end.

(** [parseCursor(cursor?)]: what is thrown in the body is caught. *)
Definition parseCursor (cursor : option string) : Js.result Z :=
  if negb (Js.truthy_opt cursor) then Js.Ok 0
  else match parseCursor_try (Js.nullish cursor "") with
       | Js.Ok offset => Js.Ok offset
       | Js.Throw _ => Js.Ok 0
       end.

(** The cursor decodes to a JSON object whose [offset] is a number. *)
Definition well_formed_cursor (cursor : string) : Prop :=
  exists fields n,
    json_parse (base64_decode cursor) = Some (Js.JObj fields)
    /\ Js.assoc "offset" fields = Some (Js.JNum n).

(** [paginateArray(items, cursor?, limit = 50)]. *)
Definition paginateArray {T : Type} (items : list T)
    (cursor : option string) (limit : Z) : Js.result (Page T) :=
  match parseCursor cursor with
  | Js.Throw m => Js.Throw m
  | Js.Ok offset =>
      let startIndex := Z.max 0 offset in
      let endIndex := startIndex + limit in
      Js.Ok (mkPage (slice startIndex endIndex items)
                    (if endIndex <? Z.of_nat (length items)
                     then Some (createCursor endIndex) else None))
  end.
End WithCodec.

End Pagination.

(* ===================================================================== *)
(** * mcp/dispatcher.ts and tools/registry.ts *)
(* ===================================================================== *)

Module Dispatcher.

Definition LATEST_PROTOCOL_VERSION : string := "2025-06-18".

Definition SUPPORTED_PROTOCOL_VERSIONS : list string :=
  ["2025-06-18"; "2025-03-26"; "2024-11-05"; "2024-10-07"].

Definition ParseError : Z := -32700.
Definition InvalidRequest : Z := -32600.
Definition MethodNotFound : Z := -32601.
Definition InvalidParams : Z := -32602.
Definition InternalError : Z := -32603.

Record McpServerConfig : Type := mkServerConfig {
  title : string;
  version : string;
  instructions : option string
}.

Record McpSessionState : Type := mkSessionState {
  initialized : bool;
  clientInfo : option Js.json;
  protocolVersion : option string
}.

(** [Record<string, unknown> | undefined]. *)
Definition Params : Type := option (list (string * Js.json)).

(** [params?.name]. *)
Definition param (params : Params) (name : string) : option Js.json :=
  match params with
  | Some fields => Js.assoc name fields
  | None => None
  end.

(** [buildCapabilities()]. *)
Definition buildCapabilities : Js.json :=
  Js.JObj [ ("logging", Js.JObj []);
            ("prompts", Js.JObj [("listChanged", Js.JBool true)]);
            ("resources", Js.JObj [("listChanged", Js.JBool true);
                                   ("subscribe", Js.JBool true)]);
            ("tools", Js.JObj [("listChanged", Js.JBool true)]) ].

Definition serverMetadata_title : string := "Allegro MCP Server".
Definition serverMetadata_instructions : string :=
  "Use the available tools to inspect resources, run API calls, and keep responses concise.".

Record InitializeResult : Type := mkInitializeResult {
  res_protocolVersion : string;
  capabilities : Js.json;
  serverInfo_name : string;
  serverInfo_version : string;
  res_instructions : string
}.

Record ToolResult : Type := mkToolResult {
  content : list string;
  isError : option bool;
  structuredContent : option Js.json
}.

(** [JsonRpcResult]: a [result] or an [error] with code and message. *)
Inductive JsonRpcResult (R : Type) : Type :=
| Result (result : R)
| Error (code : Z) (message : string).
Arguments Result {R} result.
Arguments Error {R} code message.

(** [String(params?.protocolVersion || LATEST_PROTOCOL_VERSION)]. *)
Definition requestedVersion (params : Params) : string :=
  match param params "protocolVersion" with
  | Some v => if Js.truthy v then Js.toString v else LATEST_PROTOCOL_VERSION
  | None => LATEST_PROTOCOL_VERSION
  end.

(** [handleInitialize(params, ctx)]: the response and the state handed to
    [ctx.setSessionState]. *)
Definition handleInitialize (params : Params) (config : McpServerConfig)
    : JsonRpcResult InitializeResult * McpSessionState :=
  let negotiated :=
    if Str.mem (requestedVersion params) SUPPORTED_PROTOCOL_VERSIONS
    then requestedVersion params else LATEST_PROTOCOL_VERSION in
  (Result (mkInitializeResult
             negotiated buildCapabilities
             (if Js.truthy_string (title config)
              then title config else serverMetadata_title)
             (if Js.truthy_string (version config)
              then version config else "1.0.0")
             (Js.or_string (instructions config) serverMetadata_instructions)),
   mkSessionState false (param params "clientInfo") (Some negotiated)).

(** The [protocolVersion] of an initialize response, if it is a result. *)
Definition negotiatedVersion (params : Params) (config : McpServerConfig)
    : option string :=
  match fst (handleInitialize params config) with
  | Result r => Some (res_protocolVersion r)
  | Error _ _ => None
  end.

(** An initialize request that offers version [v]. *)
Definition offering (v : string) : Params :=
  Some [("protocolVersion", Js.JStr v)].

(** ** Asynchronous tool execution

    An [async] computation of one tools/call: it returns, throws, reads
    [signal.aborted] of the call's own controller, or awaits something
    that lets the event loop run other work before it resumes. *)
Inductive Task (A : Type) : Type :=
| Return (a : A)
| Raise (message : string)
| ReadAborted (k : bool -> Task A)
| Suspend (k : Task A).
Arguments Return {A} a.
Arguments Raise {A} message.
Arguments ReadAborted {A} k.
Arguments Suspend {A} k.

Fixpoint bind {A B : Type} (t : Task A) (f : A -> Task B) : Task B :=
  match t with
  | Return a => f a
  | Raise m => Raise m
  | ReadAborted k => ReadAborted (fun b => bind (k b) f)
  | Suspend k => Suspend (bind k f)
  end.

(** [try { t } catch (error) { h(error.message) }]. *)
Fixpoint tryCatch {A : Type} (t : Task A) (h : string -> Task A) : Task A :=
  match t with
  | Return a => Return a
  | Raise m => h m
  | ReadAborted k => ReadAborted (fun b => tryCatch (k b) h)
  | Suspend k => Suspend (tryCatch k h)
  end.

Record RegisteredTool : Type := mkTool {
  name : string;
  (** [inputSchema.safeParse(args)]: the parsed data or the joined
      error text. *)
  inputSchema : Js.json -> Js.json + string;
  outputSchema : bool;
  handler : Js.json -> Task ToolResult
}.

Definition textError (text : string) : ToolResult :=
  mkToolResult [text] (Some true) None.

Definition getSharedTool (sharedTools : list RegisteredTool) (n : string)
    : option RegisteredTool :=
  find (fun t => (name t =? n)%string) sharedTools.

(** [executeSharedTool(name, args, context)]. *)
Definition executeSharedTool (sharedTools : list RegisteredTool)
    (n : string) (args : Js.json) : Task ToolResult :=
  match getSharedTool sharedTools n with
  | None => Return (textError ("Unknown tool: " ++ n))
  | Some tool =>
      tryCatch
        (ReadAborted (fun aborted =>
           if aborted then Return (textError "Operation was cancelled")
           else
             match inputSchema tool args with
             | inr errors => Return (textError ("Invalid input: " ++ errors))
             | inl parsed =>
                 bind (handler tool parsed) (fun result =>
                   if outputSchema tool
                      && negb (Js.nullish (isError result) false)
                      && negb (match structuredContent result with
                               | Some v => Js.truthy v
                               | None => false
                               end)
                   then Return (textError
                     "Tool with outputSchema must return structuredContent (unless isError is true)")
                   else Return result)
             end))
        (fun message =>
           ReadAborted (fun aborted =>
             if aborted then Return (textError "Operation was cancelled")
             else Return (textError ("Tool error: " ++ message))))
  end.

(** ** The cancellation registry

    [Map<string | number, AbortController>].  A controller is an object:
    the registry and the running call hold references to it.  A
    controller's cell is its abort reason, [None] while not aborted. *)
Inductive RequestId : Type :=
| IdString (s : string)
| IdNumber (n : Z).

Definition id_eqb (a b : RequestId) : bool :=
  match a, b with
  | IdString x, IdString y => (x =? y)%string
  | IdNumber x, IdNumber y => x =? y
  | _, _ => false
  end.

Definition ctrl : Type := nat.

Definition CancellationRegistry : Type := list (RequestId * ctrl).

Fixpoint reg_get (k : RequestId) (m : CancellationRegistry) : option ctrl :=
  match m with
  | [] => None
  | (k', c) :: rest => if id_eqb k' k then Some c else reg_get k rest
  end.

Fixpoint reg_set (k : RequestId) (c : ctrl) (m : CancellationRegistry)
    : CancellationRegistry :=
  match m with
  | [] => [(k, c)]
  | (k', c') :: rest =>
      if id_eqb k' k then (k', c) :: rest else (k', c') :: reg_set k c rest
  end.

Definition reg_delete (k : RequestId) (m : CancellationRegistry)
    : CancellationRegistry :=
  filter (fun e => negb (id_eqb (fst e) k)) m.

(** What a dispatch context reaches: the controllers, the registry (absent
    when [ctx.cancellationRegistry] is) and the session state. *)
Record World : Type := mkWorld {
  controllers : list (option string);
  cancellationRegistry : option CancellationRegistry;
  session : option McpSessionState
}.

Definition aborted (w : World) (c : ctrl) : bool :=
  match nth_error (controllers w) c with
  | Some (Some _) => true
  | _ => false
  end.

(** [controller.abort(reason)]: the first reason stays. *)
Definition abort (c : ctrl) (reason : string) (w : World) : World :=
  match nth_error (controllers w) c with
  | Some None =>
      mkWorld (Storage.list_update c (Some reason) (controllers w))
              (cancellationRegistry w) (session w)
  | _ => w
  end.

(** The key a JSON value looks up in the registry, if it can be one. *)
Definition asRequestId (v : Js.json) : option RequestId :=
  match v with
  | Js.JStr s => Some (IdString s)
  | Js.JNum n => Some (IdNumber n)
  | _ => None
  end.

Record Notification : Type := mkNotification {
  method : string;
  params : Params
}.

(** [handleMcpNotification(method, params, ctx)]. *)
Definition handleMcpNotification (n : Notification) (w : World)
    : bool * World :=
  if (method n =? "notifications/initialized")%string then
    (true,
     match session w with
     | Some st =>
         mkWorld (controllers w) (cancellationRegistry w)
                 (Some (mkSessionState true (clientInfo st)
                                       (protocolVersion st)))
     | None => w
     end)
  else if (method n =? "notifications/cancelled")%string then
    (true,
     match param (params n) "requestId", cancellationRegistry w with
     | Some v, Some registry =>
         match asRequestId v with
         | Some rid =>
             match reg_get rid registry with
             | Some controller =>
                 abort controller
                       (match param (params n) "reason" with
                        | Some Js.JNull | None => "Client requested cancellation"
                        | Some r => Js.toString r
                        end) w
             | None => w
             end
         | None => w
         end
     | _, _ => w
     end)
  else (false, w).

(** The notifications the event loop handles during one suspension. *)
Definition deliver (ns : list Notification) (w : World) : World :=
  fold_left (fun acc n => snd (handleMcpNotification n acc)) ns w.

Inductive Outcome (A : Type) : Type :=
| Returned (a : A)
| Thrown (message : string).
Arguments Returned {A} a.
Arguments Thrown {A} message.

(** Running a task of the call that owns controller [c]: [schedule] lists,
    suspension by suspension, the notifications handled meanwhile. *)
Fixpoint run {A : Type} (c : ctrl) (t : Task A)
    (schedule : list (list Notification)) (w : World) : Outcome A * World :=
  match t with
  | Return a => (Returned a, w)
  | Raise m => (Thrown m, w)
  | ReadAborted k => run c (k (aborted w c)) schedule w
  | Suspend k => run c k (tl schedule) (deliver (hd [] schedule) w)
  end.

(** The [try]/[catch] of [handleToolsCall] around the tool execution. *)
Definition settle (out : Outcome ToolResult) (signalAborted : bool)
    : JsonRpcResult ToolResult :=
  match out with
  | Returned result => Result result
  | Thrown message =>
      if signalAborted then Error InternalError "Request was cancelled"
      else Error InternalError ("Tool execution failed: " ++ message)
  end.

(** [String(params?.name || "")] and [params?.arguments || {}]. *)
Definition toolNameOf (ps : Params) : string :=
  match param ps "name" with
  | Some v => if Js.truthy v then Js.toString v else ""
  | None => ""
  end.

Definition toolArgsOf (ps : Params) : Js.json :=
  match param ps "arguments" with
  | Some v => if Js.truthy v then v else Js.JObj []
  | None => Js.JObj []
  end.

(** [handleToolsCall(params, ctx, requestId?)], generic in the
    computation [execute] that [executeSharedTool] stands for. *)
Definition handleToolsCallWith
    (execute : string -> Js.json -> Task ToolResult)
    (ps : Params) (requestId : option RequestId)
    (schedule : list (list Notification)) (w : World)
    : JsonRpcResult ToolResult * World :=
  let toolName := toolNameOf ps in
  let toolArgs := toolArgsOf ps in
  let abortController := length (controllers w) in
  let w1 := mkWorld (controllers w ++ [None])
                    (match requestId, cancellationRegistry w with
                     | Some rid, Some registry =>
                         Some (reg_set rid abortController registry)
                     | _, registry => registry
                     end)
                    (session w) in
  let '(out, w2) := run abortController (execute toolName toolArgs) schedule w1 in
  let response := settle out (aborted w2 abortController) in
  (response,
   mkWorld (controllers w2)
           (match requestId, cancellationRegistry w2 with
            | Some rid, Some registry => Some (reg_delete rid registry)
            | _, registry => registry
            end)
           (session w2)).

Definition handleToolsCall (sharedTools : list RegisteredTool) :=
  handleToolsCallWith (executeSharedTool sharedTools).

(** What a task comes to when its signal is never aborted. *)
Fixpoint quiet {A : Type} (t : Task A) : Outcome A :=
  match t with
  | Return a => Returned a
  | Raise m => Thrown m
  | ReadAborted k => quiet (k false)
  | Suspend k => quiet k
  end.

(** The task awaits at least once on its way with an unaborted signal. *)
Fixpoint awaits {A : Type} (t : Task A) : bool :=
  match t with
  | Return _ | Raise _ => false
  | ReadAborted k => awaits (k false)
  | Suspend _ => true
  end.

(** What a task comes to when every read of its signal finds it aborted. *)
Fixpoint aborting {A : Type} (t : Task A) : Outcome A :=
  match t with
  | Return a => Returned a
  | Raise m => Thrown m
  | ReadAborted k => aborting (k true)
  | Suspend k => aborting k
  end.

(** What a task comes to when its signal is aborted during its first
    await: unaborted up to there, aborted from there on. *)
Fixpoint cancelledAtFirstAwait {A : Type} (t : Task A) : Outcome A :=
  match t with
  | Return a => Returned a
  | Raise m => Thrown m
  | ReadAborted k => cancelledAtFirstAwait (k false)
  | Suspend k => aborting k
  end.

(** The notification is a cancellation aimed at request [rid]. *)
Definition cancels (n : Notification) (rid : RequestId) : bool :=
  (method n =? "notifications/cancelled")%string
  && match param (params n) "requestId" with
     | Some v => match asRequestId v with
                 | Some r => id_eqb r rid
                 | None => false
                 end
     | None => false
     end.

(** The request id of a cancellation has no handle in the registry. *)
Definition unregistered (n : Notification) (w : World) : Prop :=
  forall v r registry,
    param (params n) "requestId" = Some v ->
    asRequestId v = Some r ->
    cancellationRegistry w = Some registry ->
    reg_get r registry = None.

(** Every handle in the registry is a controller that exists. *)
Definition registry_live (w : World) : Prop :=
  forall registry rid c,
    cancellationRegistry w = Some registry ->
    reg_get rid registry = Some c ->
    (c < length (controllers w))%nat.

(** The call that owns controller [c], registered under [owner] at most,
    has not been aborted. *)
Definition undisturbed (c : ctrl) (owner : option RequestId) (w : World)
    : Prop :=
  nth_error (controllers w) c = Some None
  /\ forall registry rid,
       cancellationRegistry w = Some registry ->
       reg_get rid registry = Some c ->
       owner = Some rid.

Definition jsonOfId (rid : RequestId) : Js.json :=
  match rid with
  | IdString s => Js.JStr s
  | IdNumber n => Js.JNum n
  end.

(** [{ method: "notifications/cancelled", params: { requestId } }]. *)
Definition cancelOf (rid : RequestId) : Notification :=
  mkNotification "notifications/cancelled" (Some [("requestId", jsonOfId rid)]).

(** The result passes the output-schema check of [executeSharedTool]. *)
Definition passesOutputCheck (tool : RegisteredTool) (r : ToolResult) : bool :=
  negb (outputSchema tool
        && negb (Js.nullish (isError r) false)
        && negb (match structuredContent r with
                 | Some v => Js.truthy v
                 | None => false
                 end)).

End Dispatcher.

(* ===================================================================== *)
(** * mcp/dispatcher.ts: the method table *)
(* ===================================================================== *)

Module Router.
Import Dispatcher.

Definition validLevels : list string :=
  ["debug"; "info"; "notice"; "warning"; "error"; "critical"; "alert";
   "emergency"].

(** What a dispatch reaches: the context of [Dispatcher.World] and the
    module-level [currentLogLevel], initially ["info"]. *)
Record Server : Type := mkServer {
  world : World;
  currentLogLevel : string
}.

Definition initialLogLevel : string := "info".

(** The [result] member of the answers. *)
Inductive Answer : Type :=
| Initialized (r : InitializeResult)
| ToolsListed (tools : list Js.json)
| ToolCalled (r : ToolResult)
| ResourcesListed
| ResourceTemplatesListed
| PromptsListed
| EmptyResult.

(** [handleToolsList()]; [describe] builds the listing of one tool, its
    schemas rendered by [zodToJsonSchema]. *)
Definition handleToolsList (describe : RegisteredTool -> Js.json)
    (sharedTools : list RegisteredTool) : JsonRpcResult Answer :=
  Result (ToolsListed (map describe sharedTools)).

Definition handleResourcesList : JsonRpcResult Answer := Result ResourcesListed.
Definition handleResourcesTemplatesList : JsonRpcResult Answer :=
  Result ResourceTemplatesListed.
Definition handlePromptsList : JsonRpcResult Answer := Result PromptsListed.
Definition handlePing : JsonRpcResult Answer := Result EmptyResult.

(** [handleLoggingSetLevel(params)]: the answer and the log level after
    the call. *)
Definition handleLoggingSetLevel (params : Params) (current : string)
    : JsonRpcResult Answer * string :=
  let invalid :=
    (Error InvalidParams
           ("Invalid log level. Must be one of: " ++ Str.join ", " validLevels),
     current) in
  match param params "level" with
  | Some (Js.JStr level) =>
      if Js.truthy_string level && Str.mem level validLevels
      then (Result EmptyResult, level)
      else invalid
  | _ => invalid
  end.

Definition getLogLevel (sv : Server) : string := currentLogLevel sv.

(** [dispatchMcpMethod(method, params, ctx, requestId)]; [schedule] lists
    the notifications handled while a tools/call is suspended. *)
Definition dispatchMcpMethod (describe : RegisteredTool -> Js.json)
    (sharedTools : list RegisteredTool) (config : McpServerConfig)
    (method : option string) (params : Params)
    (requestId : option RequestId) (schedule : list (list Notification))
    (sv : Server) : JsonRpcResult Answer * Server :=
  if negb (Js.truthy_opt method)
  then (Error InvalidRequest "Missing method", sv)
  else
    let m := Js.nullish method "" in
    if (m =? "initialize")%string then
      let '(answer, st) := handleInitialize params config in
      (match answer with
       | Result r => Result (Initialized r)
       | Error code message => Error code message
       end,
       mkServer (mkWorld (controllers (world sv))
                         (cancellationRegistry (world sv)) (Some st))
                (currentLogLevel sv))
    else if (m =? "tools/list")%string then
      (handleToolsList describe sharedTools, sv)
    else if (m =? "tools/call")%string then
      let '(answer, w) :=
        handleToolsCall sharedTools params requestId schedule (world sv) in
      (match answer with
       | Result r => Result (ToolCalled r)
       | Error code message => Error code message
       end,
       mkServer w (currentLogLevel sv))
    else if (m =? "resources/list")%string then (handleResourcesList, sv)
    else if (m =? "resources/templates/list")%string
    then (handleResourcesTemplatesList, sv)
    else if (m =? "prompts/list")%string then (handlePromptsList, sv)
    else if (m =? "ping")%string then (handlePing, sv)
    else if (m =? "logging/setLevel")%string then
      let '(answer, level) := handleLoggingSetLevel params (currentLogLevel sv) in
      (answer, mkServer (world sv) level)
    else (Error MethodNotFound ("Method not found: " ++ m), sv).

(** One request as the transport hands it to [dispatchMcpMethod]. *)
Record Request : Type := mkRequest {
  req_method : option string;
  req_params : Params;
  req_id : option RequestId;
  req_schedule : list (list Notification)
}.

(** The requests of a connection served in turn. *)
Definition serve (describe : RegisteredTool -> Js.json)
    (sharedTools : list RegisteredTool) (config : McpServerConfig)
    (requests : list Request) (sv : Server) : Server :=
  fold_left
    (fun acc q =>
       snd (dispatchMcpMethod describe sharedTools config (req_method q)
              (req_params q) (req_id q) (req_schedule q) acc))
    requests sv.

(** A [logging/setLevel] request for [level]. *)
Definition setLevel (level : string) : Request :=
  mkRequest (Some "logging/setLevel") (Some [("level", Js.JStr level)])
            None [].

End Router.

(* ===================================================================== *)
(** * Vocabulary of the further properties *)
(* ===================================================================== *)

Module StoreProps.
Import Storage.

(** Every reference the refresh index holds is a record on the heap. *)
Definition refs_live (s : MemoryTokenStore) : Prop :=
  forall k r, JsMap.get k (rsRefreshMap s) = Some r ->
              (r < length (heap s))%nat.

(** The provider tokens of the record behind a reference. *)
Definition providerOf (s : MemoryTokenStore) (r : ref) : option ProviderTokens :=
  match deref s r with
  | Some o => Some (provider o)
  | None => None
  end.

(** Ascending by [key]. *)
Fixpoint ascending {A : Type} (key : A -> Z) (l : list A) : Prop :=
  match l with
  | [] => True
  | x :: rest => (forall y, In y rest -> key x <= key y) /\ ascending key rest
  end.

End StoreProps.

Module SessionProps.
Import SessionStore.

(** Every operation of the store but the plain write [put]. *)
Definition not_put (op : Op) : Prop :=
  match op with
  | Put _ _ _ _ => False
  | _ => True
  end.

(** The operation is not one of the three that write [expiresAt] of
    session [sid]: [create], [ensure] and [put] under that id. *)
Definition leaves_expiry (sid : string) (op : Op) : Prop :=
  match op with
  | Create _ _ _ sid' _ _ => sid' <> sid
  | Ensure _ _ sid' _ => sid' <> sid
  | Put _ sid' _ _ => sid' <> sid
  | _ => True
  end.

(** Most recently accessed first. *)
Fixpoint recent_first (l : list InternalSession) : Prop :=
  match l with
  | [] => True
  | x :: rest =>
      (forall y, In y rest -> last_accessed y <= last_accessed x)
      /\ recent_first rest
  end.

End SessionProps.

(* ===================================================================== *)
(** * A sample platform for the worked examples

    A small URL reader (scheme, host, path), a deterministic provider and
    fixed random draws.  The theorems below hold for every platform; the
    examples run on this one. *)
(* ===================================================================== *)

Module Sample.

Record SampleUrl : Type := mkUrl {
  protocol : string;
  host : string;
  pathname : string;
  search : list (string * string)
}.

Definition after (n : nat) (s : string) : string :=
  substring n (String.length s - n) s.

Definition parse (s : string) : option SampleUrl :=
  match index 0 "://" s with
  | None => None
  | Some i =>
      let scheme := substring 0 i s in
      let rest := after (i + 3) s in
      let '(h, p) := match index 0 "/" rest with
                     | Some j => (substring 0 j rest, after j rest)
                     | None => (rest, "/")
                     end in
      if ((scheme =? "") || (h =? ""))%string then None
      else Some (mkUrl (scheme ++ ":") h p [])
  end.

Definition hostname (u : SampleUrl) : string :=
  match index 0 ":" (host u) with
  | Some j => substring 0 j (host u)
  | None => host u
  end.

Definition resolve (rel base : string) : option SampleUrl :=
  if Str.startsWith "/" rel then
    match parse base with
    | Some b => Some (mkUrl (protocol b) (host b) rel [])
    | None => None
    end
  else parse rel.

Fixpoint query (l : list (string * string)) : string :=
  match l with
  | [] => ""
  | [(k, v)] => k ++ "=" ++ v
  | (k, v) :: rest => k ++ "=" ++ v ++ "&" ++ query rest
  end.

Definition serialize (u : SampleUrl) : string :=
  protocol u ++ "//" ++ host u ++ pathname u
    ++ match search u with [] => "" | l => "?" ++ query l end.

#[export] Instance url : UrlApi := {
  URL := SampleUrl;
  url_parse := parse;
  url_resolve := resolve;
  url_protocol := protocol;
  url_hostname := hostname;
  url_host := host;
  url_pathname := pathname;
  url_origin := fun u => protocol u ++ "//" ++ host u;
  url_set_param := fun k v u =>
    mkUrl (protocol u) (host u) (pathname u) (JsMap.set k v (search u));
  url_toString := serialize;
  query_entries := fun _ => []
}.

(** A provider that answers every refresh with a rotated refresh token. *)
#[export] Instance oauth : OAuthLib := {
  clientSecretBasic := fun secret =>
    if (secret =? "")%string then Js.Throw "clientSecret must be a non-empty string"
    else Js.Ok tt;
  refreshTokenGrant := fun _ _ _ refreshToken =>
    GrantOk (mkTokenEndpointResponse "provider-access-2"
               (Some (refreshToken ++ "-next")) (Some 3600) (Some "read write"));
  authorizationCodeGrant := fun _ _ _ _ _ =>
    GrantOk (mkTokenEndpointResponse "provider-access-1"
               (Some "provider-refresh-1") (Some 3600) (Some "read write"));
  calculatePKCECodeChallenge := fun verifier => "S256-" ++ verifier;
  grantArgumentsError := fun _ _ =>
    "callbackParameters must be obtained from validateAuthResponse()"
}.

#[export] Instance entropy : Entropy := {
  opaqueToken := fun draw bytes =>
    "opaque-" ++ Js.string_of_Z (Z.of_nat draw) ++ "-"
              ++ Js.string_of_Z (Z.of_nat bytes);
  randomUUID := fun draw => "uuid-" ++ Js.string_of_Z (Z.of_nat draw)
}.

#[export] Instance stateCodec : StateCodec := {
  base64UrlEncodeJson := fun c => "state-" ++ Js.or_string (tid c) "";
  base64UrlDecodeJson := fun s =>
    if Str.startsWith "state-" s
    then Some (mkCompositeState (Some (after 6 s)) (Some "client-state")
                                (Some "https://evil.example/cb") None)
    else None
}.

(** A [JSON.parse] that knows one document. *)
#[export] Instance jsonCodec : JsonCodec := {
  json_parse := fun s =>
    if (s =? "offset=50")%string
    then Some (Js.JObj [("offset", Js.JNum 50)]) else None;
  json_stringify := fun _ => "offset=50";
  base64_encode := fun s => "b64:" ++ s;
  base64_decode := fun s => if Str.startsWith "b64:" s then after 4 s else ""
}.

#[export] Instance network : Cimd.Network := {
  Cimd.fetch := fun _ _ => Cimd.Failed "unreachable";
  Cimd.parseInt10 := fun _ => None;
  Cimd.schema_safeParse := fun _ => inr "Required"
}.

Definition clock (t : Z) : nat -> Z := fun _ => t.

End Sample.

(** The stores and requests of the worked examples. *)
Module Scenario.
Import Sample.

Definition localhost_client : Flow.AuthorizeInput :=
Flow.mkAuthorizeInput (Some "https://localhost/cimd.json") "challenge" "S256"
                      "https://app.example/cb" None (Some "xyz") None.

Definition dev_provider : Flow.ProviderConfig :=
Flow.mkProviderConfig None None "https://provider.example.com" None None
                      None None.

Definition strict_oauth : Flow.OAuthConfig :=
Flow.mkOAuthConfig "https://server.example/callback" [] false.

Definition flow_options : Flow.FlowOptions :=
Flow.mkFlowOptions "https://server.example" false None None.

Definition evil_redirect : Flow.AuthorizeInput :=
Flow.mkAuthorizeInput (Some "client-1") "challenge" "S256"
                      "https://evil.example/cb" None (Some "xyz") None.

Definition live_provider : Flow.ProviderConfig :=
Flow.mkProviderConfig (Some "cid") (Some "secret")
                      "https://provider.example.com" None None None None.

Definition pending_txn : Storage.Transaction :=
Storage.mkTransaction "S256-verifier" (Some "xyz") (Some "read") 0 None None.

Definition store_with_txn : Storage.MemoryTokenStore :=
Storage.saveTransaction 0 "txn1" pending_txn None Storage.emptyTokenStore.

Definition store_with_code : Storage.MemoryTokenStore :=
Storage.saveCode 0 "code1" "txn1" None store_with_txn.

Definition exchange (verifier : string) :=
Flow.handleToken (clock 1) (Flow.AuthorizationCodeGrant "code1" verifier)
                 None store_with_code.



Definition creates (sids : list string) (t : Z) : list SessionStore.Op :=
  map (fun sid => SessionStore.Create t t t sid "k"
                    SessionStore.DEFAULT_SESSION_TTL_MS) sids.

Definition busy_day : list SessionStore.Op :=
  (creates ["s1"; "s2"; "s3"] 1
   ++ [SessionStore.Get 2 "s1"]
   ++ creates ["s4"; "s5"; "s6"; "s7"] 3
   ++ [SessionStore.Update 4 "s7"
         (SessionStore.mkPatch None None None None None (Some true) None);
       SessionStore.Delete "s4"; SessionStore.Cleanup 5])%list.


Definition ok_result : Dispatcher.ToolResult :=
  Dispatcher.mkToolResult ["done"] None (Some (Js.JObj [("status", Js.JStr "ok")])).

(** A tool that waits and never looks at its signal. *)
Definition slow_tool : Dispatcher.RegisteredTool :=
  Dispatcher.mkTool "slow" (fun args => inl args) false
    (fun _ => Dispatcher.Suspend (Dispatcher.Return ok_result)).

(** A tool that waits, then throws if its signal is aborted. *)
Definition polite_tool : Dispatcher.RegisteredTool :=
  Dispatcher.mkTool "polite" (fun args => inl args) false
    (fun _ => Dispatcher.Suspend
                (Dispatcher.ReadAborted
                   (fun aborted => if aborted
                                   then Dispatcher.Raise "The operation was aborted"
                                   else Dispatcher.Return ok_result))).

Definition tools : list Dispatcher.RegisteredTool := [slow_tool; polite_tool].

Definition call (name : string) : Dispatcher.Params :=
  Some [("name", Js.JStr name)].

Definition request7 : Dispatcher.RequestId := Dispatcher.IdNumber 7.

Definition fresh_world : Dispatcher.World :=
  Dispatcher.mkWorld [] (Some []) None.

Definition installed_world : Dispatcher.World :=
  Dispatcher.mkWorld [None] (Some [(request7, 0%nat)]) None.

(** *** A mapping whose provider token is about to expire *)

Definition expiring_provider : Storage.ProviderTokens :=
  Storage.mkProviderTokens "provider-access-1" (Some "provider-refresh-1")
                           (Some 3600000) (Some ["read"]).

Definition rs_store : Storage.MemoryTokenStore :=
  snd (Storage.storeRsMapping 0 "unused" "rs-access-1" expiring_provider
         (Some "rs-refresh-1") Storage.DEFAULT_RS_TOKEN_TTL_MS
         Storage.emptyTokenStore).

Definition refresh_config : Refresh.ProviderRefreshConfig :=
  Refresh.mkProviderRefreshConfig "cid" "secret"
                                  "https://provider.example.com" None.

(** *** A token store filled to its cap *)

Definition numbered (prefix : string) (i : N) : string :=
  prefix ++ NilEmpty.string_of_uint (N.to_uint i).

Definition some_provider : Storage.ProviderTokens :=
  Storage.mkProviderTokens "provider-access" (Some "provider-refresh") None None.

Definition nth_record (i : N) : Storage.RsRecord :=
  Storage.mkRsRecord (numbered "a" i) (numbered "r" i) some_provider
                     (Z.of_N i) (Z.of_N i + Storage.DEFAULT_RS_TOKEN_TTL_MS).

(** [n] calls of [storeRsMapping], the [i]-th at time [i] with the fresh
    tokens [a<i>] and [r<i>]. *)
Fixpoint filled (n : nat) : Storage.MemoryTokenStore :=
  match n with
  | O => Storage.emptyTokenStore
  | S i =>
      snd (Storage.storeRsMapping (Z.of_N (N.of_nat i)) "unused"
             (numbered "a" (N.of_nat i)) some_provider
             (Some (numbered "r" (N.of_nat i)))
             Storage.DEFAULT_RS_TOKEN_TTL_MS (filled i))
  end.

(** The count [start], [start + 1], ... of [n] numbers, each with its
    position from [pos]. *)
Fixpoint counted (pos : nat) (start : N) (n : nat) : list (nat * N) :=
  match n with
  | O => []
  | S k => (pos, start) :: counted (S pos) (N.succ start) k
  end.

(** The same store written out. *)
Definition filled_direct (n : nat) : Storage.MemoryTokenStore :=
  Storage.mkTokenStore
    (map (fun e => nth_record (snd e)) (counted 0 0 n))
    (map (fun e => (numbered "a" (snd e), fst e)) (counted 0 0 n))
    (map (fun e => (numbered "r" (snd e), fst e)) (counted 0 0 n))
    JsMap.empty JsMap.empty.

Definition cap : nat := Z.to_nat Storage.MAX_RS_RECORDS.

(** One more mapping stored when the cap is reached. *)
Definition overflowed : Storage.MemoryTokenStore :=
  snd (Storage.storeRsMapping Storage.MAX_RS_RECORDS "unused"
         "a-last" some_provider (Some "r-last")
         Storage.DEFAULT_RS_TOKEN_TTL_MS (filled cap)).

(** *** A session that is read and updated *)

Definition three_sessions : SessionStore.MemorySessionStore :=
  SessionStore.run (creates ["s1"; "s2"; "s3"] 1) JsMap.empty.

Definition use_s1 : list SessionStore.Op :=
  [SessionStore.Get 2 "s1";
   SessionStore.Update 4 "s1"
     (SessionStore.mkPatch None None None None None (Some true) None);
   SessionStore.Cleanup 5].

(** *** A refresh and what it leaves behind *)

(** A provider configuration whose accounts URL has no scheme. *)
Definition broken_config : Refresh.ProviderRefreshConfig :=
  Refresh.mkProviderRefreshConfig "cid" "secret" "provider.example.com" None.

Definition rotated_provider : Storage.ProviderTokens :=
  Storage.mkProviderTokens "provider-access-2" (Some "provider-refresh-1-next")
                           (Some (3590000 + 3600 * 1000))
                           (Some ["read"; "write"]).

Definition rotated_store : Storage.MemoryTokenStore :=
  snd (Storage.updateByRsRefresh 3590000 "rs-refresh-1" rotated_provider None
         Storage.DEFAULT_RS_TOKEN_TTL_MS rs_store).

(** *** The token endpoint *)

Definition regrant :=
  Flow.handleToken (clock 3590000) (Flow.RefreshTokenGrant "rs-refresh-1")
                   (Some live_provider) rs_store.

Definition regranted : Flow.TokenResponse :=
  Flow.mkTokenResponse "opaque-0-24" "rs-refresh-1" "bearer" 3600 "read write".

Definition exchanged : Flow.TokenResponse :=
  Flow.mkTokenResponse "opaque-0-24" "opaque-1-24" "bearer" 3600 "read".

(** *** A later exchange, with random draws of its own *)

Definition later_draws : Entropy := {|
  opaqueToken := fun draw bytes =>
    "later-" ++ Js.string_of_Z (Z.of_nat draw) ++ "-"
             ++ Js.string_of_Z (Z.of_nat bytes);
  randomUUID := fun draw => "later-uuid-" ++ Js.string_of_Z (Z.of_nat draw)
|}.

(** *** A transaction that carries provider tokens *)

Definition obtained_tokens : Storage.ProviderTokens :=
  Storage.mkProviderTokens "provider-access-1" (Some "provider-refresh-1")
                           (Some (1 + 3600 * 1000)) (Some ["read"; "write"]).

Definition granted_txn : Storage.Transaction :=
  Storage.mkTransaction "S256-verifier" (Some "xyz") (Some "read") 0 None
                        (Some obtained_tokens).

Definition store_with_grant : Storage.MemoryTokenStore :=
  Storage.saveCode 0 "code1" "txn1" None
    (Storage.saveTransaction 0 "txn1" granted_txn None
                             Storage.emptyTokenStore).

(** *** A client that publishes its metadata *)

Definition client_url : string := "https://app.example/client.json".

Definition client_document : Cimd.ClientMetadata :=
  Cimd.mkClientMetadata client_url (Some "App") ["https://app.example/cb"].

(** A [JSON.parse] that knows the client's document. *)
Definition document_codec : JsonCodec := {|
  json_parse := fun s =>
    if (s =? "client-document")%string
    then Some (Js.JObj [("client_id", Js.JStr client_url)]) else None;
  json_stringify := fun _ => "client-document";
  base64_encode := fun s => s;
  base64_decode := fun s => s
|}.

(** A network on which the client's URL answers with its document. *)
Definition serving : Cimd.Network := {|
  Cimd.fetch := fun url _ =>
    if (url =? client_url)%string
    then Cimd.Responded
           (Cimd.mkResponse true 200 (Some "15")
              (Some "application/json; charset=utf-8")
              (Cimd.BodyText "client-document"))
    else Cimd.Failed "unreachable";
  Cimd.parseInt10 := fun s => if (s =? "15")%string then Some 15 else None;
  Cimd.schema_safeParse := fun data =>
    match data with
    | Js.JObj [("client_id", Js.JStr u)] =>
        inl (Cimd.mkClientMetadata u (Some "App") ["https://app.example/cb"])
    | _ => inr "Required"
    end
|}.

Definition registered_client : Flow.AuthorizeInput :=
  Flow.mkAuthorizeInput (Some client_url) "S256-verifier" "S256"
                        "https://app.example/cb" (Some "read") (Some "xyz")
                        None.

Definition authorized :=
  @Flow.handleAuthorize url entropy stateCodec document_codec serving
    (clock 1) registered_client dev_provider strict_oauth flow_options
    Storage.emptyTokenStore.

Definition authorize_result : Flow.AuthorizeResult :=
  Flow.mkAuthorizeResult
    "https://server.example/callback?code=opaque-1-16&state=xyz" "opaque-0-16".

(** *** A list read page by page *)

Definition catalogue : list nat := seq 0 120.

Definition first_page : Pagination.Page nat :=
  Pagination.mkPage (seq 0 50) (Some (Pagination.createCursor 50)).

(** *** A call cancelled while another is registered *)

Definition other_call_world : Dispatcher.World :=
  Dispatcher.mkWorld [None] (Some [(Dispatcher.IdNumber 8, 0%nat)]) None.

Definition cancelled_call :=
  Dispatcher.handleToolsCall tools (call "polite") (Some request7)
    [[Dispatcher.cancelOf request7]] other_call_world.

(** *** A provider that does not rotate refresh tokens *)

Definition steady_response : TokenEndpointResponse :=
  mkTokenEndpointResponse "provider-access-2" None (Some 3600) (Some "read").

Definition steady : OAuthLib := {|
  clientSecretBasic := fun secret =>
    if (secret =? "")%string
    then Js.Throw "clientSecret must be a non-empty string"
    else Js.Ok tt;
  refreshTokenGrant := fun _ _ _ _ => GrantOk steady_response;
  authorizationCodeGrant := fun _ _ _ _ _ => GrantOk steady_response;
  calculatePKCECodeChallenge := fun verifier => "S256-" ++ verifier;
  grantArgumentsError := fun _ _ =>
    "callbackParameters must be obtained from validateAuthResponse()"
|}.

Definition rs_record : Storage.RsRecord :=
  Storage.mkRsRecord "rs-access-1" "rs-refresh-1" expiring_provider 0
                     (0 + Storage.DEFAULT_RS_TOKEN_TTL_MS).

(** *** A connection *)

Definition booted : Router.Server :=
  Router.mkServer fresh_world Router.initialLogLevel.

Definition listing (tool : Dispatcher.RegisteredTool) : Js.json :=
  Js.JObj [("name", Js.JStr (Dispatcher.name tool))].

Definition plain_config : Dispatcher.McpServerConfig :=
  Dispatcher.mkServerConfig "" "" None.

Definition chatter : list Router.Request :=
  [Router.setLevel "debug";
   Router.setLevel "loud";
   Router.mkRequest (Some "resources/read") None None [];
   Router.mkRequest (Some "ping") None None []].

End Scenario.

(* ===================================================================== *)
(** * Properties *)
(* ===================================================================== *)

Unset Implicit Arguments.

(** ** Insertion-ordered maps *)

Section JsMapFacts.
Context {V : Type}.
Implicit Types (m : JsMap.t V) (k : string) (v : V).

Lemma get_delete_same m k : JsMap.get k (JsMap.delete k m) = None.
Proof.
  induction m as [|[k' v'] m IH]; simpl; [reflexivity|].
  unfold JsMap.delete in *; simpl.
  destruct (k' =? k)%string eqn:E; simpl; [exact IH|].
  unfold JsMap.get in *; simpl. rewrite E. exact IH.
Qed.

Lemma get_delete_other m k k' :
  k <> k' -> JsMap.get k' (JsMap.delete k m) = JsMap.get k' m.
Proof.
  intros Hne. induction m as [|[k0 v0] m IH]; simpl; [reflexivity|].
  unfold JsMap.delete, JsMap.get in *; simpl.
  destruct (k0 =? k)%string eqn:E; simpl.
  - apply String.eqb_eq in E; subst k0.
    destruct (k =? k')%string eqn:E'; [apply String.eqb_eq in E'; contradiction|].
    exact IH.
  - destruct (k0 =? k')%string; [reflexivity|exact IH].
Qed.

Lemma get_set_same m k v : JsMap.get k (JsMap.set k v m) = Some v.
Proof.
  induction m as [|[k' v'] m IH]; unfold JsMap.get in *; simpl.
  - rewrite String.eqb_refl. reflexivity.
  - destruct (k' =? k)%string eqn:E; simpl; rewrite E; [reflexivity|exact IH].
Qed.

Lemma get_set_other m k k' v :
  k <> k' -> JsMap.get k' (JsMap.set k v m) = JsMap.get k' m.
Proof.
  intros Hne. induction m as [|[k0 v0] m IH]; unfold JsMap.get in *; simpl.
  - destruct (k =? k')%string eqn:E; [apply String.eqb_eq in E; contradiction|].
    reflexivity.
  - destruct (k0 =? k)%string eqn:E; simpl.
    + apply String.eqb_eq in E; subst k0.
      destruct (k =? k')%string eqn:E'; [apply String.eqb_eq in E'; contradiction|].
      reflexivity.
    + destruct (k0 =? k')%string; [reflexivity|exact IH].
Qed.
End JsMapFacts.

(** ** Pagination cursors *)

Section PaginationFacts.
Context `{JsonCodec}.
Import Pagination.

Lemma parseCursor_try_malformed cursor :
  ~ well_formed_cursor cursor ->
  parseCursor_try cursor = Js.Ok 0
  \/ exists m, parseCursor_try cursor = Js.Throw m.
Proof.
  intros Hbad. unfold parseCursor_try.
  destruct (json_parse (base64_decode cursor)) as [parsed|] eqn:Hp;
    [|right; eexists; reflexivity].
  destruct parsed; simpl;
    try solve [left; reflexivity | right; eexists; reflexivity].
  destruct (Js.assoc "offset" fields) as [[| b | n | s | l | f]|] eqn:Ho;
    try solve [left; reflexivity].
  exfalso. apply Hbad. exists fields, n. split; [exact Hp|exact Ho].
Qed.

Lemma parseCursor_total cursor : exists n, parseCursor cursor = Js.Ok n.
Proof.
  unfold parseCursor.
  destruct (negb (Js.truthy_opt cursor)); [eauto|].
  destruct (parseCursor_try (Js.nullish cursor "")); eauto.
Qed.

Lemma parseCursor_malformed cursor :
  (forall c, cursor = Some c -> ~ well_formed_cursor c) ->
  parseCursor cursor = Js.Ok 0.
Proof.
  intros Hbad. unfold parseCursor.
  destruct cursor as [c|]; simpl; [|reflexivity].
  destruct (negb (Js.truthy_string c)); [reflexivity|].
  destruct (parseCursor_try_malformed c (Hbad c eq_refl)) as [-> | [m ->]];
    reflexivity.
Qed.

Lemma slice_first_page {T : Type} (items : list T) (limit : Z) :
  0 <= limit -> slice 0 limit items = firstn (Z.to_nat limit) items.
Proof.
  intros Hl. unfold slice, clampIndex.
  replace (0 <? 0) with false by reflexivity.
  destruct (limit <? 0) eqn:E; [apply Z.ltb_lt in E; lia|].
  rewrite (Z.min_l 0) by lia. simpl skipn. rewrite Z.sub_0_r.
  destruct (Z.min_spec limit (Z.of_nat (length items))) as [[Hlt ->]|[Hge ->]].
  - reflexivity.
  - rewrite Nat2Z.id. rewrite firstn_all.
    symmetry. apply firstn_all2. lia.
Qed.

(** C10.  [parseCursor] returns an offset for every cursor, present or
    not, and never throws; a cursor that does not decode to JSON with a
    numeric [offset] gives offset 0; and [paginateArray] with an absent
    or such a malformed cursor returns the first page: the first [limit]
    items, with a next cursor exactly when more items remain. *)
Theorem parseCursor_total_malformed_first_page :
  (forall cursor, exists n, parseCursor cursor = Js.Ok n)
  /\ (forall c, ~ well_formed_cursor c -> parseCursor (Some c) = Js.Ok 0)
  /\ parseCursor None = Js.Ok 0
  /\ (forall (T : Type) (items : list T) cursor limit,
        (forall c, cursor = Some c -> ~ well_formed_cursor c) ->
        0 <= limit ->
        paginateArray items cursor limit
        = Js.Ok (mkPage (firstn (Z.to_nat limit) items)
                        (if limit <? Z.of_nat (length items)
                         then Some (createCursor limit) else None))).
Proof.
  split; [exact parseCursor_total|].
  split.
  { intros c Hbad. apply parseCursor_malformed.
    intros c' [= <-]. exact Hbad. }
  split; [reflexivity|].
  intros T items cursor limit Hbad Hl.
  unfold paginateArray. rewrite (parseCursor_malformed cursor Hbad).
  cbn [Z.max]. replace (Z.max 0 0) with 0 by reflexivity.
  rewrite Z.add_0_l. rewrite slice_first_page by exact Hl. reflexivity.
Qed.
End PaginationFacts.


(** ** Protocol version negotiation *)

Lemma mem_In x l : Str.mem x l = true <-> In x l.
Proof.
  unfold Str.mem. rewrite existsb_exists. split.
  - intros (y & Hy & E). apply String.eqb_eq in E. subst. exact Hy.
  - intros Hx. exists x. split; [exact Hx|apply String.eqb_refl].
Qed.

Lemma mem_not_In x l : Str.mem x l = false <-> ~ In x l.
Proof.
  rewrite <- mem_In. destruct (Str.mem x l); split; intros; congruence.
Qed.

Section InitializeFacts.
Import Dispatcher.

Lemma negotiated_supported params config :
  In (requestedVersion params) SUPPORTED_PROTOCOL_VERSIONS ->
  negotiatedVersion params config = Some (requestedVersion params).
Proof.
  intros Hin. apply mem_In in Hin.
  unfold negotiatedVersion, handleInitialize. cbv zeta. cbn [fst].
  rewrite Hin. reflexivity.
Qed.

Lemma negotiated_unsupported params config :
  ~ In (requestedVersion params) SUPPORTED_PROTOCOL_VERSIONS ->
  negotiatedVersion params config = Some LATEST_PROTOCOL_VERSION.
Proof.
  intros Hin. apply mem_not_In in Hin.
  unfold negotiatedVersion, handleInitialize. cbv zeta. cbn [fst].
  rewrite Hin. reflexivity.
Qed.

Lemma supported_nonempty v :
  In v SUPPORTED_PROTOCOL_VERSIONS -> Js.truthy_string v = true.
Proof.
  simpl. intros [<-|[<-|[<-|[<-|[]]]]]; reflexivity.
Qed.

(** C4 (amended).  The versions accepted at initialize are exactly
    2025-06-18, 2025-03-26, 2024-11-05 and 2024-10-07.  A request that
    offers one of them gets it echoed; a request that offers any other
    version, 2025-11-25 included, or whose [protocolVersion] stringifies
    to anything else, gets 2025-06-18; and every initialize request gets a
    result, never an error. *)
Theorem initialize_negotiates_among_four_versions :
  (forall v, In v SUPPORTED_PROTOCOL_VERSIONS <->
             v = "2025-06-18" \/ v = "2025-03-26"
             \/ v = "2024-11-05" \/ v = "2024-10-07")
  /\ (forall v config, In v SUPPORTED_PROTOCOL_VERSIONS ->
        negotiatedVersion (offering v) config = Some v)
  /\ (forall v config, ~ In v SUPPORTED_PROTOCOL_VERSIONS ->
        negotiatedVersion (offering v) config = Some "2025-06-18")
  /\ negotiatedVersion (offering "2025-11-25")
                       (mkServerConfig "" "" None) = Some "2025-06-18"
  /\ (forall params config,
        ~ In (requestedVersion params) SUPPORTED_PROTOCOL_VERSIONS ->
        negotiatedVersion params config = Some "2025-06-18")
  /\ (forall params config, exists r st,
        handleInitialize params config = (Result r, st)).
Proof.
  split.
  { intros v. simpl. intuition congruence. }
  split.
  { intros v config Hin.
    assert (Hreq : requestedVersion (offering v) = v).
    { unfold requestedVersion, offering. simpl.
      rewrite (supported_nonempty v Hin). reflexivity. }
    rewrite <- Hreq in Hin.
    rewrite (negotiated_supported _ config Hin). rewrite Hreq. reflexivity. }
  split.
  { intros v config Hout.
    destruct (Js.truthy_string v) eqn:Hv.
    - apply negotiated_unsupported.
      unfold requestedVersion, offering. simpl. rewrite Hv. exact Hout.
    - assert (Hreq : requestedVersion (offering v) = LATEST_PROTOCOL_VERSION).
      { unfold requestedVersion, offering. simpl. rewrite Hv. reflexivity. }
      rewrite negotiated_supported; rewrite Hreq; [reflexivity|].
      simpl. auto. }
  split; [reflexivity|].
  split; [exact negotiated_unsupported|].
  intros params config. unfold handleInitialize. eauto.
Qed.
End InitializeFacts.

(** ** SSRF guard of the CIMD fetch *)

Section SsrfFacts.
Context `{UrlApi} `{OAuthLib} `{Entropy} `{StateCodec} `{JsonCodec}
        `{Cimd.Network}.
Import Flow.

Lemma fetchClientMetadata_blocked url reason config :
  Ssrf.checkSsrfSafe url (Some true) = Ssrf.Unsafe reason ->
  Cimd.fetchClientMetadata url config
  = (Cimd.Failure ("ssrf_blocked: " ++ reason), []).
Proof.
  intros Hu. unfold Cimd.fetchClientMetadata, Ssrf.assertSsrfSafe.
  rewrite Hu. reflexivity.
Qed.

Lemma clientIdUrl_truthy url :
  Cimd.isClientIdUrl url = true -> Js.truthy_string url = true.
Proof.
  unfold Cimd.isClientIdUrl. destruct url; [discriminate|reflexivity].
Qed.

(** Every reason [checkSsrfSafe] gives. *)
Lemma checkSsrfSafe_reasons url opt reason :
  Ssrf.checkSsrfSafe url opt = Ssrf.Unsafe reason ->
  In reason ["invalid_url"; "https_required"; "blocked_host"; "private_ip";
             "internal_domain"; "root_path_not_allowed"].
Proof.
  unfold Ssrf.checkSsrfSafe.
  repeat match goal with
         | |- context [match ?x with _ => _ end] => destruct x
         end; intros [= <-]; simpl; auto 10.
Qed.

(** C8.  A client-id URL that [checkSsrfSafe] rejects is never fetched:
    [fetchClientMetadata] fails with [ssrf_blocked: <reason>] and an empty
    network log, and an authorize request that submits such a URL as its
    CIMD client id fails with [invalid_client: ssrf_blocked: <reason>],
    no fetch made and nothing stored. *)
Theorem ssrf_rejected_client_id_is_not_fetched :
  (forall url reason config,
      Ssrf.checkSsrfSafe url (Some true) = Ssrf.Unsafe reason ->
      Cimd.fetchClientMetadata url config
      = (Cimd.Failure ("ssrf_blocked: " ++ reason), []))
  /\ (forall clk input providerConfig oauthConfig options store url reason,
        in_clientId input = Some url ->
        Cimd.isClientIdUrl url = true ->
        Js.truthy_string (in_redirectUri input) = true ->
        Js.truthy_string (in_codeChallenge input) = true ->
        in_codeChallengeMethod input = "S256" ->
        Js.nullish (match cimd options with
                    | Some c => enabled c | None => None end) true = true ->
        Ssrf.checkSsrfSafe url (Some true) = Ssrf.Unsafe reason ->
        handleAuthorize clk input providerConfig oauthConfig options store
        = (Js.Throw ("invalid_client: ssrf_blocked: " ++ reason), store, [])).
Proof.
  split; [exact fetchClientMetadata_blocked|].
  intros clk input pc oc options store url reason Hid Hurl Hr Hc Hm Hen Hu.
  unfold handleAuthorize. rewrite Hr, Hc, Hm.
  change ("S256" =? "S256")%string with true. cbn [negb orb].
  unfold checkCimdClient. rewrite Hid, Hurl, (clientIdUrl_truthy _ Hurl), Hen.
  cbn [andb negb]. rewrite (fetchClientMetadata_blocked url reason _ Hu). reflexivity.
Qed.
End SsrfFacts.

(** ** Redirect fallback *)

Section RedirectFacts.
Context `{UrlApi} `{OAuthLib} `{Entropy} `{StateCodec} `{JsonCodec}
        `{Cimd.Network}.
Import Storage Flow.

Lemma saveCode_saved now code txn ttl s :
  exists entry,
    JsMap.get code (codes (saveCode now code txn ttl s)) = Some entry
    /\ value entry = txn.
Proof.
  unfold saveCode. cbn [codes with_codes].
  eexists. split; [apply get_set_same|reflexivity].
Qed.

(** The provider callback hands the library callback parameters it built
    itself, and the library refuses them. *)
Lemma callback_grant_refused tokenEndpoint cid secret code redirect :
  authorizationCodeGrantRequest tokenEndpoint cid secret
    (searchParams_set "code" code newSearchParams) redirect
  = GrantFailure (grantArgumentsError cid redirect).
Proof. reflexivity. Qed.

(** Every run of the provider callback ends in a throw, with the store as
    the lookup of the transaction left it. *)
Lemma handleProviderCallback_throws clk input providerConfig oauthConfig
      options store :
  exists message,
    handleProviderCallback clk input providerConfig oauthConfig options store
    = (Js.Throw message,
       snd (getTransaction (clk 0%nat)
              (Js.or_string (tid (decodeState (compositeState input)))
                            (compositeState input)) store)).
Proof.
  unfold handleProviderCallback.
  destruct (getTransaction (clk 0%nat) _ store) as [[t|] s1]; cbn [snd];
    [|eexists; reflexivity].
  destruct (url_resolve _ (baseUrl options)) as [cbUrl|];
    [|eexists; reflexivity].
  destruct (buildAuthorizationServer providerConfig)
    as [[authEndpoint tokenEndpoint]|]; [|eexists; reflexivity].
  destruct (clientSecretBasic _); [|eexists; reflexivity].
  rewrite callback_grant_refused. eexists; reflexivity.
Qed.

(** C9, and where the code departs from it.  The dev shortcut of
    [handleAuthorize] does what the claim says: when the client's redirect
    URI is not allowed it
    redirects to the configured [oauthConfig.redirectUri] (a well-formed
    URL) with the code just minted and saved, and the client's state when
    there is one, set on it.  [handleProviderCallback] does not: it never
    returns a redirect.  It passes [authorizationCodeGrantRequest]
    callback parameters made with [new URLSearchParams()], which the
    library refuses before any request, so for a live transaction, a
    callback URL and endpoints that build and a client secret the library
    takes, the callback throws [fetch_failed:] with the library's
    message, whatever the client's redirect URI is, and leaves the store
    as it was: the fallback of its last lines is never reached. *)
Theorem provider_callback_never_reaches_its_redirect_fallback :
  (forall clk input providerConfig oauthConfig options store fallback,
      Js.truthy_string (in_redirectUri input) = true ->
      Js.truthy_string (in_codeChallenge input) = true ->
      in_codeChallengeMethod input = "S256" ->
      fst (checkCimdClient input options) = Js.Ok tt ->
      providerClient providerConfig = None ->
      isAllowedRedirect (in_redirectUri input) oauthConfig (isDev options)
      = false ->
      url_parse (redirectUri oauthConfig) = Some fallback ->
      exists store' log entry,
        handleAuthorize clk input providerConfig oauthConfig options store
        = (Js.Ok (mkAuthorizeResult
                    (url_toString
                       (attachState (in_state input)
                          (url_set_param "code" (generateOpaqueToken 1 16)
                                         fallback)))
                    (generateOpaqueToken 0 16)),
           store', log)
        /\ JsMap.get (generateOpaqueToken 1 16) (codes store') = Some entry
        /\ value entry = generateOpaqueToken 0 16)
  /\ (forall clk input providerConfig oauthConfig options store,
        exists message store',
          handleProviderCallback clk input providerConfig oauthConfig
                                 options store
          = (Js.Throw message, store'))
  /\ (forall clk input providerConfig oauthConfig options store
             txn s1 cbUrl endpoints,
        let decoded := decodeState (compositeState input) in
        let txnId := Js.or_string (tid decoded) (compositeState input) in
        getTransaction (clk 0%nat) txnId store = (Some txn, s1) ->
        url_resolve (Js.or_string (callbackPath options) "/oauth/callback")
                    (baseUrl options) = Some cbUrl ->
        buildAuthorizationServer providerConfig = Js.Ok endpoints ->
        clientSecretBasic (Js.or_string (clientSecret providerConfig) "")
        = Js.Ok tt ->
        handleProviderCallback clk input providerConfig oauthConfig
                               options store
        = (Js.Throw ("fetch_failed: "
                     ++ grantArgumentsError
                          (Js.or_string (clientId providerConfig) "")
                          (url_toString cbUrl)),
           store)).
Proof.
  split; [|split].
  - intros clk input pc oc options store fallback Hr Hc Hm Hcimd Hdev Hno Hp.
    unfold handleAuthorize. rewrite Hr, Hc, Hm.
    change ("S256" =? "S256")%string with true. cbn [negb orb].
    destruct (checkCimdClient input options) as [res log].
    cbn [fst] in Hcimd. subst res.
    rewrite Hdev, Hno. unfold redirectWith. rewrite Hp.
    destruct (saveCode_saved (clk 2%nat) (generateOpaqueToken 1 16)
                (generateOpaqueToken 0 16) None
                (saveTransaction (clk 1%nat) (generateOpaqueToken 0 16)
                   (mkTransaction (in_codeChallenge input) (in_state input)
                      (in_requestedScope input) (clk 0%nat) (in_sid input) None)
                   None store)) as (entry & Hget & Hval).
    eexists _, log, entry. split; [reflexivity|]. split; assumption.
  - intros clk input pc oc options store.
    destruct (handleProviderCallback_throws clk input pc oc options store)
      as [message Hthrow].
    eexists _, _. exact Hthrow.
  - intros clk input pc oc options store txn s1 cbUrl [a te]
           decoded txnId Htx Hcb Hsrv Hsec.
    assert (Hs1 : s1 = store).
    { pose proof Htx as Hfound. revert Hfound. unfold getTransaction.
      destruct (JsMap.get txnId (transactions store)) as [e|]; [|discriminate].
      destruct (entry_expiresAt e <=? clk 0%nat); [discriminate|].
      intros [= _ <-]. reflexivity. }
    subst s1.
    unfold handleProviderCallback.
    fold decoded. fold txnId. rewrite Htx, Hcb, Hsrv, Hsec.
    rewrite callback_grant_refused. reflexivity.
Qed.
End RedirectFacts.

(** ** The authorization-code grant *)

Section TokenFacts.
Context `{UrlApi} `{OAuthLib} `{Entropy} `{StateCodec} `{JsonCodec}
        `{Cimd.Network}.
Import Storage Flow.

Lemma same_rs_refl s : same_rs_records s s.
Proof. repeat split. Qed.

Lemma getTxnIdByCode_rs now code s :
  same_rs_records s (snd (getTxnIdByCode now code s)).
Proof.
  unfold getTxnIdByCode.
  destruct (JsMap.get code (codes s)) as [entry|]; [|apply same_rs_refl].
  destruct (entry_expiresAt entry <=? now); repeat split.
Qed.

Lemma getTransaction_rs now txnId s :
  same_rs_records s (snd (getTransaction now txnId s)).
Proof.
  unfold getTransaction.
  destruct (JsMap.get txnId (transactions s)) as [entry|]; [|apply same_rs_refl].
  destruct (entry_expiresAt entry <=? now); repeat split.
Qed.

Lemma same_rs_trans s1 s2 s3 :
  same_rs_records s1 s2 -> same_rs_records s2 s3 -> same_rs_records s1 s3.
Proof.
  unfold same_rs_records. intros (a & b & c) (d & e & f).
  repeat split; congruence.
Qed.

Lemma getTxnIdByCode_found now code s txnId :
  fst (getTxnIdByCode now code s) = Some txnId ->
  getTxnIdByCode now code s = (Some txnId, s).
Proof.
  unfold getTxnIdByCode.
  destruct (JsMap.get code (codes s)) as [entry|]; [|discriminate].
  destruct (entry_expiresAt entry <=? now); [discriminate|].
  cbn [fst]. intros [= ->]. reflexivity.
Qed.

Lemma getTransaction_found now txnId s txn :
  fst (getTransaction now txnId s) = Some txn ->
  getTransaction now txnId s = (Some txn, s).
Proof.
  unfold getTransaction.
  destruct (JsMap.get txnId (transactions s)) as [entry|]; [|discriminate].
  destruct (entry_expiresAt entry <=? now); [discriminate|].
  cbn [fst]. intros [= ->]. reflexivity.
Qed.

(** The code grant, once the code and its transaction are found. *)
Lemma handleCodeGrant_found clk code verifier s txnId txn :
  fst (getTxnIdByCode (clk 0%nat) code s) = Some txnId ->
  Js.truthy_string txnId = true ->
  fst (getTransaction (clk 1%nat) txnId s) = Some txn ->
  handleCodeGrant clk code verifier s
  = if negb (codeChallenge txn =? calculatePKCECodeChallenge verifier)%string
    then (Js.Throw "invalid_grant", s)
    else
      let rsAccess := generateOpaqueToken 0 24 in
      let rsRefresh := generateOpaqueToken 1 24 in
      let s3 :=
        match txn_provider txn with
        | Some p =>
            if Js.truthy_string (access_token p)
            then snd (storeRsMapping (clk 2%nat) (randomUUID 0) rsAccess p
                        (Some rsRefresh) DEFAULT_RS_TOKEN_TTL_MS s)
            else s
        | None => s
        end in
      let joined :=
        Str.join " " (match txn_provider txn with
                      | Some p => Js.nullish (scopes p) []
                      | None => []
                      end) in
      (Js.Ok (mkTokenResponse rsAccess rsRefresh "bearer" 3600
                (if Js.truthy_string joined then joined
                 else Js.or_string (scope txn) "")),
       deleteCode code (deleteTransaction txnId s3)).
Proof.
  intros Hc Ht Hx. unfold handleCodeGrant.
  rewrite (getTxnIdByCode_found _ _ _ _ Hc), Ht. cbn [negb].
  rewrite (getTransaction_found _ _ _ _ Hx). reflexivity.
Qed.

(** Every way the code grant fails is [invalid_grant], and a failed
    exchange leaves the RS records as they were. *)
Lemma handleCodeGrant_failure clk code verifier s m s' :
  handleCodeGrant clk code verifier s = (Js.Throw m, s') ->
  m = "invalid_grant" /\ same_rs_records s s'.
Proof.
  unfold handleCodeGrant.
  pose proof (getTxnIdByCode_rs (clk 0%nat) code s) as R1.
  destruct (getTxnIdByCode (clk 0%nat) code s) as [[txnId|] s1]; cbn [snd] in R1.
  2:{ intros [= <- <-]. split; [reflexivity|exact R1]. }
  destruct (negb (Js.truthy_string txnId)).
  { intros [= <- <-]. split; [reflexivity|exact R1]. }
  pose proof (getTransaction_rs (clk 1%nat) txnId s1) as R2.
  destruct (getTransaction (clk 1%nat) txnId s1) as [[txn|] s2]; cbn [snd] in R2.
  2:{ intros [= <- <-]. split; [reflexivity|].
      exact (same_rs_trans _ _ _ R1 R2). }
  destruct (negb (codeChallenge txn =? calculatePKCECodeChallenge verifier)%string).
  { intros [= <- <-]. split; [reflexivity|].
    exact (same_rs_trans _ _ _ R1 R2). }
  discriminate.
Qed.

(** C5.  A successful authorization-code exchange found the code's
    transaction and the S256 challenge of the verifier equals the stored
    [code_challenge]; when the two differ the exchange fails with
    [invalid_grant] and no RS record is written. *)
Theorem pkce_match_is_necessary_for_code_exchange :
  (forall clk code verifier providerConfig store response store',
      handleToken clk (AuthorizationCodeGrant code verifier)
                  providerConfig store = (Js.Ok response, store') ->
      exists txnId txn s1 s2,
        getTxnIdByCode (clk 0%nat) code store = (Some txnId, s1)
        /\ getTransaction (clk 1%nat) txnId s1 = (Some txn, s2)
        /\ calculatePKCECodeChallenge verifier = codeChallenge txn)
  /\ (forall clk code verifier providerConfig store txnId txn,
        fst (getTxnIdByCode (clk 0%nat) code store) = Some txnId ->
        fst (getTransaction (clk 1%nat) txnId store) = Some txn ->
        calculatePKCECodeChallenge verifier <> codeChallenge txn ->
        exists store',
          handleToken clk (AuthorizationCodeGrant code verifier)
                      providerConfig store = (Js.Throw "invalid_grant", store')
          /\ same_rs_records store store').
Proof.
  split.
  - intros clk code verifier pc store response store'. cbn [handleToken].
    unfold handleCodeGrant.
    destruct (getTxnIdByCode (clk 0%nat) code store) as [[txnId|] s1] eqn:Hc;
      [|discriminate].
    destruct (negb (Js.truthy_string txnId)); [discriminate|].
    destruct (getTransaction (clk 1%nat) txnId s1) as [[txn|] s2] eqn:Hx;
      [|discriminate].
    destruct (codeChallenge txn =? calculatePKCECodeChallenge verifier)%string
      eqn:E; [|discriminate].
    apply String.eqb_eq in E. intros _.
    exists txnId, txn, s1, s2.
    split; [reflexivity|]. split; [exact Hx|]. symmetry. exact E.
  - intros clk code verifier pc store txnId txn Hc Hx Hne. cbn [handleToken].
    destruct (handleCodeGrant clk code verifier store) as [[response|m] s'] eqn:E.
    + exfalso. revert E. unfold handleCodeGrant.
      rewrite (getTxnIdByCode_found _ _ _ _ Hc).
      destruct (negb (Js.truthy_string txnId)); [discriminate|].
      rewrite (getTransaction_found _ _ _ _ Hx).
      destruct (codeChallenge txn =? calculatePKCECodeChallenge verifier)%string
        eqn:E'; [|discriminate].
      apply String.eqb_eq in E'. congruence.
    + destruct (handleCodeGrant_failure _ _ _ _ _ _ E) as [-> R].
      exists s'. split; [reflexivity|exact R].
Qed.

(** C3 (amended).  When the code resolves to a transaction that carries no
    provider access token, no RS record is created.  With the matching
    verifier the exchange succeeds: it returns the two freshly minted RS
    tokens and deletes the transaction and the code.  With a verifier
    that does not match it fails with [invalid_grant] and leaves the
    store, the code included, untouched. *)
Theorem code_exchange_without_provider_token :
  forall clk code verifier providerConfig store txnId txn,
    fst (getTxnIdByCode (clk 0%nat) code store) = Some txnId ->
    Js.truthy_string txnId = true ->
    fst (getTransaction (clk 1%nat) txnId store) = Some txn ->
    lacks_provider_token txn = true ->
    (calculatePKCECodeChallenge verifier = codeChallenge txn ->
     exists granted store',
       handleToken clk (AuthorizationCodeGrant code verifier)
                   providerConfig store
       = (Js.Ok (mkTokenResponse (generateOpaqueToken 0 24)
                   (generateOpaqueToken 1 24) "bearer" 3600 granted),
          store')
       /\ same_rs_records store store'
       /\ JsMap.get code (codes store') = None
       /\ JsMap.get txnId (transactions store') = None)
    /\ (calculatePKCECodeChallenge verifier <> codeChallenge txn ->
        handleToken clk (AuthorizationCodeGrant code verifier)
                    providerConfig store
        = (Js.Throw "invalid_grant", store)).
Proof.
  intros clk code verifier pc store txnId txn Hc Ht Hx Hlack.
  cbn [handleToken]. rewrite (handleCodeGrant_found _ _ _ _ _ _ Hc Ht Hx).
  split.
  - intros Hm. rewrite Hm, String.eqb_refl. cbn [negb].
    assert (Hs3 : match txn_provider txn with
                  | Some p =>
                      if Js.truthy_string (access_token p)
                      then snd (storeRsMapping (clk 2%nat) (randomUUID 0)
                                  (generateOpaqueToken 0 24) p
                                  (Some (generateOpaqueToken 1 24))
                                  DEFAULT_RS_TOKEN_TTL_MS store)
                      else store
                  | None => store
                  end = store).
    { unfold lacks_provider_token in Hlack.
      destruct (txn_provider txn) as [p|]; [|reflexivity].
      destruct (Js.truthy_string (access_token p)); [discriminate|reflexivity]. }
    cbv zeta. rewrite Hs3.
    eexists _, _. split; [reflexivity|].
    split; [repeat split|].
    split.
    + unfold deleteCode. cbn [codes with_codes]. apply get_delete_same.
    + unfold deleteCode, deleteTransaction.
      cbn [transactions with_codes with_transactions]. apply get_delete_same.
  - intros Hne.
    destruct (codeChallenge txn =? calculatePKCECodeChallenge verifier)%string
      eqn:E; [|reflexivity].
    apply String.eqb_eq in E. congruence.
Qed.
End TokenFacts.

(** ** The per-fingerprint session cap *)

Section SessionFacts.
Import SessionStore.











Lemma get_In {V : Type} sid (x : V) (s : JsMap.t V) :
  JsMap.get sid s = Some x -> In (sid, x) s.
Proof.
  unfold JsMap.get. induction s as [|[sid' y] s IH]; simpl; [discriminate|].
  destruct (sid' =? sid)%string eqn:E.
  - apply String.eqb_eq in E. intros [= ->]. left. congruence.
  - intros Hg. right. exact (IH Hg).
Qed.


Lemma set_In {V : Type} sid (x : V) (s : JsMap.t V) sid' y :
  In (sid', y) (JsMap.set sid x s) -> In (sid', y) s \/ (sid', y) = (sid, x).
Proof.
  induction s as [|[sid0 z] s IH]; simpl.
  - intros [E|[]]. right. congruence.
  - destruct (sid0 =? sid)%string eqn:E; simpl.
    + apply String.eqb_eq in E. subst sid0.
      intros [E'|Hin]; [right; congruence|left; right; exact Hin].
    + intros [E'|Hin]; [left; left; exact E'|].
      destruct (IH Hin) as [Hs|Hs]; [left; right; exact Hs|right; exact Hs].
Qed.














Lemma touch_live k t now x : live_for k t (touch now x) = live_for k t x.
Proof. reflexivity. Qed.







End SessionFacts.

(** ** Cancellation of tool calls *)

Section CancellationFacts.
Import Dispatcher.

Lemma quiet_bind {A B : Type} (t : Task A) (f : A -> Task B) :
  quiet (bind t f)
  = match quiet t with
    | Returned a => quiet (f a)
    | Thrown m => Thrown m
    end.
Proof.
  induction t as [a|m|k IH|k IH]; simpl; try reflexivity; [apply IH|exact IH].
Qed.

Lemma quiet_tryCatch {A : Type} (t : Task A) (h : string -> Task A) :
  quiet (tryCatch t h)
  = match quiet t with
    | Returned a => Returned a
    | Thrown m => quiet (h m)
    end.
Proof.
  induction t as [a|m|k IH|k IH]; simpl; try reflexivity; [apply IH|exact IH].
Qed.

(** [executeSharedTool] never throws: whatever its tool does is caught. *)
Lemma executeSharedTool_quiet_returns tools n args :
  exists r, quiet (executeSharedTool tools n args) = Returned r.
Proof.
  unfold executeSharedTool. destruct (getSharedTool tools n) as [tool|];
    [|eexists; reflexivity].
  rewrite quiet_tryCatch. cbn [quiet].
  destruct (inputSchema tool args) as [parsed|errors]; [|eexists; reflexivity].
  rewrite quiet_bind. destruct (quiet (handler tool parsed)) as [r|m].
  - destruct (_ && _); eexists; reflexivity.
  - eexists; reflexivity.
Qed.

(** A tool that is found, is given valid input and completes with a result
    that passes the output check: the execution returns that result. *)
Lemma executeSharedTool_quiet_success tools n args tool parsed r :
  getSharedTool tools n = Some tool ->
  inputSchema tool args = inl parsed ->
  quiet (handler tool parsed) = Returned r ->
  passesOutputCheck tool r = true ->
  quiet (executeSharedTool tools n args) = Returned r.
Proof.
  intros Ht Hi Hq Hp. unfold executeSharedTool. rewrite Ht.
  rewrite quiet_tryCatch. cbn [quiet]. rewrite Hi, quiet_bind, Hq.
  unfold passesOutputCheck in Hp. apply negb_true_iff in Hp. rewrite Hp.
  reflexivity.
Qed.

Lemma nth_error_update {A : Type} (l : list A) i j x :
  i <> j ->
  nth_error (Storage.list_update i x l) j = nth_error l j.
Proof.
  revert i j. induction l as [|y l IH]; intros [|i] [|j] Hne;
    simpl; try reflexivity; try congruence.
  apply IH. congruence.
Qed.

Lemma nth_error_update_same {A : Type} (l : list A) i x :
  (i < length l)%nat -> nth_error (Storage.list_update i x l) i = Some x.
Proof.
  revert i. induction l as [|y l IH]; intros [|i] Hi; simpl in *;
    try lia; [reflexivity|].
  apply IH. lia.
Qed.

Lemma reg_get_delete rid registry : reg_get rid (reg_delete rid registry) = None.
Proof.
  unfold reg_delete. induction registry as [|[k c] registry IH]; simpl;
    [reflexivity|].
  destruct (id_eqb k rid) eqn:E; simpl; [exact IH|]. rewrite E. exact IH.
Qed.

Lemma id_eqb_eq a b : id_eqb a b = true <-> a = b.
Proof.
  destruct a, b; simpl; try (split; [discriminate|congruence]).
  - rewrite String.eqb_eq. split; congruence.
  - rewrite Z.eqb_eq. split; congruence.
Qed.

Lemma reg_get_set rid rid' c registry :
  reg_get rid' (reg_set rid c registry)
  = if id_eqb rid rid' then Some c else reg_get rid' registry.
Proof.
  induction registry as [|[k c'] registry IH]; simpl.
  - reflexivity.
  - destruct (id_eqb k rid) eqn:E; simpl.
    + apply id_eqb_eq in E. subst k. destruct (id_eqb rid rid'); reflexivity.
    + destruct (id_eqb k rid') eqn:E'; [|exact IH].
      destruct (id_eqb rid rid') eqn:E''; [|reflexivity].
      apply id_eqb_eq in E', E''. subst. 
      assert (id_eqb rid' rid' = true) by (apply id_eqb_eq; reflexivity).
      congruence.
Qed.

Lemma notification_undisturbed c owner n w :
  undisturbed c owner w ->
  (forall rid, owner = Some rid -> cancels n rid = false) ->
  undisturbed c owner (snd (handleMcpNotification n w)).
Proof.
  intros Hu Hno. unfold handleMcpNotification.
  destruct (method n =? "notifications/initialized")%string.
  { cbn [snd]. destruct (session w); exact Hu. }
  destruct (method n =? "notifications/cancelled")%string eqn:Hm; [|exact Hu].
  cbn [snd].
  destruct (param (params n) "requestId") as [v|] eqn:Hv; [|exact Hu].
  destruct (cancellationRegistry w) as [registry|] eqn:Hr; [|exact Hu].
  destruct (asRequestId v) as [rid|] eqn:Hid; [|exact Hu].
  destruct (reg_get rid registry) as [c'|] eqn:Hg; [|exact Hu].
  destruct Hu as [Hc Hreg].
  assert (Hne : c' <> c).
  { intros ->. specialize (Hreg registry rid Hr Hg).
    specialize (Hno rid Hreg). unfold cancels in Hno.
    rewrite Hm, Hv, Hid in Hno. cbn [andb] in Hno.
    assert (id_eqb rid rid = true) by (apply id_eqb_eq; reflexivity).
    congruence. }
  unfold abort. destruct (nth_error (controllers w) c') as [[reason|]|];
    try (split; assumption).
  split; cbn [controllers cancellationRegistry].
  - rewrite nth_error_update by exact Hne. exact Hc.
  - exact Hreg.
Qed.

Lemma deliver_undisturbed c owner ns : forall w,
  undisturbed c owner w ->
  (forall n rid, In n ns -> owner = Some rid -> cancels n rid = false) ->
  undisturbed c owner (deliver ns w).
Proof.
  unfold deliver. induction ns as [|n ns IH]; intros w Hu Hno; [exact Hu|].
  cbn [fold_left]. apply IH.
  - apply notification_undisturbed; [exact Hu|].
    intros rid. apply Hno. left. reflexivity.
  - intros n' rid Hin. apply Hno. right. exact Hin.
Qed.

(** While no cancellation reaches the call, running its task gives what
    the task comes to with an unaborted signal. *)
Lemma run_undisturbed {A : Type} c owner (t : Task A) : forall schedule w,
  undisturbed c owner w ->
  (forall n rid, In n (concat schedule) -> owner = Some rid ->
                 cancels n rid = false) ->
  fst (run c t schedule w) = quiet t
  /\ undisturbed c owner (snd (run c t schedule w)).
Proof.
  induction t as [a|m|k IH|k IH]; intros schedule w Hu Hno; cbn [run quiet].
  - split; [reflexivity|exact Hu].
  - split; [reflexivity|exact Hu].
  - assert (Hab : aborted w c = false).
    { unfold aborted. rewrite (proj1 Hu). reflexivity. }
    rewrite Hab. apply IH; assumption.
  - apply IH.
    + apply deliver_undisturbed; [exact Hu|].
      intros n rid Hin. apply Hno.
      destruct schedule as [|ns rest]; [destruct Hin|].
      cbn [hd] in Hin. cbn [concat]. apply in_or_app. left. exact Hin.
    + intros n rid Hin. apply Hno.
      destruct schedule as [|ns rest]; [destruct Hin|].
      cbn [tl] in Hin. cbn [concat]. apply in_or_app. right. exact Hin.
Qed.

Lemma installed_undisturbed requestId w :
  registry_live w ->
  undisturbed (length (controllers w)) requestId
    (mkWorld (controllers w ++ [None])
             (match requestId, cancellationRegistry w with
              | Some rid, Some registry =>
                  Some (reg_set rid (length (controllers w)) registry)
              | _, registry => registry
              end)
             (session w)).
Proof.
  intros Hlive. split; cbn [controllers cancellationRegistry].
  - rewrite nth_error_app2 by lia. rewrite Nat.sub_diag. reflexivity.
  - intros registry' rid' Hr Hg.
    assert (Hstale : forall registry, cancellationRegistry w = Some registry ->
                       reg_get rid' registry = Some (length (controllers w)) ->
                       False).
    { intros registry Hw Hg'. pose proof (Hlive registry rid' _ Hw Hg'). lia. }
    destruct requestId as [rid|];
      destruct (cancellationRegistry w) as [registry|];
      try discriminate; injection Hr as Hr; subst registry'.
    + rewrite reg_get_set in Hg. destruct (id_eqb rid rid') eqn:E.
      * apply id_eqb_eq in E. congruence.
      * exfalso. exact (Hstale registry eq_refl Hg).
    + exfalso. exact (Hstale registry eq_refl Hg).
Qed.

Lemma handleToolsCallWith_undisturbed execute ps requestId schedule w :
  registry_live w ->
  (forall n rid, In n (concat schedule) -> requestId = Some rid ->
                 cancels n rid = false) ->
  fst (handleToolsCallWith execute ps requestId schedule w)
  = settle (quiet (execute (toolNameOf ps) (toolArgsOf ps))) false
  /\ forall rid registry,
       requestId = Some rid ->
       cancellationRegistry
         (snd (handleToolsCallWith execute ps requestId schedule w))
       = Some registry ->
       reg_get rid registry = None.
Proof.
  intros Hlive Hno. unfold handleToolsCallWith.
  pose proof (run_undisturbed (length (controllers w)) requestId
                (execute (toolNameOf ps) (toolArgsOf ps)) schedule _
                (installed_undisturbed requestId w Hlive) Hno) as [Hout Hu].
  cbv zeta.
  destruct (run (length (controllers w))
                (execute (toolNameOf ps) (toolArgsOf ps)) schedule _)
    as [out w2].
  cbn [fst snd] in *. subst out.
  assert (Hab : aborted w2 (length (controllers w)) = false).
  { unfold aborted. rewrite (proj1 Hu). reflexivity. }
  rewrite Hab. split; [reflexivity|].
  intros rid registry -> Hr. cbn [cancellationRegistry] in Hr.
  destruct (cancellationRegistry w2); [|discriminate].
  injection Hr as <-. apply reg_get_delete.
Qed.

Lemma cancel_aborts_installed rid w registry c :
  cancellationRegistry w = Some registry ->
  reg_get rid registry = Some c ->
  (c < length (controllers w))%nat ->
  aborted (snd (handleMcpNotification (cancelOf rid) w)) c = true.
Proof.
  intros Hr Hg Hc. unfold handleMcpNotification, cancelOf.
  cbn [method params param Js.assoc snd].
  change ("notifications/cancelled" =? "notifications/initialized")%string
    with false.
  change ("notifications/cancelled" =? "notifications/cancelled")%string
    with true.
  change ("requestId" =? "requestId")%string with true.
  change ("requestId" =? "reason")%string with false.
  rewrite Hr.
  assert (Hid : asRequestId (jsonOfId rid) = Some rid) by (destruct rid; reflexivity).
  rewrite Hid, Hg. unfold abort, aborted.
  destruct (nth_error (controllers w) c) as [[reason|]|] eqn:Hn.
  - cbn [snd]. rewrite Hn. reflexivity.
  - cbn [snd controllers].
    rewrite nth_error_update_same by exact Hc. reflexivity.
  - apply nth_error_None in Hn. lia.
Qed.

Lemma notification_keeps_registry n w :
  cancellationRegistry (snd (handleMcpNotification n w))
  = cancellationRegistry w.
Proof.
  unfold handleMcpNotification.
  destruct (method n =? "notifications/initialized")%string.
  { cbn [snd]. destruct (session w); reflexivity. }
  destruct (method n =? "notifications/cancelled")%string; [|reflexivity].
  cbn [snd].
  destruct (param (params n) "requestId") as [v|]; [|reflexivity].
  destruct (cancellationRegistry w) as [registry|] eqn:Hr; [|exact Hr].
  destruct (asRequestId v) as [rid|]; [|exact Hr].
  destruct (reg_get rid registry) as [c|]; [|exact Hr].
  unfold abort.
  destruct (nth_error (controllers w) c) as [[reason|]|]; exact Hr.
Qed.

Lemma deliver_keeps_registry ns : forall w,
  cancellationRegistry (deliver ns w) = cancellationRegistry w.
Proof.
  unfold deliver. induction ns as [|n ns IH]; intros w; [reflexivity|].
  cbn [fold_left]. rewrite IH. apply notification_keeps_registry.
Qed.

Lemma run_keeps_registry {A : Type} c (t : Task A) : forall schedule w,
  cancellationRegistry (snd (run c t schedule w)) = cancellationRegistry w.
Proof.
  induction t as [a|m|k IH|k IH]; intros schedule w; cbn [run];
    try reflexivity.
  - apply IH.
  - rewrite IH. apply deliver_keeps_registry.
Qed.

Lemma length_list_update {A : Type} (l : list A) i x :
  length (Storage.list_update i x l) = length l.
Proof.
  revert i. induction l as [|y l IH]; intros [|i]; simpl; try reflexivity.
  rewrite IH. reflexivity.
Qed.

Lemma abort_keeps_length c reason w :
  length (controllers (abort c reason w)) = length (controllers w).
Proof.
  unfold abort. destruct (nth_error (controllers w) c) as [[r|]|];
    try reflexivity.
  cbn [controllers]. apply length_list_update.
Qed.

(** An aborted signal stays aborted, whichever controller is aborted next. *)
Lemma abort_sticky c c' reason w :
  aborted w c = true -> aborted (abort c' reason w) c = true.
Proof.
  unfold aborted, abort. intros Hab.
  destruct (nth_error (controllers w) c') as [[r|]|] eqn:Hn; try exact Hab.
  cbn [controllers].
  destruct (Nat.eq_dec c' c) as [->|Hne].
  - rewrite Hn in Hab. discriminate Hab.
  - rewrite nth_error_update by exact Hne. exact Hab.
Qed.

Lemma abort_aborts c reason w :
  (c < length (controllers w))%nat -> aborted (abort c reason w) c = true.
Proof.
  intros Hc. unfold abort, aborted.
  destruct (nth_error (controllers w) c) as [[r|]|] eqn:Hn.
  - rewrite Hn. reflexivity.
  - cbn [controllers]. rewrite nth_error_update_same by exact Hc. reflexivity.
  - apply nth_error_None in Hn. lia.
Qed.

Lemma notification_sticky c n w :
  aborted w c = true -> aborted (snd (handleMcpNotification n w)) c = true.
Proof.
  intros Hab. unfold handleMcpNotification.
  destruct (method n =? "notifications/initialized")%string.
  { cbn [snd]. destruct (session w); exact Hab. }
  destruct (method n =? "notifications/cancelled")%string; [|exact Hab].
  cbn [snd].
  destruct (param (params n) "requestId") as [v|]; [|exact Hab].
  destruct (cancellationRegistry w) as [registry|]; [|exact Hab].
  destruct (asRequestId v) as [rid|]; [|exact Hab].
  destruct (reg_get rid registry) as [c'|]; [|exact Hab].
  apply abort_sticky. exact Hab.
Qed.

Lemma notification_keeps_length n w :
  length (controllers (snd (handleMcpNotification n w)))
  = length (controllers w).
Proof.
  unfold handleMcpNotification.
  destruct (method n =? "notifications/initialized")%string.
  { cbn [snd]. destruct (session w); reflexivity. }
  destruct (method n =? "notifications/cancelled")%string; [|reflexivity].
  cbn [snd].
  destruct (param (params n) "requestId") as [v|]; [|reflexivity].
  destruct (cancellationRegistry w) as [registry|]; [|reflexivity].
  destruct (asRequestId v) as [rid|]; [|reflexivity].
  destruct (reg_get rid registry) as [c'|]; [|reflexivity].
  apply abort_keeps_length.
Qed.

Lemma deliver_sticky c ns : forall w,
  aborted w c = true -> aborted (deliver ns w) c = true.
Proof.
  unfold deliver. induction ns as [|n ns IH]; intros w Hab; [exact Hab|].
  cbn [fold_left]. apply IH. apply notification_sticky. exact Hab.
Qed.

(** A cancellation of a request whose handle is an existing controller
    aborts that controller, whatever reason it carries. *)
Lemma cancels_aborts n rid w registry c :
  cancels n rid = true ->
  cancellationRegistry w = Some registry ->
  reg_get rid registry = Some c ->
  (c < length (controllers w))%nat ->
  aborted (snd (handleMcpNotification n w)) c = true.
Proof.
  unfold cancels. intros Hcan Hr Hg Hc.
  apply andb_true_iff in Hcan. destruct Hcan as [Hm Hcan].
  destruct (param (params n) "requestId") as [v|] eqn:Hv; [|discriminate].
  destruct (asRequestId v) as [r|] eqn:Hid; [|discriminate].
  apply id_eqb_eq in Hcan. subst r.
  apply String.eqb_eq in Hm.
  unfold handleMcpNotification. rewrite Hm.
  change ("notifications/cancelled" =? "notifications/initialized")%string
    with false.
  change ("notifications/cancelled" =? "notifications/cancelled")%string
    with true.
  cbn [snd]. rewrite Hv, Hr, Hid, Hg. apply abort_aborts. exact Hc.
Qed.

Lemma deliver_cancels n rid c ns : forall w registry,
  In n ns ->
  cancels n rid = true ->
  cancellationRegistry w = Some registry ->
  reg_get rid registry = Some c ->
  (c < length (controllers w))%nat ->
  aborted (deliver ns w) c = true.
Proof.
  unfold deliver. induction ns as [|x ns IH]; intros w registry Hin Hcan Hr Hg Hc;
    [destruct Hin|].
  cbn [fold_left]. destruct Hin as [->|Hin].
  - apply (deliver_sticky c ns).
    exact (cancels_aborts n rid w registry c Hcan Hr Hg Hc).
  - apply (IH _ registry Hin Hcan).
    + rewrite notification_keeps_registry. exact Hr.
    + exact Hg.
    + rewrite notification_keeps_length. exact Hc.
Qed.

(** Once the signal is aborted the task runs as [aborting] says, and the
    signal stays aborted. *)
Lemma run_aborting {A : Type} c (t : Task A) : forall schedule w,
  aborted w c = true ->
  fst (run c t schedule w) = aborting t
  /\ aborted (snd (run c t schedule w)) c = true.
Proof.
  induction t as [a|m|k IH|k IH]; intros schedule w Hab; cbn [run aborting].
  - split; [reflexivity|exact Hab].
  - split; [reflexivity|exact Hab].
  - rewrite Hab. apply IH. exact Hab.
  - apply IH. apply deliver_sticky. exact Hab.
Qed.

(** A task whose handle is installed and whose cancellation is handled
    during its first await. *)
Lemma run_cancelled_at_first_await {A : Type} c rid n (t : Task A) :
  forall schedule w registry,
  nth_error (controllers w) c = Some None ->
  cancellationRegistry w = Some registry ->
  reg_get rid registry = Some c ->
  In n (hd [] schedule) ->
  cancels n rid = true ->
  fst (run c t schedule w) = cancelledAtFirstAwait t
  /\ aborted (snd (run c t schedule w)) c = awaits t.
Proof.
  induction t as [a|m|k IH|k IH]; intros schedule w registry Hn Hr Hg Hin Hcan;
    cbn [run cancelledAtFirstAwait awaits].
  - split; [reflexivity|]. cbn [snd]. unfold aborted. rewrite Hn. reflexivity.
  - split; [reflexivity|]. cbn [snd]. unfold aborted. rewrite Hn. reflexivity.
  - assert (Hab : aborted w c = false) by (unfold aborted; rewrite Hn; reflexivity).
    rewrite Hab. exact (IH false schedule w registry Hn Hr Hg Hin Hcan).
  - apply run_aborting.
    apply (deliver_cancels n rid c _ w registry Hin Hcan Hr Hg).
    apply nth_error_Some. rewrite Hn. discriminate.
Qed.

(** A call whose cancellation is handled during the first await of its
    tool execution: the handle it installed carries the abort to its
    signal, and the execution goes on under the aborted signal. *)
Lemma handleToolsCallWith_cancelled execute ps rid schedule w registry n :
  cancellationRegistry w = Some registry ->
  In n (hd [] schedule) ->
  cancels n rid = true ->
  run (length (controllers w)) (execute (toolNameOf ps) (toolArgsOf ps))
      schedule
      (mkWorld (controllers w ++ [None])
               (Some (reg_set rid (length (controllers w)) registry))
               (session w))
  = (cancelledAtFirstAwait (execute (toolNameOf ps) (toolArgsOf ps)),
     snd (run (length (controllers w))
              (execute (toolNameOf ps) (toolArgsOf ps)) schedule
              (mkWorld (controllers w ++ [None])
                       (Some (reg_set rid (length (controllers w)) registry))
                       (session w))))
  /\ aborted (snd (handleToolsCallWith execute ps (Some rid) schedule w))
             (length (controllers w))
     = awaits (execute (toolNameOf ps) (toolArgsOf ps)).
Proof.
  intros Hr Hin Hcan.
  assert (Hself : id_eqb rid rid = true) by (apply id_eqb_eq; reflexivity).
  pose proof (run_cancelled_at_first_await (length (controllers w)) rid n
                (execute (toolNameOf ps) (toolArgsOf ps)) schedule
                (mkWorld (controllers w ++ [None])
                         (Some (reg_set rid (length (controllers w)) registry))
                         (session w))
                (reg_set rid (length (controllers w)) registry)) as Hrun.
  cbn [controllers cancellationRegistry] in Hrun.
  rewrite nth_error_app2, Nat.sub_diag, reg_get_set, Hself in Hrun by lia.
  specialize (Hrun eq_refl eq_refl eq_refl Hin Hcan).
  destruct Hrun as [Hout Hab].
  unfold handleToolsCallWith. rewrite Hr. cbv zeta.
  destruct (run (length (controllers w))
                (execute (toolNameOf ps) (toolArgsOf ps)) schedule _)
    as [out w2].
  cbn [fst snd] in *. subst out. split; [reflexivity|].
  unfold aborted in *. cbn [controllers]. exact Hab.
Qed.

(** C7 (amended).  A [notifications/cancelled] acts only on a handle that
    is installed.  One whose request id has no handle (before the call
    installs it, after the call removed it, or never known) is accepted and
    changes nothing.  A tools/call that no cancellation of its request id
    reaches while it runs answers what its tool execution comes to without
    an abort, so a handler that completes successfully gets its result
    returned, and the call leaves no handle behind.  A cancellation that
    arrives while the handle is installed aborts the call's signal.  The
    call installs that handle itself, under its request id, before its
    tool execution starts: when a cancellation of its request id is
    handled during the first await of the execution, the call's own signal
    is aborted, and an execution that completes with a result all the
    same has that result returned. *)
Theorem cancellation_acts_only_on_installed_handle :
  (forall n w,
      method n = "notifications/cancelled" ->
      unregistered n w ->
      handleMcpNotification n w = (true, w))
  /\ (forall execute ps requestId schedule w,
        registry_live w ->
        (forall n rid, In n (concat schedule) -> requestId = Some rid ->
                       cancels n rid = false) ->
        fst (handleToolsCallWith execute ps requestId schedule w)
        = settle (quiet (execute (toolNameOf ps) (toolArgsOf ps))) false
        /\ forall rid registry,
             requestId = Some rid ->
             cancellationRegistry
               (snd (handleToolsCallWith execute ps requestId schedule w))
             = Some registry ->
             reg_get rid registry = None)
  /\ (forall tools ps requestId schedule w tool parsed r,
        registry_live w ->
        (forall n rid, In n (concat schedule) -> requestId = Some rid ->
                       cancels n rid = false) ->
        getSharedTool tools (toolNameOf ps) = Some tool ->
        inputSchema tool (toolArgsOf ps) = inl parsed ->
        quiet (handler tool parsed) = Returned r ->
        passesOutputCheck tool r = true ->
        fst (handleToolsCall tools ps requestId schedule w) = Result r)
  /\ (forall rid w registry c,
        cancellationRegistry w = Some registry ->
        reg_get rid registry = Some c ->
        (c < length (controllers w))%nat ->
        aborted (snd (handleMcpNotification (cancelOf rid) w)) c = true)
  /\ (forall execute ps rid schedule w registry n,
        cancellationRegistry w = Some registry ->
        In n (hd [] schedule) ->
        cancels n rid = true ->
        (awaits (execute (toolNameOf ps) (toolArgsOf ps)) = true ->
         aborted (snd (handleToolsCallWith execute ps (Some rid) schedule w))
                 (length (controllers w)) = true)
        /\ (forall r,
              cancelledAtFirstAwait (execute (toolNameOf ps) (toolArgsOf ps))
              = Returned r ->
              fst (handleToolsCallWith execute ps (Some rid) schedule w)
              = Result r)).
Proof.
  split.
  { intros n w Hm Hun. unfold handleMcpNotification. rewrite Hm.
    change ("notifications/cancelled" =? "notifications/initialized")%string
      with false.
    change ("notifications/cancelled" =? "notifications/cancelled")%string
      with true.
    destruct (param (params n) "requestId") as [v|] eqn:Hv; [|reflexivity].
    destruct (cancellationRegistry w) as [registry|] eqn:Hr; [|reflexivity].
    destruct (asRequestId v) as [rid|] eqn:Hid; [|reflexivity].
    rewrite (Hun v rid registry Hv Hid Hr). reflexivity. }
  split; [exact handleToolsCallWith_undisturbed|].
  split.
  { intros tools ps requestId schedule w tool parsed r Hlive Hno Ht Hi Hq Hp.
    unfold handleToolsCall.
    rewrite (proj1 (handleToolsCallWith_undisturbed
                      (executeSharedTool tools) ps requestId schedule w
                      Hlive Hno)).
    rewrite (executeSharedTool_quiet_success tools _ _ tool parsed r Ht Hi Hq Hp).
    reflexivity. }
  split; [exact cancel_aborts_installed|].
  intros execute ps rid schedule w registry n Hr Hin Hcan.
  destruct (handleToolsCallWith_cancelled execute ps rid schedule w registry n
              Hr Hin Hcan) as [Hrun Hab].
  split.
  - intros Haw. rewrite Hab. exact Haw.
  - intros r Hout. unfold handleToolsCallWith. rewrite Hr. cbv zeta.
    rewrite Hrun, Hout. reflexivity.
Qed.
End CancellationFacts.

(** ** The token store at its cap *)

Section FilledStore.
Import Storage Scenario.

Lemma append_inj p s1 s2 : (p ++ s1 = p ++ s2)%string -> s1 = s2.
Proof.
  induction p as [|c p IH]; simpl; [exact (fun H => H)|].
  intros [= E]. exact (IH E).
Qed.

Lemma numbered_inj p i j : numbered p i = numbered p j -> i = j.
Proof.
  unfold numbered. intros E. apply append_inj in E.
  assert (Hu : N.to_uint i = N.to_uint j).
  { pose proof (NilEmpty.usu (N.to_uint i)) as Hi.
    pose proof (NilEmpty.usu (N.to_uint j)) as Hj.
    rewrite E in Hi. congruence. }
  rewrite <- (DecimalN.Unsigned.of_to i), <- (DecimalN.Unsigned.of_to j).
  rewrite Hu. reflexivity.
Qed.

Lemma counted_spec n : forall pos start,
  counted pos start n
  = map (fun i => ((pos + i)%nat, (start + N.of_nat i)%N)) (seq 0 n).
Proof.
  induction n as [|n IH]; intros pos start; [reflexivity|].
  cbn [counted seq map]. rewrite IH, <- seq_shift, map_map.
  f_equal.
  - f_equal; [lia|lia].
  - apply map_ext. intros i. f_equal; lia.
Qed.

Lemma counted_snoc n :
  counted 0 0 (S n) = (counted 0 0 n ++ [(n, N.of_nat n)])%list.
Proof.
  rewrite !counted_spec, seq_S, map_app. cbn [map]. reflexivity.
Qed.

Lemma counted_below n e :
  In e (counted 0 0 n) -> (fst e < n)%nat /\ snd e = N.of_nat (fst e).
Proof.
  rewrite counted_spec. intros Hin. apply in_map_iff in Hin.
  destruct Hin as (i & <- & Hi). apply in_seq in Hi. cbn [fst snd].
  split; [lia|reflexivity].
Qed.

Lemma get_absent {V : Type} k (m : JsMap.t V) :
  (forall e, In e m -> fst e <> k) -> JsMap.get k m = None.
Proof.
  unfold JsMap.get. induction m as [|[k' v] m IH]; intros Hno; simpl;
    [reflexivity|].
  destruct (k' =? k)%string eqn:E.
  - apply String.eqb_eq in E. exfalso.
    exact (Hno (k', v) (or_introl eq_refl) E).
  - apply IH. intros e He. apply Hno. right. exact He.
Qed.

Lemma set_absent {V : Type} k (v : V) (m : JsMap.t V) :
  (forall e, In e m -> fst e <> k) -> JsMap.set k v m = (m ++ [(k, v)])%list.
Proof.
  induction m as [|[k' v'] m IH]; intros Hno; simpl; [reflexivity|].
  destruct (k' =? k)%string eqn:E.
  - apply String.eqb_eq in E. exfalso.
    exact (Hno (k', v') (or_introl eq_refl) E).
  - f_equal. apply IH. intros e He. apply Hno. right. exact He.
Qed.

Lemma numbered_fresh p n e :
  In e (map (fun e => (numbered p (snd e), fst e)) (counted 0 0 n)) ->
  fst e <> numbered p (N.of_nat n).
Proof.
  intros Hin. apply in_map_iff in Hin. destruct Hin as (e' & <- & He).
  apply counted_below in He. destruct He as [Hlt Hs].
  cbn [fst]. rewrite Hs. intros E. apply numbered_inj in E. lia.
Qed.

(** Below the cap nothing is evicted: the store after [n] mappings is the
    one written out. *)
Lemma filled_is_direct n : (n <= cap)%nat -> filled n = filled_direct n.
Proof.
  induction n as [|n IH]; intros Hn; [reflexivity|].
  cbn [filled]. rewrite IH by lia. unfold storeRsMapping, evictOldest.
  cbn [rsAccessMap rsRefreshMap heap with_access filled_direct].
  match goal with
  | |- context [?size <? MAX_RS_RECORDS] =>
      replace (size <? MAX_RS_RECORDS) with true
  end.
  2:{ symmetry. unfold JsMap.size. rewrite length_map, counted_spec.
      rewrite length_map, length_seq.
      apply Z.ltb_lt. unfold cap in Hn. lia. }
  cbn [rsAccessMap rsRefreshMap heap with_access Js.truthy_opt].
  assert (Htruthy : Js.truthy_string (numbered "r" (N.of_nat n)) = true)
    by reflexivity.
  rewrite Htruthy.
  rewrite (get_absent (numbered "r" (N.of_nat n)))
    by (intros e He; exact (numbered_fresh "r" n e He)).
  cbn [rsAccessMap rsRefreshMap heap transactions codes with_access with_heap
       with_refresh Js.nullish rs_refresh_token snd].
  rewrite (set_absent (numbered "a" (N.of_nat n)))
    by (intros e He; exact (numbered_fresh "a" n e He)).
  rewrite (set_absent (numbered "r" (N.of_nat n)))
    by (intros e He; exact (numbered_fresh "r" n e He)).
  rewrite length_map, counted_spec, length_map, length_seq.
  unfold filled_direct. rewrite counted_snoc, <- counted_spec, !map_app.
  reflexivity.
Qed.

(** C2 at its failing input.  After [MAX_RS_RECORDS] mappings one more
    [storeRsMapping] evicts the oldest records from the access index only:
    the first record is still found by its refresh token, still names its
    access token, and that access token finds nothing. *)
Theorem eviction_leaves_refresh_key_dangling :
  let s := overflowed in
  let now := MAX_RS_RECORDS + 1 in
  fst (getByRsRefresh now "r0" s) = Some 0%nat
  /\ field rs_access_token "" s 0%nat = "a0"
  /\ fst (getByRsAccess now "a0" s) = None
  /\ JsMap.size (rsRefreshMap s) = 10001
  /\ JsMap.size (rsAccessMap s) = 9991.
Proof.
  unfold overflowed. rewrite (filled_is_direct cap (le_n cap)).
  vm_compute. repeat split.
Qed.
End FilledStore.

(** ** Refresh on a tool call *)

Section RefreshFacts.
Context `{UrlApi} `{OAuthLib}.
Import Storage Refresh.

Lemma keys_set_present {V : Type} k (v old : V) (m : JsMap.t V) :
  JsMap.get k m = Some old -> JsMap.keys (JsMap.set k v m) = JsMap.keys m.
Proof.
  unfold JsMap.get, JsMap.keys.
  induction m as [|[k' v'] m IH]; simpl; [discriminate|].
  destruct (k' =? k)%string; simpl; [reflexivity|].
  intros Hg. f_equal. exact (IH Hg).
Qed.

Lemma deref_update (s : MemoryTokenStore) r o :
  (r < length (heap s))%nat ->
  nth_error (list_update r o (heap s)) r = Some o.
Proof.
  generalize (heap s). intros l. revert r.
  induction l as [|y l IH]; intros [|r] Hr; simpl in *; try lia;
    [reflexivity|].
  apply IH. lia.
Qed.

(** C1 at its failing inputs.  Whenever the refresh of a record found under
    RS access token [tok] succeeds upstream with a refresh token other than
    the stored one, [ensureFreshToken] reports the refresh and leaves the
    RS access token as it was: [tok] still resolves to the record, the
    record still names [tok], it now holds the rotated provider refresh
    token, and the access index has the keys it had. *)
Theorem ensureFreshToken_keeps_rs_access_on_rotation :
  forall clk tok config store recently r record endpoint response old new,
    JsMap.get tok (rsAccessMap store) = Some r ->
    deref store r = Some record ->
    clk 0%nat < expiresAt record ->
    rs_access_token record = tok ->
    JsMap.get (rs_refresh_token record) (rsRefreshMap store) = Some r ->
    Js.truthy_string (access_token (provider record)) = true ->
    isTokenExpiredOrExpiring (clk 1%nat) (expires_at (provider record))
                             EXPIRY_BUFFER_MS = true ->
    shouldSkipRefresh (clk 2%nat) tok recently = false ->
    refresh_token (provider record) = Some old ->
    Js.truthy_string old = true ->
    tokenEndpointOf config = Js.Ok endpoint ->
    clientSecretBasic (clientSecret config) = Js.Ok tt ->
    refreshTokenGrant endpoint (clientId config) (clientSecret config) old
    = GrantOk response ->
    Js.truthy_string (tr_access_token response) = true ->
    tr_refresh_token response = Some new ->
    new <> old ->
    exists store' recently',
      ensureFreshToken clk tok (Some config) store recently
      = Js.Ok (mkFreshToken (tr_access_token response) true, store', recently')
      /\ fst (getByRsAccess (clk 4%nat) tok store') = Some r
      /\ field rs_access_token "" store' r = tok
      /\ field (fun o => refresh_token (provider o)) None store' r = Some new
      /\ JsMap.keys (rsAccessMap store') = JsMap.keys (rsAccessMap store).
Proof.
  intros clk tok config store recently r record endpoint response old new
         Hget Hderef Hlive Htok Hrefresh Hacc Hexp Hskip Hold Holdt Hep Hsec
         Hgrant Hnewacc Hnew Hne.
  assert (Hr : (r < length (heap store))%nat).
  { apply nth_error_Some. unfold deref in Hderef. congruence. }
  unfold ensureFreshToken, getByRsAccess. rewrite Hget.
  unfold field at 1. rewrite Hderef.
  replace (expiresAt record <=? clk 0%nat) with false
    by (symmetry; apply Z.leb_gt; exact Hlive).
  rewrite Hderef, Hacc, Hexp, Hskip, Hold. cbn [negb Js.truthy_opt Js.nullish].
  rewrite Holdt. cbn [negb].
  unfold refreshProviderToken. rewrite Hep, Hsec, Hgrant, Hnewacc.
  cbn [negb success tokens refresh_token]. rewrite Hnew.
  cbn [Js.nullish Js.same_opt].
  replace (new =? old)%string with false
    by (symmetry; apply String.eqb_neq; exact Hne).
  cbn [negb]. unfold updateByRsRefresh. rewrite Hrefresh, Hderef.
  cbn [rs_access_token rs_refresh_token provider created_at expiresAt
       heap rsAccessMap rsRefreshMap with_heap with_access with_refresh].
  eexists _, _. split; [reflexivity|].
  set (record' := mkRsRecord _ _ _ _ _).
  assert (Hderef' : nth_error (list_update r record' (heap store)) r
                    = Some record').
  { apply deref_update. exact Hr. }
  repeat split.
  - unfold getByRsAccess. cbn [rsAccessMap with_refresh with_access with_heap].
    rewrite Htok, get_set_same. unfold field, deref.
    cbn [heap with_refresh with_access with_heap]. rewrite Hderef'.
    subst record'. cbn [expiresAt].
    replace (clk 4%nat + DEFAULT_RS_TOKEN_TTL_MS <=? clk 4%nat) with false;
      [reflexivity|].
    symmetry. apply Z.leb_gt. unfold DEFAULT_RS_TOKEN_TTL_MS. lia.
  - unfold field, deref. cbn [heap with_refresh with_access with_heap].
    rewrite Hderef'. subst record'. exact Htok.
  - unfold field, deref. cbn [heap with_refresh with_access with_heap].
    rewrite Hderef'. reflexivity.
  - cbn [rsAccessMap with_refresh with_access with_heap].
    rewrite Htok. exact (keys_set_present tok r r _ Hget).
Qed.
End RefreshFacts.

(* ===================================================================== *)
(** * Further properties of the token store *)
(* ===================================================================== *)

Section TokenStoreFacts.
Import Storage StoreProps.

Lemma nth_error_snoc {A : Type} (l : list A) x :
  nth_error (l ++ [x]) (length l) = Some x.
Proof. rewrite nth_error_app2 by lia. rewrite Nat.sub_diag. reflexivity. Qed.

Lemma live_lookup now s r o k :
  deref s r = Some o -> now < expiresAt o ->
  JsMap.get k (rsAccessMap s) = Some r ->
  fst (getByRsAccess now k s) = Some r.
Proof.
  intros Hd Hl Hg. unfold getByRsAccess, field. rewrite Hg, Hd.
  replace (expiresAt o <=? now) with false by (symmetry; apply Z.leb_gt; exact Hl).
  reflexivity.
Qed.

Lemma live_lookup_refresh now s r o k :
  deref s r = Some o -> now < expiresAt o ->
  JsMap.get k (rsRefreshMap s) = Some r ->
  fst (getByRsRefresh now k s) = Some r.
Proof.
  intros Hd Hl Hg. unfold getByRsRefresh, field. rewrite Hg, Hd.
  replace (expiresAt o <=? now) with false by (symmetry; apply Z.leb_gt; exact Hl).
  reflexivity.
Qed.

(** Both keys resolve to what [storeRsMapping] stored. *)
Lemma storeRsMapping_lookup :
  forall now uuid rsAccess prov rsRefresh ttlMs s now',
    refs_live s ->
    now' < now + ttlMs ->
    let r := fst (storeRsMapping now uuid rsAccess prov rsRefresh ttlMs s) in
    let s' := snd (storeRsMapping now uuid rsAccess prov rsRefresh ttlMs s) in
    fst (getByRsAccess now' rsAccess s') = Some r
    /\ fst (getByRsRefresh now' (Js.nullish rsRefresh uuid) s') = Some r
    /\ exists o, deref s' r = Some o
                 /\ rs_access_token o = rsAccess
                 /\ provider o = prov
                 /\ expiresAt o = now + ttlMs.
Proof.
  intros now uuid rsAccess prov rsRefresh ttlMs s now' Hlive Hnow.
  unfold storeRsMapping.
  set (s1 := with_access _ s).
  assert (Hheap : heap s1 = heap s) by reflexivity.
  assert (Hrefresh : rsRefreshMap s1 = rsRefreshMap s) by reflexivity.
  destruct (if Js.truthy_opt rsRefresh
            then match rsRefresh with
                 | Some rr => JsMap.get rr (rsRefreshMap s1)
                 | None => None
                 end
            else None) as [r|] eqn:Hex.
  - (* the refresh token is known: the record is re-keyed in place *)
    assert (Hkey : exists rr, rsRefresh = Some rr
                              /\ JsMap.get rr (rsRefreshMap s) = Some r).
    { destruct rsRefresh as [rr|]; [|discriminate].
      destruct (Js.truthy_opt (Some rr)); [|discriminate].
      exists rr. rewrite <- Hrefresh. split; [reflexivity|exact Hex]. }
    destruct Hkey as (rr & -> & Hget).
    pose proof (Hlive rr r Hget) as Hr.
    destruct (nth_error (heap s) r) as [o|] eqn:Ho;
      [|apply nth_error_None in Ho; lia].
    cbn [fst snd Js.nullish].
    set (o' := mkRsRecord rsAccess (rs_refresh_token o) prov (created_at o)
                          (now + ttlMs)).
    assert (Hd : forall acc, deref (with_access acc
                   (with_heap (list_update r
                      match deref (with_access
                                     (JsMap.delete (field rs_access_token "" s1 r)
                                                   (rsAccessMap s1)) s1) r with
                      | Some o0 => mkRsRecord rsAccess (rs_refresh_token o0) prov
                                              (created_at o0) (now + ttlMs)
                      | None => mkRsRecord rsAccess "" prov 0 (now + ttlMs)
                      end
                      (heap (with_access
                               (JsMap.delete (field rs_access_token "" s1 r)
                                             (rsAccessMap s1)) s1)))
                      (with_access
                         (JsMap.delete (field rs_access_token "" s1 r)
                                       (rsAccessMap s1)) s1))) r = Some o').
    { intros acc. unfold deref. cbn [heap with_access with_heap].
      rewrite Hheap, Ho. apply deref_update. exact Hr. }
    split; [|split].
    + apply (live_lookup now' _ r o' rsAccess (Hd _)); [exact Hnow|].
      cbn [rsAccessMap with_access with_heap]. apply get_set_same.
    + apply (live_lookup_refresh now' _ r o' rr (Hd _)); [exact Hnow|].
      cbn [rsRefreshMap with_access with_heap]. rewrite Hrefresh. exact Hget.
    + exists o'. split; [apply Hd|]. repeat split.
  - (* a new record *)
    cbn [fst snd].
    set (record := mkRsRecord rsAccess (Js.nullish rsRefresh uuid) prov now
                              (now + ttlMs)).
    assert (Hd : forall acc rfr,
               deref (with_refresh rfr
                        (with_access acc (with_heap (heap s1 ++ [record]) s1)))
                     (length (heap s1)) = Some record).
    { intros acc rfr. unfold deref. cbn [heap with_access with_heap with_refresh].
      apply nth_error_snoc. }
    split; [|split].
    + apply (live_lookup now' _ _ record rsAccess (Hd _ _)); [exact Hnow|].
      cbn [rsAccessMap with_access with_heap with_refresh]. apply get_set_same.
    + apply (live_lookup_refresh now' _ _ record _ (Hd _ _)); [exact Hnow|].
      cbn [rsRefreshMap with_access with_heap with_refresh rs_refresh_token].
      apply get_set_same.
    + exists record. split; [apply Hd|]. repeat split.
Qed.

(** X1.  What [storeRsMapping] stores is found again: until the record
    expires, the access token and the refresh key (the given refresh token,
    or the generated UUID when none is given) both resolve to the record
    the call returns, and that record carries the access token, the
    provider tokens and the expiry of the call. *)
Theorem storeRsMapping_then_lookup :
  forall now uuid rsAccess prov rsRefresh ttlMs s now',
    refs_live s ->
    now' < now + ttlMs ->
    let r := fst (storeRsMapping now uuid rsAccess prov rsRefresh ttlMs s) in
    let s' := snd (storeRsMapping now uuid rsAccess prov rsRefresh ttlMs s) in
    fst (getByRsAccess now' rsAccess s') = Some r
    /\ fst (getByRsRefresh now' (Js.nullish rsRefresh uuid) s') = Some r
    /\ exists o, deref s' r = Some o
                 /\ rs_access_token o = rsAccess
                 /\ provider o = prov
                 /\ expiresAt o = now + ttlMs.
Proof. exact storeRsMapping_lookup. Qed.

(** X2.  [updateByRsRefresh] with a new, different access token moves the
    record: the old access token resolves to nothing, the new one and the
    refresh token resolve to the record, which holds the new provider
    tokens.  Without a new access token the record keeps its key.  For a
    refresh token the store does not know, the answer is [null] and the
    store is as it was. *)
Theorem updateByRsRefresh_rekeys :
  (forall now rsRefresh prov a ttlMs s r o now',
      JsMap.get rsRefresh (rsRefreshMap s) = Some r ->
      deref s r = Some o ->
      Js.truthy_string a = true ->
      a <> rs_access_token o ->
      now' < now + ttlMs ->
      let s' := snd (updateByRsRefresh now rsRefresh prov (Some a) ttlMs s) in
      fst (updateByRsRefresh now rsRefresh prov (Some a) ttlMs s) = Some r
      /\ fst (getByRsAccess now' (rs_access_token o) s') = None
      /\ fst (getByRsAccess now' a s') = Some r
      /\ fst (getByRsRefresh now' rsRefresh s') = Some r
      /\ providerOf s' r = Some prov)
  /\ (forall now rsRefresh prov ttlMs s r o now',
        JsMap.get rsRefresh (rsRefreshMap s) = Some r ->
        deref s r = Some o ->
        now' < now + ttlMs ->
        let s' := snd (updateByRsRefresh now rsRefresh prov None ttlMs s) in
        fst (getByRsAccess now' (rs_access_token o) s') = Some r
        /\ fst (getByRsRefresh now' rsRefresh s') = Some r
        /\ providerOf s' r = Some prov)
  /\ (forall now rsRefresh prov a ttlMs s,
        JsMap.get rsRefresh (rsRefreshMap s) = None ->
        updateByRsRefresh now rsRefresh prov a ttlMs s = (None, s)).
Proof.
  split; [|split].
  - intros now rr prov a ttlMs s r o now' Hget Hd Ha Hne Hnow.
    assert (Hr : (r < length (heap s))%nat).
    { apply nth_error_Some. unfold deref in Hd. congruence. }
    unfold updateByRsRefresh. rewrite Hget, Hd, Ha.
    cbn [fst snd rs_access_token rs_refresh_token provider created_at expiresAt].
    set (o' := mkRsRecord a (rs_refresh_token o) prov now (now + ttlMs)).
    assert (Hd' : forall acc rfr m,
               deref (with_refresh rfr (with_access acc
                        (with_heap (list_update r o' (heap (with_access m s)))
                                   (with_access m s)))) r = Some o').
    { intros. unfold deref. cbn [heap with_access with_heap with_refresh].
      apply deref_update. exact Hr. }
    split; [reflexivity|]. split; [|split; [|split]].
    + unfold getByRsAccess.
      cbn [rsAccessMap with_access with_heap with_refresh].
      rewrite get_set_other by exact Hne. rewrite get_delete_same. reflexivity.
    + apply (live_lookup now' _ r o' a (Hd' _ _ _)); [exact Hnow|].
      cbn [rsAccessMap with_access with_heap with_refresh]. apply get_set_same.
    + apply (live_lookup_refresh now' _ r o' rr (Hd' _ _ _)); [exact Hnow|].
      cbn [rsRefreshMap with_access with_heap with_refresh]. apply get_set_same.
    + unfold providerOf. rewrite Hd'. reflexivity.
  - intros now rr prov ttlMs s r o now' Hget Hd Hnow.
    assert (Hr : (r < length (heap s))%nat).
    { apply nth_error_Some. unfold deref in Hd. congruence. }
    unfold updateByRsRefresh. rewrite Hget, Hd.
    cbn [fst snd rs_access_token rs_refresh_token provider created_at expiresAt].
    set (o' := mkRsRecord (rs_access_token o) (rs_refresh_token o) prov
                          (created_at o) (now + ttlMs)).
    assert (Hd' : forall acc rfr,
               deref (with_refresh rfr (with_access acc
                        (with_heap (list_update r o' (heap s)) s))) r = Some o').
    { intros. unfold deref. cbn [heap with_access with_heap with_refresh].
      apply deref_update. exact Hr. }
    split; [|split].
    + apply (live_lookup now' _ r o' _ (Hd' _ _)); [exact Hnow|].
      cbn [rsAccessMap with_access with_heap with_refresh]. apply get_set_same.
    + apply (live_lookup_refresh now' _ r o' rr (Hd' _ _)); [exact Hnow|].
      cbn [rsRefreshMap with_access with_heap with_refresh]. apply get_set_same.
    + unfold providerOf. rewrite Hd'. reflexivity.
  - intros now rr prov a ttlMs s Hget. unfold updateByRsRefresh.
    rewrite Hget. reflexivity.
Qed.

(** X3.  A lookup never hands out an expired record.  What [getByRsAccess]
    returns is the live record indexed under the token, and the store is
    untouched; a token whose record has expired answers [null] and the read
    deletes the record's access key and its refresh key.  [getByRsRefresh]
    does the same from the refresh side. *)
Theorem lookups_never_return_expired :
  (forall now k s r,
      fst (getByRsAccess now k s) = Some r ->
      JsMap.get k (rsAccessMap s) = Some r
      /\ now < field expiresAt 0 s r
      /\ snd (getByRsAccess now k s) = s)
  /\ (forall now k s r,
        JsMap.get k (rsAccessMap s) = Some r ->
        field expiresAt 0 s r <= now ->
        let s' := snd (getByRsAccess now k s) in
        fst (getByRsAccess now k s) = None
        /\ JsMap.get k (rsAccessMap s') = None
        /\ JsMap.get (field rs_refresh_token "" s r) (rsRefreshMap s') = None)
  /\ (forall now k s r,
        fst (getByRsRefresh now k s) = Some r ->
        JsMap.get k (rsRefreshMap s) = Some r
        /\ now < field expiresAt 0 s r
        /\ snd (getByRsRefresh now k s) = s)
  /\ (forall now k s r,
        JsMap.get k (rsRefreshMap s) = Some r ->
        field expiresAt 0 s r <= now ->
        let s' := snd (getByRsRefresh now k s) in
        fst (getByRsRefresh now k s) = None
        /\ JsMap.get k (rsRefreshMap s') = None
        /\ JsMap.get (field rs_access_token "" s r) (rsAccessMap s') = None).
Proof.
  split; [|split; [|split]].
  - intros now k s r. unfold getByRsAccess.
    destruct (JsMap.get k (rsAccessMap s)) as [r'|]; [|discriminate].
    destruct (field expiresAt 0 s r' <=? now) eqn:E; [discriminate|].
    cbn [fst snd]. intros [= ->]. apply Z.leb_gt in E. auto.
  - intros now k s r Hg He. unfold getByRsAccess. rewrite Hg.
    apply Z.leb_le in He. rewrite He. cbn [fst snd].
    split; [reflexivity|]. split.
    + cbn [rsAccessMap with_refresh with_access]. apply get_delete_same.
    + cbn [rsRefreshMap with_refresh with_access]. apply get_delete_same.
  - intros now k s r. unfold getByRsRefresh.
    destruct (JsMap.get k (rsRefreshMap s)) as [r'|]; [|discriminate].
    destruct (field expiresAt 0 s r' <=? now) eqn:E; [discriminate|].
    cbn [fst snd]. intros [= ->]. apply Z.leb_gt in E. auto.
  - intros now k s r Hg He. unfold getByRsRefresh. rewrite Hg.
    apply Z.leb_le in He. rewrite He. cbn [fst snd].
    split; [reflexivity|]. split.
    + cbn [rsRefreshMap with_refresh with_access]. apply get_delete_same.
    + cbn [rsAccessMap with_refresh with_access]. apply get_delete_same.
Qed.
End TokenStoreFacts.

(** ** Bounds and sweeps of the token store *)

Section StoreBounds.
Import Storage.

Lemma sort_insert_In {A : Type} (key : A -> Z) x y l :
  In y (sort_insert key x l) <-> y = x \/ In y l.
Proof.
  induction l as [|z l IH]; simpl.
  - intuition congruence.
  - destruct (key x <=? key z); simpl; [intuition congruence|].
    rewrite IH. intuition congruence.
Qed.

Lemma sort_by_In {A : Type} (key : A -> Z) l y :
  In y (sort_by key l) <-> In y l.
Proof.
  induction l as [|x l IH]; simpl; [tauto|].
  rewrite sort_insert_In, IH. intuition congruence.
Qed.

Lemma sort_insert_length {A : Type} (key : A -> Z) x l :
  length (sort_insert key x l) = S (length l).
Proof.
  induction l as [|z l IH]; simpl; [reflexivity|].
  destruct (key x <=? key z); simpl; [reflexivity|]. rewrite IH. reflexivity.
Qed.

Lemma sort_by_length {A : Type} (key : A -> Z) l :
  length (sort_by key l) = length l.
Proof.
  induction l as [|x l IH]; simpl; [reflexivity|].
  rewrite sort_insert_length, IH. reflexivity.
Qed.

Lemma delete_length {V : Type} k (m : JsMap.t V) :
  (length (JsMap.delete k m) <= length m)%nat.
Proof. unfold JsMap.delete. apply filter_length_le. Qed.

Lemma delete_length_In {V : Type} k v (m : JsMap.t V) :
  In (k, v) m -> (length (JsMap.delete k m) < length m)%nat.
Proof.
  unfold JsMap.delete. induction m as [|[k' v'] m IH]; simpl; [tauto|].
  intros [E|Hin].
  - injection E as -> ->. rewrite String.eqb_refl. simpl.
    pose proof (filter_length_le (fun e : string * V => negb (fst e =? k)%string) m).
    lia.
  - specialize (IH Hin). destruct (k' =? k)%string; simpl; lia.
Qed.

Lemma fold_delete_length {V : Type} (es : list (string * V)) :
  forall m : JsMap.t V,
    (length (fold_left (fun acc e => JsMap.delete (fst e) acc) es m)
     <= length m)%nat.
Proof.
  induction es as [|e es IH]; intros m; simpl; [lia|].
  specialize (IH (JsMap.delete (fst e) m)).
  pose proof (delete_length (fst e) m). lia.
Qed.

Lemma set_length {V : Type} k (v : V) (m : JsMap.t V) :
  (length (JsMap.set k v m) <= S (length m))%nat.
Proof.
  induction m as [|[k' v'] m IH]; simpl; [lia|].
  destruct (k' =? k)%string; simpl; lia.
Qed.

(** After [evictOldest] with a positive count there is room for one more
    entry. *)
Lemma evictOldest_room {V : Type} (time : V -> Z) (m : JsMap.t V) maxSize n :
  0 < maxSize -> JsMap.size m <= maxSize ->
  JsMap.size (evictOldest time m maxSize (S n)) < maxSize.
Proof.
  intros Hpos Hle. unfold evictOldest.
  destruct (JsMap.size m <? maxSize) eqn:E; [apply Z.ltb_lt; exact E|].
  apply Z.ltb_ge in E.
  pose proof (sort_by_length (fun e : string * V => time (snd e)) m) as Hlen.
  pose proof (sort_by_In (fun e : string * V => time (snd e)) m) as Hin.
  destruct (sort_by (fun e : string * V => time (snd e)) m) as [|[k v] es].
  - unfold JsMap.size in *. simpl in Hlen. lia.
  - cbn [firstn fold_left fst].
    pose proof (fold_delete_length (firstn n es) (JsMap.delete k m)) as Hfold.
    pose proof (delete_length_In k v m (proj1 (Hin (k, v)) (or_introl eq_refl)))
      as Hdel.
    unfold JsMap.size in *. lia.
Qed.

(** X4.  A saved transaction or code is read back until its time to live
    has passed, however full the store was: within the TTL the read
    returns what was saved and changes nothing; from the expiry instant on
    it answers [null] and removes the entry.  The TTL is the given number
    of seconds, or ten minutes when none (or zero) is given.  After
    [deleteTransaction] or [deleteCode] the entry is not found. *)
Theorem saved_entries_live_for_their_ttl :
  (forall now txnId txn ttl s now',
      let s1 := saveTransaction now txnId txn ttl s in
      (now' < now + ttl_or ttl (10 * 60 * 1000) ->
       getTransaction now' txnId s1 = (Some txn, s1))
      /\ (now + ttl_or ttl (10 * 60 * 1000) <= now' ->
          fst (getTransaction now' txnId s1) = None
          /\ JsMap.get txnId
               (transactions (snd (getTransaction now' txnId s1))) = None))
  /\ (forall now code txnId ttl s now',
        let s1 := saveCode now code txnId ttl s in
        (now' < now + ttl_or ttl (10 * 60 * 1000) ->
         getTxnIdByCode now' code s1 = (Some txnId, s1))
        /\ (now + ttl_or ttl (10 * 60 * 1000) <= now' ->
            fst (getTxnIdByCode now' code s1) = None
            /\ JsMap.get code
                 (codes (snd (getTxnIdByCode now' code s1))) = None))
  /\ (forall now txnId s,
        getTransaction now txnId (deleteTransaction txnId s)
        = (None, deleteTransaction txnId s))
  /\ (forall now code s,
        getTxnIdByCode now code (deleteCode code s)
        = (None, deleteCode code s)).
Proof.
  split; [|split; [|split]].
  - intros now txnId txn ttl s now' s1. subst s1.
    unfold getTransaction, saveTransaction.
    cbn [transactions with_transactions]. rewrite get_set_same.
    cbn [entry_expiresAt value].
    change DEFAULT_TXN_TTL_MS with (10 * 60 * 1000).
    split; intros Ht.
    + replace (now + ttl_or ttl (10 * 60 * 1000) <=? now') with false
        by (symmetry; apply Z.leb_gt; exact Ht).
      reflexivity.
    + replace (now + ttl_or ttl (10 * 60 * 1000) <=? now') with true
        by (symmetry; apply Z.leb_le; exact Ht).
      cbn [fst snd transactions with_transactions].
      split; [reflexivity|apply get_delete_same].
  - intros now code txnId ttl s now' s1. subst s1.
    unfold getTxnIdByCode, saveCode.
    cbn [codes with_codes]. rewrite get_set_same.
    cbn [entry_expiresAt value].
    change DEFAULT_CODE_TTL_MS with (10 * 60 * 1000).
    split; intros Ht.
    + replace (now + ttl_or ttl (10 * 60 * 1000) <=? now') with false
        by (symmetry; apply Z.leb_gt; exact Ht).
      reflexivity.
    + replace (now + ttl_or ttl (10 * 60 * 1000) <=? now') with true
        by (symmetry; apply Z.leb_le; exact Ht).
      cbn [fst snd codes with_codes].
      split; [reflexivity|apply get_delete_same].
  - intros now txnId s. unfold getTransaction, deleteTransaction.
    cbn [transactions with_transactions]. rewrite get_delete_same. reflexivity.
  - intros now code s. unfold getTxnIdByCode, deleteCode.
    cbn [codes with_codes]. rewrite get_delete_same. reflexivity.
Qed.

(** X5.  The caps hold from one call to the next: a store whose access
    index has at most [MAX_RS_RECORDS] keys has at most that many after
    [storeRsMapping], and one with at most [MAX_TRANSACTIONS] transactions
    has at most that many after [saveTransaction]; at the cap the call
    makes room before it writes. *)
Theorem stores_stay_within_their_caps :
  (forall now uuid rsAccess prov rsRefresh ttlMs s,
      JsMap.size (rsAccessMap s) <= MAX_RS_RECORDS ->
      JsMap.size
        (rsAccessMap
           (snd (storeRsMapping now uuid rsAccess prov rsRefresh ttlMs s)))
      <= MAX_RS_RECORDS)
  /\ (forall now txnId txn ttl s,
        JsMap.size (transactions s) <= MAX_TRANSACTIONS ->
        JsMap.size (transactions (saveTransaction now txnId txn ttl s))
        <= MAX_TRANSACTIONS).
Proof.
  split.
  - intros now uuid rsAccess prov rsRefresh ttlMs s Hle.
    pose proof (evictOldest_room (field created_at 0 s) (rsAccessMap s)
                  MAX_RS_RECORDS 9 eq_refl Hle) as Hroom.
    unfold storeRsMapping. cbv zeta.
    set (evicted := evictOldest (field created_at 0 s) (rsAccessMap s)
                                MAX_RS_RECORDS 10) in *.
    match goal with
    | |- context [match ?e with Some _ => _ | None => _ end] =>
        destruct e as [r|]
    end; cbn [snd rsAccessMap with_access with_heap with_refresh].
    + match goal with
      | |- JsMap.size (JsMap.set ?k ?v (JsMap.delete ?old ?m)) <= _ =>
          pose proof (set_length k v (JsMap.delete old m));
          pose proof (delete_length old m)
      end.
      unfold JsMap.size, ref in *. lia.
    + match goal with
      | |- JsMap.size (JsMap.set ?k ?v ?m) <= _ =>
          pose proof (set_length k v m)
      end.
      unfold JsMap.size, ref in *. lia.
  - intros now txnId txn ttl s Hle.
    pose proof (evictOldest_room (@entry_createdAt Transaction)
                  (transactions s) MAX_TRANSACTIONS 9 eq_refl Hle) as Hroom.
    unfold saveTransaction. cbn [transactions with_transactions].
    match goal with
    | |- JsMap.size (JsMap.set ?k ?v ?m) <= _ => pose proof (set_length k v m)
    end.
    unfold JsMap.size in *. lia.
Qed.

Lemma get_filter_keep {V : Type} (p : string * V -> bool) k v (m : JsMap.t V) :
  JsMap.get k m = Some v -> p (k, v) = true ->
  JsMap.get k (filter p m) = Some v.
Proof.
  unfold JsMap.get. intros Hg Hp.
  induction m as [|[k' v'] m IH]; simpl in *; [discriminate|].
  destruct (k' =? k)%string eqn:E.
  - apply String.eqb_eq in E. subst k'. injection Hg as ->.
    rewrite Hp. simpl. rewrite String.eqb_refl. reflexivity.
  - destruct (p (k', v')); simpl; [rewrite E|]; exact (IH Hg).
Qed.

(** X6.  The periodic [cleanup] removes expired entries and nothing else.
    It reads the clock three times: [now] for the two RS indexes,
    [tTransactions] and [tCodes] in the sweeps of the transactions and
    of the codes.  After it, every key left in the two RS indexes refers
    to a record that expires later than [now], every transaction left
    expires later than [tTransactions] and every code left later than
    [tCodes]; and whatever a read found before the sweep, made no earlier
    than the reading by which its map was swept, it finds after it. *)
Theorem cleanup_removes_exactly_the_expired :
  forall now tTransactions tCodes s,
    let s' := fst (token_cleanup now tTransactions tCodes s) in
    (forall k r, In (k, r) (rsAccessMap s') -> now < field expiresAt 0 s' r)
    /\ (forall k r, In (k, r) (rsRefreshMap s') -> now < field expiresAt 0 s' r)
    /\ (forall k e, In (k, e) (transactions s') ->
                    tTransactions < entry_expiresAt e)
    /\ (forall k e, In (k, e) (codes s') -> tCodes < entry_expiresAt e)
    /\ (forall now' k r,
          now <= now' ->
          fst (getByRsAccess now' k s) = Some r ->
          getByRsAccess now' k s' = (Some r, s'))
    /\ (forall now' k r,
          now <= now' ->
          fst (getByRsRefresh now' k s) = Some r ->
          getByRsRefresh now' k s' = (Some r, s'))
    /\ (forall now' k txn,
          tTransactions <= now' ->
          fst (getTransaction now' k s) = Some txn ->
          getTransaction now' k s' = (Some txn, s'))
    /\ (forall now' k txnId,
          tCodes <= now' ->
          fst (getTxnIdByCode now' k s) = Some txnId ->
          getTxnIdByCode now' k s' = (Some txnId, s')).
Proof.
  intros now tTransactions tCodes s s'. subst s'.
  unfold token_cleanup, cleanupExpired.
  cbn [fst]. repeat split.
  - intros k r Hin. apply filter_In in Hin. destruct Hin as [_ Hk].
    cbn [snd] in Hk. apply negb_true_iff, Z.leb_gt in Hk. exact Hk.
  - intros k r Hin. apply filter_In in Hin. destruct Hin as [_ Hk].
    cbn [snd] in Hk. apply negb_true_iff, Z.leb_gt in Hk. exact Hk.
  - intros k e Hin. apply filter_In in Hin. destruct Hin as [_ Hk].
    cbn [snd] in Hk. apply negb_true_iff, Z.leb_gt in Hk. exact Hk.
  - intros k e Hin. apply filter_In in Hin. destruct Hin as [_ Hk].
    cbn [snd] in Hk. apply negb_true_iff, Z.leb_gt in Hk. exact Hk.
  - intros now' k r Hle. unfold getByRsAccess.
    destruct (JsMap.get k (rsAccessMap s)) as [r'|] eqn:Hg; [|discriminate].
    destruct (field expiresAt 0 s r' <=? now') eqn:E; [discriminate|].
    cbn [fst]. intros [= ->]. cbn [rsAccessMap].
    apply Z.leb_gt in E.
    rewrite (get_filter_keep _ k r _ Hg)
      by (cbn [snd]; apply negb_true_iff, Z.leb_gt; lia).
    change (field expiresAt 0 (mkTokenStore (heap s) _ _ _ _) r)
      with (field expiresAt 0 s r).
    replace (field expiresAt 0 s r <=? now') with false
      by (symmetry; apply Z.leb_gt; exact E).
    reflexivity.
  - intros now' k r Hle. unfold getByRsRefresh.
    destruct (JsMap.get k (rsRefreshMap s)) as [r'|] eqn:Hg; [|discriminate].
    destruct (field expiresAt 0 s r' <=? now') eqn:E; [discriminate|].
    cbn [fst]. intros [= ->]. cbn [rsRefreshMap].
    apply Z.leb_gt in E.
    rewrite (get_filter_keep _ k r _ Hg)
      by (cbn [snd]; apply negb_true_iff, Z.leb_gt; lia).
    change (field expiresAt 0 (mkTokenStore (heap s) _ _ _ _) r)
      with (field expiresAt 0 s r).
    replace (field expiresAt 0 s r <=? now') with false
      by (symmetry; apply Z.leb_gt; exact E).
    reflexivity.
  - intros now' k txn Hle. unfold getTransaction.
    destruct (JsMap.get k (transactions s)) as [e|] eqn:Hg; [|discriminate].
    destruct (entry_expiresAt e <=? now') eqn:E; [discriminate|].
    cbn [fst]. intros [= <-]. cbn [transactions].
    apply Z.leb_gt in E.
    rewrite (get_filter_keep _ k e _ Hg)
      by (cbn [snd]; apply negb_true_iff, Z.leb_gt; lia).
    replace (entry_expiresAt e <=? now') with false
      by (symmetry; apply Z.leb_gt; exact E).
    reflexivity.
  - intros now' k txnId Hle. unfold getTxnIdByCode.
    destruct (JsMap.get k (codes s)) as [e|] eqn:Hg; [|discriminate].
    destruct (entry_expiresAt e <=? now') eqn:E; [discriminate|].
    cbn [fst]. intros [= <-]. cbn [codes].
    apply Z.leb_gt in E.
    rewrite (get_filter_keep _ k e _ Hg)
      by (cbn [snd]; apply negb_true_iff, Z.leb_gt; lia).
    replace (entry_expiresAt e <=? now') with false
      by (symmetry; apply Z.leb_gt; exact E).
    reflexivity.
Qed.
End StoreBounds.

(** ** Further invariants of the session store *)

Section SessionBounds.
Import SessionStore SessionProps.

Lemma set_length_present {V : Type} k (v old : V) (m : JsMap.t V) :
  JsMap.get k m = Some old -> length (JsMap.set k v m) = length m.
Proof.
  unfold JsMap.get. induction m as [|[k' v'] m IH]; simpl; [discriminate|].
  destruct (k' =? k)%string; simpl; [reflexivity|].
  intros Hg. rewrite (IH Hg). reflexivity.
Qed.

Lemma dropOldestCreated_room s :
  JsMap.size s <= MAX_SESSIONS ->
  JsMap.size (dropOldestCreated s) < MAX_SESSIONS.
Proof.
  intros Hle. unfold dropOldestCreated.
  destruct (MAX_SESSIONS <=? JsMap.size s) eqn:E;
    [apply Z.leb_le in E|apply Z.leb_gt in E; exact E].
  pose proof (sort_by_length
                (fun e : string * InternalSession => created_at (snd e)) s)
    as Hlen.
  pose proof (sort_by_In
                (fun e : string * InternalSession => created_at (snd e)) s)
    as Hin.
  destruct (sort_by (fun e : string * InternalSession => created_at (snd e)) s)
    as [|[k v] es].
  - unfold JsMap.size, MAX_SESSIONS, Storage.MAX_SESSIONS in *.
    simpl in Hlen. lia.
  - cbn [fst].
    pose proof (delete_length_In k v s (proj1 (Hin (k, v)) (or_introl eq_refl))).
    unfold JsMap.size in *. lia.
Qed.

Lemma deleteOldest_size now k s :
  JsMap.size (deleteOldestByApiKey now k s) <= JsMap.size s.
Proof.
  unfold deleteOldestByApiKey.
  destruct (oldest_loop k now None (JsMap.values s)) as [o|]; [|lia].
  pose proof (delete_length (sessionId o) s). unfold JsMap.size. lia.
Qed.

Lemma apply_within_cap op s :
  not_put op ->
  JsMap.size s <= MAX_SESSIONS ->
  JsMap.size (apply op s) <= MAX_SESSIONS.
Proof.
  intros Hop Hle. destruct op; cbn [apply]; try contradiction.
  - unfold create. cbn [snd].
    match goal with
    | |- JsMap.size (JsMap.set ?sid ?rec (dropOldestCreated ?s1)) <= _ =>
        assert (H1 : JsMap.size s1 <= MAX_SESSIONS);
        [|pose proof (dropOldestCreated_room s1 H1);
          pose proof (set_length sid rec (dropOldestCreated s1))]
    end.
    { destruct (MAX_SESSIONS_PER_API_KEY <=? countByApiKey tCount k s);
        [|exact Hle].
      pose proof (deleteOldest_size tOldest k s). lia. }
    unfold JsMap.size in *. lia.
  - unfold get.
    destruct (JsMap.get sid s) as [x|] eqn:Hg; cbn [snd]; [|exact Hle].
    destruct (expiresAt x <=? now); cbn [snd].
    + pose proof (delete_length sid s). unfold JsMap.size in *. lia.
    + unfold JsMap.size. rewrite (set_length_present sid _ x s Hg). exact Hle.
  - unfold update.
    destruct (JsMap.get sid s) as [x|] eqn:Hg; [|exact Hle].
    unfold JsMap.size. rewrite (set_length_present sid _ x s Hg). exact Hle.
  - unfold delete. pose proof (delete_length sid s).
    unfold JsMap.size in *. lia.
  - pose proof (deleteOldest_size now k s). lia.
  - unfold cleanup. cbn [fst].
    match goal with
    | |- JsMap.size (filter ?p s) <= _ => pose proof (filter_length_le p s)
    end.
    unfold JsMap.size in *. lia.
  - unfold ensure.
    destruct (JsMap.get sid s) as [x|] eqn:Hg.
    + unfold JsMap.size. rewrite (set_length_present sid _ x s Hg). exact Hle.
    + pose proof (dropOldestCreated_room s Hle).
      match goal with
      | |- JsMap.size (JsMap.set ?k ?v ?m) <= _ => pose proof (set_length k v m)
      end.
      unfold JsMap.size in *. lia.
Qed.

(** X7.  The store never holds more than [MAX_SESSIONS] sessions as long
    as it is written through [create] and [ensure]: from a store within
    the cap, any sequence of operations other than [put] leaves
    [getSessionCount] within the cap. *)
Theorem session_count_stays_within_max_sessions :
  forall ops s,
    Forall not_put ops ->
    getSessionCount s <= MAX_SESSIONS ->
    getSessionCount (run ops s) <= MAX_SESSIONS.
Proof.
  unfold getSessionCount, run.
  induction ops as [|op ops IH]; intros s Hops Hle; simpl; [exact Hle|].
  inversion Hops as [|? ? Hop Hrest]; subst.
  apply IH; [exact Hrest|]. apply apply_within_cap; assumption.
Qed.

Lemma delete_In {V : Type} k k' (v : V) (m : JsMap.t V) :
  In (k, v) (JsMap.delete k' m) -> In (k, v) m.
Proof. unfold JsMap.delete. intros Hin. apply filter_In in Hin. tauto. Qed.

Lemma deleteOldest_In now k sid x s :
  In (sid, x) (deleteOldestByApiKey now k s) -> In (sid, x) s.
Proof.
  unfold deleteOldestByApiKey.
  destruct (oldest_loop k now None (JsMap.values s)); [apply delete_In|tauto].
Qed.

Lemma dropOldestCreated_In sid x s :
  In (sid, x) (dropOldestCreated s) -> In (sid, x) s.
Proof.
  unfold dropOldestCreated.
  destruct (MAX_SESSIONS <=? JsMap.size s); [|tauto].
  destruct (sort_by _ s); [tauto|apply delete_In].
Qed.

Lemma apply_leaves_expiry sid op s x' :
  leaves_expiry sid op ->
  In (sid, x') (apply op s) ->
  exists x, In (sid, x) s /\ expiresAt x' = expiresAt x.
Proof.
  intros Hop Hin. destruct op; cbn [apply leaves_expiry] in *.
  - unfold create in Hin. cbn [snd] in Hin.
    apply set_In in Hin. destruct Hin as [Hin|E]; [|congruence].
    apply dropOldestCreated_In in Hin.
    exists x'. split; [|reflexivity].
    destruct (MAX_SESSIONS_PER_API_KEY <=? countByApiKey tCount k s);
      [exact (deleteOldest_In _ _ _ _ _ Hin)|exact Hin].
  - unfold get in Hin.
    destruct (JsMap.get sid0 s) as [x|] eqn:Hg; cbn [snd] in Hin;
      [|exists x'; split; [exact Hin|reflexivity]].
    destruct (expiresAt x <=? now); cbn [snd] in Hin.
    + exists x'. split; [exact (delete_In _ _ _ _ Hin)|reflexivity].
    + apply set_In in Hin. destruct Hin as [Hin|E].
      * exists x'. split; [exact Hin|reflexivity].
      * injection E as <- ->. exists x. split; [exact (get_In _ _ _ Hg)|].
        reflexivity.
  - unfold update in Hin.
    destruct (JsMap.get sid0 s) as [x|] eqn:Hg;
      [|exists x'; split; [exact Hin|reflexivity]].
    apply set_In in Hin. destruct Hin as [Hin|E].
    + exists x'. split; [exact Hin|reflexivity].
    + injection E as <- ->. exists x. split; [exact (get_In _ _ _ Hg)|].
      reflexivity.
  - exists x'. split; [exact (delete_In _ _ _ _ Hin)|reflexivity].
  - exists x'. split; [exact (deleteOldest_In _ _ _ _ _ Hin)|reflexivity].
  - unfold cleanup in Hin. cbn [fst] in Hin. apply filter_In in Hin.
    exists x'. split; [tauto|reflexivity].
  - unfold ensure in Hin.
    destruct (JsMap.get sid0 s) as [x|] eqn:Hg.
    + apply set_In in Hin. destruct Hin as [Hin|E]; [|congruence].
      exists x'. split; [exact Hin|reflexivity].
    + apply set_In in Hin. destruct Hin as [Hin|E]; [|congruence].
      exists x'. split; [exact (dropOldestCreated_In _ _ _ Hin)|reflexivity].
  - unfold put in Hin. apply set_In in Hin.
    destruct Hin as [Hin|E]; [|congruence].
    exists x'. split; [exact Hin|reflexivity].
Qed.

(** X8.  Reading or updating a session never extends its life.
    [expiresAt] is written by [create], [ensure] and [put] only: a session
    found under [sid] after any sequence of operations that has none of
    these three for [sid] was stored under [sid] before the sequence, with
    the same expiry. *)
Theorem session_expiry_is_not_extended_by_use :
  forall sid ops s x',
    Forall (leaves_expiry sid) ops ->
    JsMap.get sid (run ops s) = Some x' ->
    exists x, In (sid, x) s /\ expiresAt x' = expiresAt x.
Proof.
  intros sid ops s x' Hops Hg. apply get_In in Hg. revert s x' Hops Hg.
  unfold run.
  induction ops as [|op ops IH]; intros s x' Hops Hin; simpl in Hin.
  - exists x'. split; [exact Hin|reflexivity].
  - inversion Hops as [|? ? Hop Hrest]; subst.
    destruct (IH _ _ Hrest Hin) as (x1 & Hin1 & E1).
    destruct (apply_leaves_expiry sid op s x1 Hop Hin1) as (x & Hin0 & E0).
    exists x. split; [exact Hin0|congruence].
Qed.

Lemma sort_insert_recent x l :
  recent_first l ->
  recent_first (sort_insert (fun y => - last_accessed y) x l).
Proof.
  induction l as [|z l IH]; intros Hs; simpl.
  - split; [intros y []|exact I].
  - destruct Hs as [Hz Hl].
    destruct (- last_accessed x <=? - last_accessed z) eqn:E.
    + apply Z.leb_le in E. split; [|split; assumption].
      intros y [<-|Hy]; [lia|]. specialize (Hz y Hy). lia.
    + apply Z.leb_gt in E. split; [|exact (IH Hl)].
      intros y Hy. apply sort_insert_In in Hy.
      destruct Hy as [->|Hy]; [lia|exact (Hz y Hy)].
Qed.

(** X9.  [getByApiKey] lists exactly the stored sessions that are bound to
    the key and not expired, most recently accessed first, and as many of
    them as [countByApiKey] counts at the same instant. *)
Theorem getByApiKey_lists_live_sessions_recent_first :
  forall now k s,
    (forall x, In x (getByApiKey now k s)
               <-> In x (JsMap.values s)
                   /\ apiKey x = Some k /\ now < expiresAt x)
    /\ recent_first (getByApiKey now k s)
    /\ Z.of_nat (length (getByApiKey now k s)) = countByApiKey now k s.
Proof.
  intros now k s. unfold getByApiKey. split; [|split].
  - intros x. rewrite sort_by_In, filter_In. unfold live_for, key_is.
    rewrite andb_true_iff, Z.ltb_lt.
    destruct (apiKey x) as [k'|].
    + rewrite String.eqb_eq. intuition congruence.
    + intuition congruence.
  - induction (filter (live_for k now) (JsMap.values s)) as [|x l IH];
      simpl; [exact I|].
    apply sort_insert_recent. exact IH.
  - rewrite sort_by_length. reflexivity.
Qed.
End SessionBounds.

(** ** The refresh paths of [ensureFreshToken] *)

Section RefreshPaths.
Context `{UrlApi} `{OAuthLib}.
Import Storage Refresh.

Lemma getByRsAccess_found now k s r :
  fst (getByRsAccess now k s) = Some r -> getByRsAccess now k s = (Some r, s).
Proof.
  unfold getByRsAccess.
  destruct (JsMap.get k (rsAccessMap s)) as [r'|]; [|discriminate].
  destruct (field expiresAt 0 s r' <=? now); [discriminate|].
  cbn [fst]. intros [= ->]. reflexivity.
Qed.

(** X10.  [ensureFreshToken] writes only when it refreshed.  Whenever it
    reports [wasRefreshed: false] the token store is as the lookup left it
    and the throttle map is unchanged, and the token returned is the empty
    string or the provider access token of the record found.  It throws
    only when the provider's token endpoint URL cannot be built. *)
Theorem ensureFreshToken_writes_only_when_refreshed :
  (forall clk tok providerConfig store recently fresh store' recently',
      ensureFreshToken clk tok providerConfig store recently
      = Js.Ok (fresh, store', recently') ->
      wasRefreshed fresh = false ->
      store' = snd (getByRsAccess (clk 0%nat) tok store)
      /\ recently' = recently
      /\ (accessToken fresh = ""
          \/ exists r record,
               fst (getByRsAccess (clk 0%nat) tok store) = Some r
               /\ deref store r = Some record
               /\ accessToken fresh = access_token (provider record)))
  /\ (forall clk tok providerConfig store recently message,
        ensureFreshToken clk tok providerConfig store recently
        = Js.Throw message ->
        exists config,
          providerConfig = Some config
          /\ tokenEndpointOf config = Js.Throw message).
Proof.
  split.
  - intros clk tok pc store recently fresh store' recently'.
    unfold ensureFreshToken.
    destruct (getByRsAccess (clk 0%nat) tok store) as [found s1] eqn:Hget.
    cbn [snd fst].
    destruct found as [r|];
      [|intros [= <- <- <-] _; repeat split; left; reflexivity].
    assert (Hs1 : s1 = store).
    { pose proof (getByRsAccess_found (clk 0%nat) tok store r) as Hf.
      rewrite Hget in Hf. specialize (Hf eq_refl). congruence. }
    subst s1.
    destruct (deref store r) as [record|] eqn:Hd;
      [|intros [= <- <- <-] _; repeat split; left; reflexivity].
    assert (Hex : forall fresh0 st rc,
               Js.Ok (mkFreshToken (access_token (provider record)) false,
                      store, recently) = Js.Ok (fresh0, st, rc) ->
               st = store /\ rc = recently
               /\ (accessToken fresh0 = ""
                   \/ exists r0 record0,
                        Some r = Some r0 /\ deref store r0 = Some record0
                        /\ accessToken fresh0
                           = access_token (provider record0))).
    { intros fresh0 st rc [= <- <- <-]. repeat split.
      right. exists r, record. repeat split. exact Hd. }
    destruct (negb (Js.truthy_string (access_token (provider record))));
      [intros [= <- <- <-] _; repeat split; left; reflexivity|].
    destruct (negb (isTokenExpiredOrExpiring _ _ _));
      [intros E _; exact (Hex _ _ _ E)|].
    destruct (shouldSkipRefresh _ _ _); [intros E _; exact (Hex _ _ _ E)|].
    destruct (negb (Js.truthy_opt _)); [intros E _; exact (Hex _ _ _ E)|].
    destruct pc as [config|]; [|intros E _; exact (Hex _ _ _ E)].
    destruct (refreshProviderToken _ _ _) as [result|m]; [|discriminate].
    destruct (success result); [|intros E _; exact (Hex _ _ _ E)].
    destruct (tokens result) as [tokens|]; [|intros E _; exact (Hex _ _ _ E)].
    destruct (updateByRsRefresh _ _ _ _ _ _) as [u s2].
    intros [= <- <- <-]. discriminate.
  - intros clk tok pc store recently message. unfold ensureFreshToken.
    destruct (getByRsAccess (clk 0%nat) tok store) as [found s1].
    destruct found as [r|]; [|discriminate].
    destruct (deref s1 r) as [record|]; [|discriminate].
    destruct (negb (Js.truthy_string _)); [discriminate|].
    destruct (negb (isTokenExpiredOrExpiring _ _ _)); [discriminate|].
    destruct (shouldSkipRefresh _ _ _); [discriminate|].
    destruct (negb (Js.truthy_opt _)); [discriminate|].
    destruct pc as [config|]; [|discriminate].
    unfold refreshProviderToken.
    destruct (tokenEndpointOf config) as [endpoint|m] eqn:He.
    + match goal with
      | |- context [success ?res] => destruct (success res), (tokens res)
      end; try discriminate.
      destruct (updateByRsRefresh _ _ _ _ _ _). discriminate.
    + intros [= <-]. exists config. split; [reflexivity|exact He].
Qed.

Lemma markRefreshed_get tSet tSweep tok (m : Recently) :
  tSweep - tSet <= REFRESH_COOLDOWN_MS ->
  JsMap.get tok (markRefreshed tSet tSweep tok m) = Some tSet.
Proof.
  intros Hs. unfold markRefreshed.
  destruct (1000 <? JsMap.size (JsMap.set tok tSet m)).
  - apply get_filter_keep; [apply get_set_same|].
    cbn [snd]. apply negb_true_iff, Z.ltb_ge. exact Hs.
  - apply get_set_same.
Qed.

(** X11.  The refresh throttle.  After a call that refreshed, a further
    call for the same RS access token made within thirty seconds of the
    mark never reaches the provider: against any store it answers
    [wasRefreshed: false] and leaves the throttle map as it is. *)
Theorem refresh_is_throttled_within_cooldown :
  forall clk clk' tok providerConfig providerConfig' store store2 recently
         fresh store' recently',
    ensureFreshToken clk tok providerConfig store recently
    = Js.Ok (fresh, store', recently') ->
    wasRefreshed fresh = true ->
    clk 5%nat <> 0 ->
    clk 6%nat - clk 5%nat <= REFRESH_COOLDOWN_MS ->
    clk' 2%nat - clk 5%nat < REFRESH_COOLDOWN_MS ->
    exists fresh2 store2',
      ensureFreshToken clk' tok providerConfig' store2 recently'
      = Js.Ok (fresh2, store2', recently')
      /\ wasRefreshed fresh2 = false.
Proof.
  intros clk clk' tok pc pc' store store2 recently fresh store' recently'
         Hfirst Hwas Hnz Hsweep Hsoon.
  assert (Hrec : recently'
                 = markRefreshed (clk 5%nat) (clk 6%nat) tok recently).
  { revert Hfirst. unfold ensureFreshToken.
    destruct (getByRsAccess (clk 0%nat) tok store) as [found s1].
    destruct found as [r|]; [|intros [= <- <- <-]; discriminate].
    destruct (deref s1 r) as [record|]; [|intros [= <- <- <-]; discriminate].
    destruct (negb (Js.truthy_string _)); [intros [= <- <- <-]; discriminate|].
    destruct (negb (isTokenExpiredOrExpiring _ _ _));
      [intros [= <- <- <-]; discriminate|].
    destruct (shouldSkipRefresh _ _ _); [intros [= <- <- <-]; discriminate|].
    destruct (negb (Js.truthy_opt _)); [intros [= <- <- <-]; discriminate|].
    destruct pc as [config|]; [|intros [= <- <- <-]; discriminate].
    destruct (refreshProviderToken _ _ _) as [result|m]; [|discriminate].
    destruct (success result); [|intros [= <- <- <-]; discriminate].
    destruct (tokens result) as [tokens|]; [|intros [= <- <- <-]; discriminate].
    destruct (updateByRsRefresh _ _ _ _ _ _) as [u s2].
    intros [= _ _ <-]. reflexivity. }
  assert (Hskip : shouldSkipRefresh (clk' 2%nat) tok recently' = true).
  { unfold shouldSkipRefresh. rewrite Hrec.
    rewrite (markRefreshed_get _ _ _ _ Hsweep).
    apply andb_true_iff. split.
    - apply negb_true_iff, Z.eqb_neq. exact Hnz.
    - apply Z.ltb_lt. exact Hsoon. }
  unfold ensureFreshToken.
  destruct (getByRsAccess (clk' 0%nat) tok store2) as [found s1].
  destruct found as [r|]; [|eexists _, _; split; reflexivity].
  destruct (deref s1 r) as [record|]; [|eexists _, _; split; reflexivity].
  destruct (negb (Js.truthy_string _)); [eexists _, _; split; reflexivity|].
  destruct (negb (isTokenExpiredOrExpiring _ _ _));
    [eexists _, _; split; reflexivity|].
  rewrite Hskip. eexists _, _; split; reflexivity.
Qed.
End RefreshPaths.

(** ** The two grants of the token endpoint *)

Section GrantFacts.
Context `{UrlApi} `{OAuthLib} `{Entropy}.
Import Storage StoreProps Flow.

Lemma getByRsRefresh_found now k s r :
  fst (getByRsRefresh now k s) = Some r ->
  getByRsRefresh now k s = (Some r, s)
  /\ JsMap.get k (rsRefreshMap s) = Some r.
Proof.
  unfold getByRsRefresh.
  destruct (JsMap.get k (rsRefreshMap s)) as [r'|]; [|discriminate].
  destruct (field expiresAt 0 s r' <=? now); [discriminate|].
  cbn [fst]. intros [= ->]. split; reflexivity.
Qed.

(** X12.  An authorization code is single-use.  After an exchange that
    succeeded, every further exchange of the same code fails with
    [invalid_grant] and changes nothing, whatever its verifier, its clock,
    its provider configuration and its random draws: the further
    exchange runs on a platform of its own, which need not draw what the
    first one drew. *)
Theorem authorization_code_is_single_use :
  forall (platform platform' : UrlApi) (provider provider' : OAuthLib)
         (draws draws' : Entropy)
         clk code verifier providerConfig store response store',
    @handleToken platform provider draws clk
                 (AuthorizationCodeGrant code verifier) providerConfig store
    = (Js.Ok response, store') ->
    forall clk' verifier' providerConfig',
      @handleToken platform' provider' draws' clk'
                   (AuthorizationCodeGrant code verifier') providerConfig'
                   store'
      = (Js.Throw "invalid_grant", store').
Proof.
  intros platform platform' provider provider' draws draws'
         clk code verifier pc store response store'.
  cbn [handleToken]. unfold handleCodeGrant at 1.
  destruct (getTxnIdByCode (clk 0%nat) code store) as [[txnId|] s1];
    [|discriminate].
  destruct (negb (Js.truthy_string txnId)); [discriminate|].
  destruct (getTransaction (clk 1%nat) txnId s1) as [[txn|] s2];
    [|discriminate].
  destruct (negb (codeChallenge txn
                  =? @calculatePKCECodeChallenge provider verifier)%string);
    [discriminate|].
  intros [= _ <-] clk' verifier' pc'.
  unfold handleCodeGrant, getTxnIdByCode, deleteCode.
  cbn [codes with_codes]. rewrite get_delete_same. reflexivity.
Qed.

(** X13.  A refresh grant that succeeds answers with the refresh token it
    was given and an access token that resolves, until the record expires,
    to the record the refresh token resolves to.  The access token is a
    freshly minted one exactly when the provider refresh token stored
    after the grant differs from the one stored before, and then the
    former access token no longer resolves; otherwise it is the record's
    access token as before. *)
Theorem refresh_grant_answers_a_resolving_pair :
  forall clk refreshToken providerConfig store response store' now',
    handleToken clk (RefreshTokenGrant refreshToken) providerConfig store
    = (Js.Ok response, store') ->
    Js.truthy_string (generateOpaqueToken 0 24) = true ->
    now' < clk 3%nat + DEFAULT_RS_TOKEN_TTL_MS ->
    tok_refresh_token response = refreshToken
    /\ exists r before after,
         fst (getByRsRefresh (clk 0%nat) refreshToken store) = Some r
         /\ deref store r = Some before
         /\ deref store' r = Some after
         /\ fst (getByRsRefresh now' refreshToken store') = Some r
         /\ fst (getByRsAccess now' (tok_access_token response) store') = Some r
         /\ rs_access_token after = tok_access_token response
         /\ tok_access_token response
            = (if Js.same_opt (refresh_token (provider after))
                              (refresh_token (provider before))
               then rs_access_token before
               else generateOpaqueToken 0 24)
         /\ (rs_access_token before <> tok_access_token response ->
             fst (getByRsAccess now' (rs_access_token before) store') = None).
Proof.
  intros clk rt pc store response store' now'.
  cbn [handleToken]. unfold handleRefreshGrant.
  destruct (getByRsRefresh (clk 0%nat) rt store) as [found s1] eqn:Hfound.
  destruct found as [r|]; [|discriminate].
  destruct (getByRsRefresh_found (clk 0%nat) rt store r) as [Hsame Hget];
    [rewrite Hfound; reflexivity|].
  assert (s1 = store) by congruence. subst s1.
  destruct (deref store r) as [rec|] eqn:Hd; [|discriminate].
  assert (Hr : (r < length (heap store))%nat).
  { apply nth_error_Some. unfold deref in Hd. congruence. }
  match goal with
  | |- context [match ?e with Js.Ok _ => _ | Js.Throw _ => _ end] =>
      destruct e as [prov|m]
  end; [|discriminate].
  unfold updateByRsRefresh. rewrite Hget, Hd.
  destruct (negb (Js.same_opt (refresh_token prov) (refresh_token (provider rec))))
    eqn:Hrot; intros E Htruthy Hnow.
  - rewrite Htruthy in E.
    cbn [rs_access_token rs_refresh_token provider created_at expiresAt] in E.
    injection E as <- <-. cbn [tok_refresh_token tok_access_token Js.nullish].
    split; [reflexivity|].
    set (after := mkRsRecord (generateOpaqueToken 0 24) (rs_refresh_token rec)
                             prov (clk 3%nat)
                             (clk 3%nat + DEFAULT_RS_TOKEN_TTL_MS)).
    assert (Hd' : forall acc rfr m,
               deref (with_refresh rfr (with_access acc
                        (with_heap (list_update r after
                                      (heap (with_access m store)))
                                   (with_access m store)))) r = Some after).
    { intros. unfold deref. cbn [heap with_access with_heap with_refresh].
      apply deref_update. exact Hr. }
    exists r, rec, after.
    split; [reflexivity|]. split; [exact Hd|]. split; [apply Hd'|].
    split.
    { apply (live_lookup_refresh now' _ r after rt (Hd' _ _ _)); [exact Hnow|].
      cbn [rsRefreshMap with_access with_heap with_refresh]. apply get_set_same. }
    split.
    { apply (live_lookup now' _ r after _ (Hd' _ _ _)); [exact Hnow|].
      cbn [rsAccessMap with_access with_heap with_refresh]. apply get_set_same. }
    split; [reflexivity|].
    split.
    { subst after. cbn [provider]. apply negb_true_iff in Hrot.
      rewrite Hrot. reflexivity. }
    intros Hne. unfold getByRsAccess.
    cbn [rsAccessMap with_access with_heap with_refresh].
    rewrite get_set_other by (intros E; apply Hne; symmetry; exact E).
    rewrite get_delete_same. reflexivity.
  - cbn [rs_access_token rs_refresh_token provider created_at expiresAt] in E.
    injection E as <- <-. cbn [tok_refresh_token tok_access_token Js.nullish].
    split; [reflexivity|].
    set (after := mkRsRecord (rs_access_token rec) (rs_refresh_token rec)
                             prov (created_at rec)
                             (clk 3%nat + DEFAULT_RS_TOKEN_TTL_MS)).
    assert (Hd' : forall acc rfr,
               deref (with_refresh rfr (with_access acc
                        (with_heap (list_update r after (heap store)) store)))
                     r = Some after).
    { intros. unfold deref. cbn [heap with_access with_heap with_refresh].
      apply deref_update. exact Hr. }
    exists r, rec, after.
    split; [reflexivity|]. split; [exact Hd|]. split; [apply Hd'|].
    split.
    { apply (live_lookup_refresh now' _ r after rt (Hd' _ _)); [exact Hnow|].
      cbn [rsRefreshMap with_access with_heap with_refresh]. apply get_set_same. }
    split.
    { apply (live_lookup now' _ r after _ (Hd' _ _)); [exact Hnow|].
      cbn [rsAccessMap with_access with_heap with_refresh]. apply get_set_same. }
    split; [reflexivity|].
    split.
    { subst after. cbn [provider]. apply negb_false_iff in Hrot.
      rewrite Hrot. reflexivity. }
    intros Hne. exfalso. apply Hne. reflexivity.
Qed.
End GrantFacts.

(** ** From a transaction with provider tokens to the RS tokens *)

Section ExchangeToLookup.
Context `{UrlApi} `{OAuthLib} `{Entropy}.
Import Storage StoreProps Flow.

Lemma lookup_same_rs now k s s' :
  same_rs_records s s' ->
  fst (getByRsAccess now k s') = fst (getByRsAccess now k s)
  /\ fst (getByRsRefresh now k s') = fst (getByRsRefresh now k s).
Proof.
  intros (Hh & Ha & Hr).
  unfold getByRsAccess, getByRsRefresh, field, deref. rewrite Hh, Ha, Hr.
  split.
  - destruct (JsMap.get k (rsAccessMap s)) as [r|]; [|reflexivity].
    destruct (match nth_error (heap s) r with
              | Some o => expiresAt o
              | None => 0
              end <=? now); reflexivity.
  - destruct (JsMap.get k (rsRefreshMap s)) as [r|]; [|reflexivity].
    destruct (match nth_error (heap s) r with
              | Some o => expiresAt o
              | None => 0
              end <=? now); reflexivity.
Qed.

(** X14.  An exchange for a transaction that carries provider tokens
    stores them under the pair it answers.  When the code resolves to a
    transaction whose provider access token is not empty and the verifier
    matches its challenge, the exchange succeeds with the two tokens just
    minted; until the record expires both resolve to one record, which
    holds exactly the transaction's provider tokens; and the code and the
    transaction are gone. *)
Theorem code_exchange_stores_the_provider_tokens :
  forall clk code verifier providerConfig store txnId txn p now',
    refs_live store ->
    fst (getTxnIdByCode (clk 0%nat) code store) = Some txnId ->
    Js.truthy_string txnId = true ->
    fst (getTransaction (clk 1%nat) txnId store) = Some txn ->
    txn_provider txn = Some p ->
    Js.truthy_string (access_token p) = true ->
    calculatePKCECodeChallenge verifier = codeChallenge txn ->
    now' < clk 2%nat + DEFAULT_RS_TOKEN_TTL_MS ->
    exists granted store' r,
      handleToken clk (AuthorizationCodeGrant code verifier) providerConfig
                  store
      = (Js.Ok (mkTokenResponse (generateOpaqueToken 0 24)
                  (generateOpaqueToken 1 24) "bearer" 3600 granted),
         store')
      /\ fst (getByRsAccess now' (generateOpaqueToken 0 24) store') = Some r
      /\ fst (getByRsRefresh now' (generateOpaqueToken 1 24) store') = Some r
      /\ providerOf store' r = Some p
      /\ JsMap.get code (codes store') = None
      /\ JsMap.get txnId (transactions store') = None.
Proof.
  intros clk code verifier pc store txnId txn p now'
         Hlive Hc Ht Hx Hp Hacc Hpkce Hnow.
  cbn [handleToken]. rewrite (handleCodeGrant_found _ _ _ _ _ _ Hc Ht Hx).
  rewrite Hpkce, String.eqb_refl. cbn [negb]. rewrite Hp, Hacc. cbv zeta.
  destruct (storeRsMapping_lookup (clk 2%nat) (randomUUID 0)
              (generateOpaqueToken 0 24) p (Some (generateOpaqueToken 1 24))
              DEFAULT_RS_TOKEN_TTL_MS store now' Hlive Hnow)
    as (Ha & Hr & o & Hd & _ & Hprov & _).
  cbn [Js.nullish] in Hr.
  set (stored := storeRsMapping (clk 2%nat) (randomUUID 0)
                   (generateOpaqueToken 0 24) p
                   (Some (generateOpaqueToken 1 24))
                   DEFAULT_RS_TOKEN_TTL_MS store) in *.
  assert (Hrs : same_rs_records (snd stored)
                  (deleteCode code (deleteTransaction txnId (snd stored))))
    by (repeat split).
  destruct (lookup_same_rs now' (generateOpaqueToken 0 24) _ _ Hrs) as [Ea _].
  destruct (lookup_same_rs now' (generateOpaqueToken 1 24) _ _ Hrs) as [_ Er].
  eexists _, _, (fst stored). split; [reflexivity|].
  split; [rewrite Ea; exact Ha|].
  split; [rewrite Er; exact Hr|].
  split.
  { unfold providerOf.
    change (deref (deleteCode code (deleteTransaction txnId (snd stored)))
                  (fst stored))
      with (deref (snd stored) (fst stored)).
    rewrite Hd, Hprov. reflexivity. }
  split.
  - unfold deleteCode. cbn [codes with_codes]. apply get_delete_same.
  - unfold deleteCode, deleteTransaction.
    cbn [transactions with_codes with_transactions]. apply get_delete_same.
Qed.
End ExchangeToLookup.

(** ** What a successful authorize request went through *)

Section AuthorizeFacts.
Context `{UrlApi} `{OAuthLib} `{Entropy} `{StateCodec} `{JsonCodec}
        `{Cimd.Network}.
Import Storage Flow.

Lemma readResponse_success url limit response metadata :
  Cimd.readResponse url limit response = Cimd.Success metadata ->
  Cimd.ok response = true
  /\ (Str.includes "application/json"
                   (Js.or_string (Cimd.content_type response) "")
      || Str.includes "text/json"
                      (Js.or_string (Cimd.content_type response) "")) = true
  /\ Cimd.client_id metadata = url
  /\ exists text data,
       Cimd.body response = Cimd.BodyText text
       /\ Z.of_nat (String.length text) <= limit
       /\ json_parse text = Some data
       /\ Cimd.schema_safeParse data = inl metadata.
Proof.
  unfold Cimd.readResponse.
  destruct (Cimd.ok response); [|discriminate]. cbn [negb].
  match goal with
  | |- context [if ?c then Cimd.Failure "metadata_too_large" else _] =>
      destruct c
  end; [discriminate|].
  destruct (Str.includes "application/json" _ || Str.includes "text/json" _);
    [|discriminate].
  cbn [negb].
  destruct (Cimd.body response) as [text| |] eqn:Hb; try discriminate.
  destruct (limit <? Z.of_nat (String.length text)) eqn:Hlen; [discriminate|].
  destruct (json_parse text) as [data|] eqn:Hp; [|discriminate].
  destruct (Cimd.schema_safeParse data) as [parsed|] eqn:Hsc; [|discriminate].
  destruct (Cimd.client_id parsed =? url)%string eqn:Hid; [|discriminate].
  cbn [negb]. intros [= <-]. apply String.eqb_eq in Hid. apply Z.ltb_ge in Hlen.
  split; [reflexivity|]. split; [reflexivity|]. split; [exact Hid|].
  exists text, data.
  split; [reflexivity|]. split; [exact Hlen|]. split; [exact Hp|exact Hsc].
Qed.

Lemma fetchClientMetadata_success url config metadata log :
  Cimd.fetchClientMetadata url config = (Cimd.Success metadata, log) ->
  Ssrf.checkSsrfSafe url (Some true) = Ssrf.Safe
  /\ Cimd.isDomainAllowed
       url (match config with
            | Some c => Cimd.allowedDomains c
            | None => None
            end) = true
  /\ log = [url]
  /\ Cimd.client_id metadata = url
  /\ exists response,
       Cimd.fetch url (Js.nullish (match config with
                                   | Some c => Cimd.timeoutMs c
                                   | None => None
                                   end) 5000)
       = Cimd.Responded response
       /\ Cimd.readResponse
            url (Js.nullish (match config with
                             | Some c => Cimd.maxBytes c
                             | None => None
                             end) 65536) response
          = Cimd.Success metadata.
Proof.
  unfold Cimd.fetchClientMetadata, Ssrf.assertSsrfSafe.
  destruct (Ssrf.checkSsrfSafe url (Some true)); [|discriminate].
  destruct (Cimd.isDomainAllowed url _); [|discriminate]. cbn [negb].
  destruct (Cimd.fetch url _) as [response| |]; try discriminate.
  intros [= Hread <-].
  split; [reflexivity|]. split; [reflexivity|]. split; [reflexivity|].
  split; [exact (proj1 (proj2 (proj2 (readResponse_success _ _ _ _ Hread))))|].
  exists response. split; [reflexivity|exact Hread].
Qed.

(** X15.  What a fetched client metadata document went through.  When
    [fetchClientMetadata] succeeds, the URL passed the SSRF check with a
    non-root path required and the domain allowlist, exactly one fetch
    was made, of that URL, and it was answered with an ok status, a JSON
    content type and a body within the byte limit that parses to the
    metadata returned, whose [client_id] is the URL itself. *)
Theorem fetched_metadata_passed_every_check :
  forall url config metadata log,
    Cimd.fetchClientMetadata url config = (Cimd.Success metadata, log) ->
    Ssrf.checkSsrfSafe url (Some true) = Ssrf.Safe
    /\ Cimd.isDomainAllowed
         url (match config with
              | Some c => Cimd.allowedDomains c
              | None => None
              end) = true
    /\ log = [url]
    /\ Cimd.client_id metadata = url
    /\ exists response text data,
         Cimd.fetch url (Js.nullish (match config with
                                     | Some c => Cimd.timeoutMs c
                                     | None => None
                                     end) 5000)
         = Cimd.Responded response
         /\ Cimd.ok response = true
         /\ (Str.includes "application/json"
                          (Js.or_string (Cimd.content_type response) "")
             || Str.includes "text/json"
                             (Js.or_string (Cimd.content_type response) ""))
            = true
         /\ Cimd.body response = Cimd.BodyText text
         /\ Z.of_nat (String.length text)
            <= Js.nullish (match config with
                           | Some c => Cimd.maxBytes c
                           | None => None
                           end) 65536
         /\ json_parse text = Some data
         /\ Cimd.schema_safeParse data = inl metadata.
Proof.
  intros url config metadata log Hf.
  destruct (fetchClientMetadata_success _ _ _ _ Hf)
    as (Hs & Hd & Hl & Hc & response & Hfetch & Hread).
  destruct (readResponse_success _ _ _ _ Hread)
    as (Hok & Hct & _ & text & data & Hb & Hlen & Hp & Hsc).
  split; [exact Hs|]. split; [exact Hd|]. split; [exact Hl|].
  split; [exact Hc|].
  exists response, text, data.
  split; [exact Hfetch|]. split; [exact Hok|]. split; [exact Hct|].
  split; [exact Hb|]. split; [exact Hlen|]. split; [exact Hp|exact Hsc].
Qed.

Lemma checkCimdClient_ok input options log :
  checkCimdClient input options = (Js.Ok tt, log) ->
  forall cid,
    in_clientId input = Some cid ->
    (Cimd.isClientIdUrl cid = true ->
     exists metadata,
       log = [cid]
       /\ Cimd.client_id metadata = cid
       /\ In (in_redirectUri input) (Cimd.redirect_uris metadata)
       /\ Ssrf.checkSsrfSafe cid (Some true) = Ssrf.Safe)
    /\ (Cimd.isClientIdUrl cid = false -> log = []).
Proof.
  intros Hc cid Hcid. unfold checkCimdClient in Hc. rewrite Hcid in Hc.
  split; intros Hurl; rewrite Hurl in Hc.
  - rewrite (clientIdUrl_truthy _ Hurl) in Hc. cbn [andb] in Hc.
    destruct (negb (Js.nullish _ true)) in Hc; [discriminate|].
    destruct (Cimd.fetchClientMetadata cid _) as [result log'] eqn:Hf.
    destruct result as [metadata|e]; [|discriminate].
    destruct (Cimd.validateRedirectUri metadata (in_redirectUri input)) eqn:Hv;
      [|discriminate].
    cbn [negb] in Hc. injection Hc as <-.
    destruct (fetchClientMetadata_success _ _ _ _ Hf) as (Hs & _ & Hl & Hm & _).
    exists metadata.
    split; [exact Hl|]. split; [exact Hm|]. split; [|exact Hs].
    apply mem_In. exact Hv.
  - rewrite andb_false_r in Hc. congruence.
Qed.

(** X16.  What a successful authorize request guarantees.  The request
    carried a redirect URI and an S256 code challenge; the RS records are
    untouched; the transaction is stored under the returned [txnId] and,
    until it expires, reads back with the request's challenge, state,
    scope and session id and no provider tokens.  If the client id is a
    client-metadata URL, it passed the SSRF check, its document was the
    one fetch made, names the URL as [client_id], and lists the request's
    redirect URI; for any other client id nothing was fetched. *)
Theorem authorize_success_guarantees :
  forall clk input providerConfig oauthConfig options store res store' log,
    handleAuthorize clk input providerConfig oauthConfig options store
    = (Js.Ok res, store', log) ->
    Js.truthy_string (in_redirectUri input) = true
    /\ Js.truthy_string (in_codeChallenge input) = true
    /\ in_codeChallengeMethod input = "S256"
    /\ same_rs_records store store'
    /\ (forall now',
          now' < clk 1%nat + DEFAULT_TXN_TTL_MS ->
          fst (getTransaction now' (txnId res) store')
          = Some (mkTransaction (in_codeChallenge input) (in_state input)
                                (in_requestedScope input) (clk 0%nat)
                                (in_sid input) None))
    /\ (forall cid,
          in_clientId input = Some cid ->
          (Cimd.isClientIdUrl cid = true ->
           exists metadata,
             log = [cid]
             /\ Cimd.client_id metadata = cid
             /\ In (in_redirectUri input) (Cimd.redirect_uris metadata)
             /\ Ssrf.checkSsrfSafe cid (Some true) = Ssrf.Safe)
          /\ (Cimd.isClientIdUrl cid = false -> log = [])).
Proof.
  intros clk input pc oc options store res store' log. unfold handleAuthorize.
  destruct (Js.truthy_string (in_redirectUri input)); [|discriminate].
  destruct (Js.truthy_string (in_codeChallenge input)); [|discriminate].
  destruct (in_codeChallengeMethod input =? "S256")%string eqn:Hm;
    [|discriminate].
  apply String.eqb_eq in Hm. cbn [negb orb].
  destruct (checkCimdClient input options) as [[[]|m] log0] eqn:Hc;
    [|discriminate].
  set (txn := generateOpaqueToken 0 16).
  set (t := mkTransaction _ _ _ _ _ None).
  set (s1 := saveTransaction (clk 1%nat) txn t None store).
  assert (Hread : forall now' s,
             transactions s = transactions s1 ->
             now' < clk 1%nat + DEFAULT_TXN_TTL_MS ->
             fst (getTransaction now' txn s) = Some t).
  { intros now' s Hs Hnow. unfold getTransaction. rewrite Hs.
    subst s1. unfold saveTransaction. cbn [transactions with_transactions].
    rewrite get_set_same. cbn [entry_expiresAt ttl_or].
    replace (clk 1%nat + DEFAULT_TXN_TTL_MS <=? now') with false
      by (symmetry; apply Z.leb_gt; exact Hnow).
    reflexivity. }
  intros Hres.
  assert (Hout : txnId res = txn
                 /\ same_rs_records store store'
                 /\ transactions store' = transactions s1
                 /\ log = log0).
  { destruct (providerClient pc) as [cid|].
    - destruct (providerRedirect input pc options cid txn) as [target|];
        [|discriminate].
      injection Hres as <- <- <-. repeat split.
    - destruct (redirectWith _ _ _) as [target|]; [|discriminate].
      injection Hres as <- <- <-. repeat split. }
  destruct Hout as (Hid & Hrs & Htx & ->).
  split; [reflexivity|]. split; [reflexivity|]. split; [exact Hm|].
  split; [exact Hrs|]. split.
  - intros now' Hnow. rewrite Hid. exact (Hread now' store' Htx Hnow).
  - intros cid Hcid. exact (checkCimdClient_ok input options log0 Hc cid Hcid).
Qed.
End AuthorizeFacts.

(** ** The private ranges of the SSRF check *)

Section PrivateRanges.
Context `{UrlApi}.

Lemma octet_cases b :
  0 <= b <= 255 -> In b (map Z.of_nat (seq 0 256)).
Proof.
  intros Hb. replace b with (Z.of_nat (Z.to_nat b)) by lia.
  apply in_map, in_seq. lia.
Qed.

Lemma isPrivateIp_172 b rest :
  0 <= b <= 255 ->
  Ssrf.isPrivateIp ("172." ++ Js.string_of_Z b ++ "." ++ rest)
  = (16 <=? b) && (b <=? 31).
Proof.
  intros Hb. apply octet_cases in Hb. revert rest.
  cbv [seq map Z.of_nat Pos.of_succ_nat Pos.succ] in Hb.
  repeat (destruct Hb as [<-|Hb]; [intros rest; vm_compute; reflexivity|]).
  destruct Hb.
Qed.

(** X17.  The [172.] pattern of the SSRF check is the private block
    172.16.0.0/12 and nothing more: a host name [172.b.] followed by
    anything is taken for a private address exactly when [b] is between
    16 and 31, so every address of the block is refused with
    [private_ip], whatever the path option, and no other 172 address is
    refused as private. *)
Theorem private_172_block_is_exactly_16_to_31 :
  (forall b rest,
      0 <= b <= 255 ->
      Ssrf.isPrivateIp ("172." ++ Js.string_of_Z b ++ "." ++ rest)
      = (16 <=? b) && (b <=? 31))
  /\ (forall urlString opt url b rest,
        url_parse urlString = Some url ->
        url_protocol url = "https:" ->
        Str.toLowerCase (url_hostname url)
        = "172." ++ Js.string_of_Z b ++ "." ++ rest ->
        16 <= b <= 31 ->
        Ssrf.checkSsrfSafe urlString opt = Ssrf.Unsafe "private_ip").
Proof.
  split; [exact isPrivateIp_172|].
  intros urlString opt url b rest Hp Hs Hh Hb.
  unfold Ssrf.checkSsrfSafe. rewrite Hp, Hs, Hh.
  change ("https:" =? "https:")%string with true. cbn [negb].
  replace (Str.mem ("172." ++ Js.string_of_Z b ++ "." ++ rest)
                   Ssrf.BLOCKED_HOSTS) with false by reflexivity.
  rewrite isPrivateIp_172 by lia.
  replace ((16 <=? b) && (b <=? 31)) with true; [reflexivity|].
  symmetry. apply andb_true_iff. split; apply Z.leb_le; lia.
Qed.
End PrivateRanges.

(** ** Walking the pages *)

Section PageWalk.
Context `{JsonCodec}.
Import Pagination.

Lemma slice_window {T : Type} (items : list T) (start limit : Z) :
  0 <= start -> 0 <= limit ->
  slice start (start + limit) items
  = firstn (Z.to_nat limit) (skipn (Z.to_nat start) items).
Proof.
  intros Hs Hl. unfold slice, clampIndex.
  destruct (start <? 0) eqn:E1; [apply Z.ltb_lt in E1; lia|].
  destruct (start + limit <? 0) eqn:E2; [apply Z.ltb_lt in E2; lia|].
  set (len := Z.of_nat (length items)).
  assert (Hlen : length items = Z.to_nat len) by (subst len; lia).
  destruct (Z.le_gt_cases len start) as [Hout|Hin].
  - rewrite (Z.min_r start) by lia. rewrite (Z.min_r (start + limit)) by lia.
    rewrite Z.sub_diag. simpl firstn.
    rewrite (skipn_all2 items) by lia. symmetry. apply firstn_nil.
  - rewrite (Z.min_l start) by lia.
    destruct (Z.le_gt_cases (start + limit) len) as [Hfit|Hover].
    + rewrite (Z.min_l (start + limit)) by lia. f_equal. lia.
    + rewrite (Z.min_r (start + limit)) by lia.
      assert (Hrest : length (skipn (Z.to_nat start) items)
                      = Z.to_nat (len - start))
        by (rewrite length_skipn; lia).
      rewrite <- Hrest, firstn_all. symmetry. apply firstn_all2. lia.
Qed.

Lemma firstn_twice {T : Type} (n : nat) (l : list T) :
  firstn (n + n) l = (firstn n l ++ firstn n (skipn n l))%list.
Proof.
  rewrite <- (firstn_skipn n l) at 1.
  rewrite firstn_app. 
  destruct (Nat.le_gt_cases n (length l)) as [Hle|Hgt].
  - rewrite length_firstn, Nat.min_l by exact Hle.
    rewrite firstn_firstn, Nat.min_r by lia.
    f_equal. f_equal. lia.
  - rewrite (skipn_all2 l) by lia. rewrite !firstn_nil, !app_nil_r.
    rewrite firstn_firstn. f_equal. lia.
Qed.

(** X18.  Pages continue where the last one ended.  A page read at offset
    [o] (the cursor's offset, or 0 for a negative one) holds the items
    from [o] on, at most [limit] of them.  When it has no next cursor it
    holds every item from [o] on.  When it has one, the page is full, the
    cursor is the one made for [o + limit], and, provided that cursor
    parses back to [o + limit], the next page follows without a gap or
    an overlap. *)
Theorem pages_continue_where_the_last_ended :
  forall (T : Type) (items : list T) cursor limit offset page,
    parseCursor cursor = Js.Ok offset ->
    0 < limit ->
    paginateArray items cursor limit = Js.Ok page ->
    let o := Z.max 0 offset in
    data page = firstn (Z.to_nat limit) (skipn (Z.to_nat o) items)
    /\ (nextCursor page = None -> data page = skipn (Z.to_nat o) items)
    /\ (forall c,
          nextCursor page = Some c ->
          c = createCursor (o + limit)
          /\ length (data page) = Z.to_nat limit
          /\ (parseCursor (Some c) = Js.Ok (o + limit) ->
              exists page',
                paginateArray items (Some c) limit = Js.Ok page'
                /\ (data page ++ data page')%list
                   = firstn (Z.to_nat (2 * limit))
                            (skipn (Z.to_nat o) items))).
Proof.
  intros T items cursor limit offset page Hparse Hl Hpage o.
  unfold paginateArray in Hpage. rewrite Hparse in Hpage.
  fold o in Hpage. injection Hpage as <-. cbn [data nextCursor].
  assert (Ho : 0 <= o) by (subst o; lia).
  rewrite slice_window by lia.
  split; [reflexivity|]. split.
  - destruct (o + limit <? Z.of_nat (length items)) eqn:E; [discriminate|].
    intros _. apply Z.ltb_ge in E. apply firstn_all2.
    rewrite length_skipn. lia.
  - intros c.
    destruct (o + limit <? Z.of_nat (length items)) eqn:E; [|discriminate].
    apply Z.ltb_lt in E. intros [= <-].
    split; [reflexivity|]. split.
    + rewrite length_firstn, length_skipn. lia.
    + intros Hnext. unfold paginateArray. rewrite Hnext.
      eexists. split; [reflexivity|]. cbn [data].
      rewrite (Z.max_r 0 (o + limit)) by lia.
      rewrite slice_window by lia.
      replace (Z.to_nat (2 * limit)) with (Z.to_nat limit + Z.to_nat limit)%nat
        by lia.
      rewrite firstn_twice, skipn_skipn.
      replace (Z.to_nat limit + Z.to_nat o)%nat with (Z.to_nat (o + limit))
        by lia.
      reflexivity.
Qed.
End PageWalk.

(** ** What a tools/call leaves behind and what it answers *)

Section ToolsCallFacts.
Import Dispatcher.

Lemma reg_delete_set rid c registry :
  reg_delete rid (reg_set rid c registry) = reg_delete rid registry.
Proof.
  unfold reg_delete. induction registry as [|[k c'] registry IH]; simpl.
  - assert (E : id_eqb rid rid = true) by (apply id_eqb_eq; reflexivity).
    rewrite E. reflexivity.
  - destruct (id_eqb k rid) eqn:E; simpl; rewrite E; simpl;
      [reflexivity|]. rewrite IH. reflexivity.
Qed.

Lemma reg_get_delete_other rid rid' registry :
  id_eqb rid' rid = false ->
  reg_get rid' (reg_delete rid registry) = reg_get rid' registry.
Proof.
  intros Hne. unfold reg_delete.
  induction registry as [|[k c] registry IH]; simpl; [reflexivity|].
  destruct (id_eqb k rid) eqn:E; simpl.
  - apply id_eqb_eq in E. subst k.
    destruct (id_eqb rid rid') eqn:E'; [|exact IH].
    apply id_eqb_eq in E'. subst rid'.
    assert (id_eqb rid rid = true) by (apply id_eqb_eq; reflexivity).
    congruence.
  - destruct (id_eqb k rid'); [reflexivity|exact IH].
Qed.

(** X19.  Whatever happens while it runs, cancellations and failures
    included, a tools/call leaves the cancellation registry as it found
    it, less its own request id: its handle is gone when it has answered,
    and the handle of every other request is the one that was there. *)
Theorem tools_call_leaves_only_its_own_handle_removed :
  forall execute ps requestId schedule w,
    let w' := snd (handleToolsCallWith execute ps requestId schedule w) in
    cancellationRegistry w'
    = match requestId, cancellationRegistry w with
      | Some rid, Some registry => Some (reg_delete rid registry)
      | _, registry => registry
      end
    /\ (forall rid registry',
          requestId = Some rid ->
          cancellationRegistry w' = Some registry' ->
          reg_get rid registry' = None)
    /\ (forall rid rid' registry registry',
          requestId = Some rid ->
          id_eqb rid' rid = false ->
          cancellationRegistry w = Some registry ->
          cancellationRegistry w' = Some registry' ->
          reg_get rid' registry' = reg_get rid' registry).
Proof.
  intros execute ps requestId schedule w w'.
  assert (Heq : cancellationRegistry w'
                = match requestId, cancellationRegistry w with
                  | Some rid, Some registry => Some (reg_delete rid registry)
                  | _, registry => registry
                  end).
  { subst w'. unfold handleToolsCallWith. cbv zeta.
    match goal with
    | |- context [run ?c ?t ?sch ?w1] =>
        pose proof (run_keeps_registry c t sch w1) as Hk;
        destruct (run c t sch w1) as [out w2]
    end.
    cbn [snd cancellationRegistry] in *. rewrite Hk.
    destruct requestId as [rid|]; [|reflexivity].
    destruct (cancellationRegistry w) as [registry|]; [|reflexivity].
    rewrite reg_delete_set. reflexivity. }
  split; [exact Heq|]. split.
  - intros rid registry' -> Hr. rewrite Heq in Hr.
    destruct (cancellationRegistry w) as [registry|]; [|discriminate].
    injection Hr as <-. apply reg_get_delete.
  - intros rid rid' registry registry' -> Hne Hw Hr.
    rewrite Heq, Hw in Hr. injection Hr as <-.
    apply reg_get_delete_other. exact Hne.
Qed.

Lemma run_tryCatch_returns {A : Type} c (h : string -> Task A) :
  (forall m schedule w, exists a w', run c (h m) schedule w = (Returned a, w')) ->
  forall (t : Task A) schedule w,
    exists a w', run c (tryCatch t h) schedule w = (Returned a, w').
Proof.
  intros Hh t. induction t as [a|m|k IH|k IH]; intros schedule w;
    cbn [tryCatch run].
  - eauto.
  - apply Hh.
  - apply IH.
  - apply IH.
Qed.

Lemma executeSharedTool_returns tools n args c schedule w :
  exists r w',
    run c (executeSharedTool tools n args) schedule w = (Returned r, w').
Proof.
  unfold executeSharedTool.
  destruct (getSharedTool tools n) as [tool|]; [|cbn [run]; eauto].
  apply run_tryCatch_returns.
  intros m schedule' w0. cbn [run].
  destruct (aborted w0 c); cbn [run]; eauto.
Qed.

(** X20.  A tools/call served by [executeSharedTool] is never answered
    with a JSON-RPC error.  Whatever the tool does, and whichever
    notifications arrive meanwhile, the answer is a tool result: an
    unknown tool, invalid input, a handler that throws and a cancelled
    call all come back as a result, so the errors [Request was cancelled]
    and [Tool execution failed] of [handleToolsCall] are never sent. *)
Theorem tools_call_always_answers_a_result :
  forall tools ps requestId schedule w,
    exists r,
      fst (handleToolsCall tools ps requestId schedule w) = Result r.
Proof.
  intros tools ps requestId schedule w.
  unfold handleToolsCall, handleToolsCallWith. cbv zeta.
  match goal with
  | |- context [run ?c (executeSharedTool tools ?n ?args) ?sch ?w1] =>
      destruct (executeSharedTool_returns tools n args c sch w1)
        as (r & w2 & Hrun)
  end.
  rewrite Hrun. exists r. reflexivity.
Qed.

(** X21.  The handshake records a supported version.  The state that
    [initialize] hands to the session is not yet initialized and names
    the version that is answered, always one of the supported versions;
    [notifications/initialized] then sets the flag and keeps the client
    info and the version.  On a context without session state the
    notification is accepted and changes nothing. *)
Theorem handshake_records_the_answered_version :
  forall params config n w,
    method n = "notifications/initialized" ->
    exists v,
      In v SUPPORTED_PROTOCOL_VERSIONS
      /\ negotiatedVersion params config = Some v
      /\ snd (handleInitialize params config)
         = mkSessionState false (param params "clientInfo") (Some v)
      /\ handleMcpNotification n
           (mkWorld (controllers w) (cancellationRegistry w)
                    (Some (snd (handleInitialize params config))))
         = (true,
            mkWorld (controllers w) (cancellationRegistry w)
                    (Some (mkSessionState true (param params "clientInfo")
                                          (Some v))))
      /\ (session w = None -> handleMcpNotification n w = (true, w)).
Proof.
  intros params config n w Hm.
  unfold handleMcpNotification. rewrite Hm.
  change ("notifications/initialized" =? "notifications/initialized")%string
    with true. cbv iota.
  unfold negotiatedVersion, handleInitialize. cbv zeta. cbn [fst snd session].
  destruct (Str.mem (requestedVersion params) SUPPORTED_PROTOCOL_VERSIONS)
    eqn:E.
  - exists (requestedVersion params).
    split; [apply mem_In; exact E|].
    split; [reflexivity|]. split; [reflexivity|]. split; [reflexivity|].
    intros ->. destruct w; reflexivity.
  - exists LATEST_PROTOCOL_VERSION.
    split; [simpl; auto|].
    split; [reflexivity|]. split; [reflexivity|]. split; [reflexivity|].
    intros ->. destruct w; reflexivity.
Qed.
End ToolsCallFacts.

(** ** How the OAuth handlers fail *)

Section FailurePaths.
Context `{UrlApi} `{OAuthLib} `{Entropy} `{StateCodec}.
Import Storage Flow.

(** X22.  A token request that fails has written nothing.  A failed
    refresh grant throws [invalid_grant], [provider_token_expired],
    [provider_refresh_failed] or the error of building the provider's
    token endpoint URL, and leaves the store as the lookup of the refresh
    token left it; a failed code grant throws [invalid_grant] and leaves
    the RS records as they were. *)
Theorem failed_token_request_writes_nothing :
  (forall clk refreshToken providerConfig store message store',
      handleToken clk (RefreshTokenGrant refreshToken) providerConfig store
      = (Js.Throw message, store') ->
      store' = snd (getByRsRefresh (clk 0%nat) refreshToken store)
      /\ (message = "invalid_grant"
          \/ message = "provider_token_expired"
          \/ message = "provider_refresh_failed"
          \/ exists pc,
               providerConfig = Some pc
               /\ Refresh.tokenEndpointOf
                    (Refresh.mkProviderRefreshConfig
                       (Js.or_string (clientId pc) "")
                       (Js.or_string (clientSecret pc) "")
                       (accountsUrl pc) (tokenEndpointPath pc))
                  = Js.Throw message))
  /\ (forall clk code verifier providerConfig store message store',
        handleToken clk (AuthorizationCodeGrant code verifier) providerConfig
                    store
        = (Js.Throw message, store') ->
        message = "invalid_grant" /\ same_rs_records store store').
Proof.
  split.
  - intros clk rt pc store message store'. cbn [handleToken].
    unfold handleRefreshGrant.
    destruct (getByRsRefresh (clk 0%nat) rt store) as [[r|] s1]; cbn [snd];
      [|intros [= <- <-]; auto].
    destruct (deref s1 r) as [rec|]; [|intros [= <- <-]; auto].
    destruct pc as [pc|].
    + destruct (Js.nullish (expires_at (provider rec)) 0 - 60000 <=? clk 1%nat).
      * destruct (negb (Js.truthy_opt (refresh_token (provider rec)))).
        { intros [= <- <-]. auto. }
        unfold Refresh.refreshProviderToken.
        destruct (Refresh.tokenEndpointOf _) as [endpoint|m] eqn:He.
        { match goal with
          | |- context [Refresh.success ?res] =>
              destruct (Refresh.success res), (Refresh.tokens res)
          end;
            try (intros [= <- <-]; auto);
            destruct (updateByRsRefresh _ _ _ _ _ _); discriminate. }
        intros [= <- <-]. split; [reflexivity|].
        right. right. right. eexists. split; [reflexivity|exact He].
      * destruct (updateByRsRefresh _ _ _ _ _ _). discriminate.
    + destruct (updateByRsRefresh _ _ _ _ _ _). discriminate.
  - intros clk code verifier pc store message store'. cbn [handleToken].
    apply handleCodeGrant_failure.
Qed.

(** X23.  A provider callback that fails before its last step has
    written nothing: unless the failure is that of building the final
    redirect, the store is as the lookup of the transaction left it, so no
    provider tokens are attached and no code is minted.  An unknown or
    expired transaction fails with [unknown_txn]. *)
Theorem failed_callback_mints_no_code :
  forall clk input providerConfig oauthConfig options store message store',
    handleProviderCallback clk input providerConfig oauthConfig options store
    = (Js.Throw message, store') ->
    let txn := Js.or_string (tid (decodeState (compositeState input)))
                            (compositeState input) in
    (fst (getTransaction (clk 0%nat) txn store) = None ->
     message = "unknown_txn")
    /\ (store' = snd (getTransaction (clk 0%nat) txn store)
        \/ message = "fetch_failed: Invalid URL").
Proof.
  intros clk input pc oc options store message store' Hcb txn.
  unfold handleProviderCallback in Hcb. fold txn in Hcb.
  destruct (getTransaction (clk 0%nat) txn store) as [[t|] s1]; cbn [fst snd].
  2:{ injection Hcb as <- <-. split; [reflexivity|left; reflexivity]. }
  split; [discriminate|].
  destruct (url_resolve _ (baseUrl options)) as [cbUrl|];
    [|injection Hcb as <- <-; left; reflexivity].
  destruct (buildAuthorizationServer pc) as [[authEndpoint tokenEndpoint]|];
    [|injection Hcb as <- <-; left; reflexivity].
  destruct (clientSecretBasic _);
    [|injection Hcb as <- <-; left; reflexivity].
  rewrite callback_grant_refused in Hcb.
  injection Hcb as <- <-. left. reflexivity.
Qed.
End FailurePaths.

(** ** A refresh the provider does not rotate *)

Section UnrotatedRefresh.
Context `{UrlApi} `{OAuthLib}.
Import Storage StoreProps Refresh.

(** X24.  When the provider answers a refresh without a new refresh token
    (none, or the one it was sent), [ensureFreshToken] reports the refresh
    and stores the fresh provider tokens with the old refresh token kept:
    the RS access token and the RS refresh token still resolve to the
    record, and the call is marked in the throttle map. *)
Theorem ensureFreshToken_keeps_unrotated_refresh_token :
  forall clk tok config store recently r record endpoint response old,
    JsMap.get tok (rsAccessMap store) = Some r ->
    deref store r = Some record ->
    clk 0%nat < expiresAt record ->
    rs_access_token record = tok ->
    JsMap.get (rs_refresh_token record) (rsRefreshMap store) = Some r ->
    Js.truthy_string (access_token (provider record)) = true ->
    isTokenExpiredOrExpiring (clk 1%nat) (expires_at (provider record))
                             EXPIRY_BUFFER_MS = true ->
    shouldSkipRefresh (clk 2%nat) tok recently = false ->
    refresh_token (provider record) = Some old ->
    Js.truthy_string old = true ->
    tokenEndpointOf config = Js.Ok endpoint ->
    clientSecretBasic (clientSecret config) = Js.Ok tt ->
    refreshTokenGrant endpoint (clientId config) (clientSecret config) old
    = GrantOk response ->
    Js.truthy_string (tr_access_token response) = true ->
    tr_refresh_token response = None \/ tr_refresh_token response = Some old ->
    exists store',
      ensureFreshToken clk tok (Some config) store recently
      = Js.Ok (mkFreshToken (tr_access_token response) true, store',
               markRefreshed (clk 5%nat) (clk 6%nat) tok recently)
      /\ fst (getByRsAccess (clk 4%nat) tok store') = Some r
      /\ fst (getByRsRefresh (clk 4%nat) (rs_refresh_token record) store')
         = Some r
      /\ providerOf store' r
         = Some (mkProviderTokens
                   (tr_access_token response) (Some old)
                   (Some (clk 3%nat
                          + Js.nullish (tr_expires_in response) 3600 * 1000))
                   (Some (Str.words (Js.or_string (tr_scope response) "")))).
Proof.
  intros clk tok config store recently r record endpoint response old
         Hget Hderef Hlive Htok Hrefresh Hacc Hexp Hskip Hold Holdt Hep Hsec
         Hgrant Hnewacc Hsame.
  assert (Hr : (r < length (heap store))%nat).
  { apply nth_error_Some. unfold deref in Hderef. congruence. }
  assert (Hkept : Js.nullish (tr_refresh_token response) old = old).
  { destruct Hsame as [-> | ->]; reflexivity. }
  unfold ensureFreshToken, getByRsAccess. rewrite Hget.
  unfold field at 1. rewrite Hderef.
  replace (expiresAt record <=? clk 0%nat) with false
    by (symmetry; apply Z.leb_gt; exact Hlive).
  rewrite Hderef, Hacc, Hexp, Hskip, Hold. cbn [negb Js.truthy_opt Js.nullish].
  rewrite Holdt. cbn [negb].
  unfold refreshProviderToken. rewrite Hep, Hsec, Hgrant, Hnewacc.
  cbn [negb success tokens refresh_token]. rewrite Hkept.
  cbn [Js.same_opt]. rewrite String.eqb_refl. cbn [negb].
  unfold updateByRsRefresh. rewrite Hrefresh, Hderef, Htok.
  set (fresh := mkProviderTokens (tr_access_token response) (Some old) _ _).
  assert (Httl : clk 4%nat < clk 4%nat + DEFAULT_RS_TOKEN_TTL_MS)
    by (unfold DEFAULT_RS_TOKEN_TTL_MS; lia).
  destruct (Js.truthy_string tok).
  - cbn [rs_access_token rs_refresh_token provider created_at expiresAt].
    set (record' := mkRsRecord tok (rs_refresh_token record) fresh
                               (clk 4%nat)
                               (clk 4%nat + DEFAULT_RS_TOKEN_TTL_MS)).
    assert (Hd' : forall acc rfr m,
               deref (with_refresh rfr (with_access acc
                        (with_heap (list_update r record'
                                      (heap (with_access m store)))
                                   (with_access m store)))) r = Some record').
    { intros. unfold deref. cbn [heap with_access with_heap with_refresh].
      apply deref_update. exact Hr. }
    eexists. split; [reflexivity|]. split; [|split].
    + apply (live_lookup _ _ r record' tok (Hd' _ _ _)); [exact Httl|].
      cbn [rsAccessMap with_access with_heap with_refresh]. apply get_set_same.
    + apply (live_lookup_refresh _ _ r record' _ (Hd' _ _ _)); [exact Httl|].
      cbn [rsRefreshMap with_access with_heap with_refresh]. apply get_set_same.
    + unfold providerOf. rewrite Hd'. reflexivity.
  - cbn [rs_access_token rs_refresh_token provider created_at expiresAt].
    rewrite Htok.
    set (record' := mkRsRecord tok (rs_refresh_token record) fresh
                               (created_at record)
                               (clk 4%nat + DEFAULT_RS_TOKEN_TTL_MS)).
    assert (Hd' : forall acc rfr,
               deref (with_refresh rfr (with_access acc
                        (with_heap (list_update r record' (heap store)) store)))
                     r = Some record').
    { intros. unfold deref. cbn [heap with_access with_heap with_refresh].
      apply deref_update. exact Hr. }
    eexists. split; [reflexivity|]. split; [|split].
    + apply (live_lookup _ _ r record' tok (Hd' _ _)); [exact Httl|].
      cbn [rsAccessMap with_access with_heap with_refresh]. apply get_set_same.
    + apply (live_lookup_refresh _ _ r record' _ (Hd' _ _)); [exact Httl|].
      cbn [rsRefreshMap with_access with_heap with_refresh]. apply get_set_same.
    + unfold providerOf. rewrite Hd'. reflexivity.
Qed.
End UnrotatedRefresh.

(** ** The method table *)

Section RouterFacts.
Import Dispatcher Router.

Lemma valid_level_truthy level :
  In level validLevels -> Js.truthy_string level = true.
Proof.
  unfold validLevels. simpl.
  intros [<-|[<-|[<-|[<-|[<-|[<-|[<-|[<-|[]]]]]]]]]; reflexivity.
Qed.

Lemma handleLoggingSetLevel_valid params current :
  In current validLevels ->
  In (snd (handleLoggingSetLevel params current)) validLevels.
Proof.
  intros Hc. unfold handleLoggingSetLevel.
  destruct (param params "level") as [[| b | n | level | l | f]|];
    try exact Hc.
  destruct (Js.truthy_string level && Str.mem level validLevels) eqn:E;
    [|exact Hc].
  apply andb_true_iff in E. cbn [snd]. apply mem_In. exact (proj2 E).
Qed.

Lemma dispatch_keeps_level_valid describe tools config method params requestId
      schedule sv :
  In (currentLogLevel sv) validLevels ->
  In (currentLogLevel
        (snd (dispatchMcpMethod describe tools config method params requestId
                                schedule sv))) validLevels.
Proof.
  intros Hc. unfold dispatchMcpMethod.
  destruct (negb (Js.truthy_opt method)); [exact Hc|].
  destruct (Js.nullish method "" =? "initialize")%string.
  { destruct (handleInitialize params config). exact Hc. }
  destruct (Js.nullish method "" =? "tools/list")%string; [exact Hc|].
  destruct (Js.nullish method "" =? "tools/call")%string.
  { destruct (handleToolsCall tools params requestId schedule (world sv)).
    exact Hc. }
  destruct (Js.nullish method "" =? "resources/list")%string; [exact Hc|].
  destruct (Js.nullish method "" =? "resources/templates/list")%string;
    [exact Hc|].
  destruct (Js.nullish method "" =? "prompts/list")%string; [exact Hc|].
  destruct (Js.nullish method "" =? "ping")%string; [exact Hc|].
  destruct (Js.nullish method "" =? "logging/setLevel")%string; [|exact Hc].
  pose proof (handleLoggingSetLevel_valid params (currentLogLevel sv) Hc) as Hv.
  destruct (handleLoggingSetLevel params (currentLogLevel sv)). exact Hv.
Qed.

(** X25.  The log level is always one of the eight levels.  Starting from
    a valid level, such as the initial [info], whatever requests are
    served, [getLogLevel] returns a valid level.  A [logging/setLevel]
    with one of the eight levels is answered with an empty result and
    that level is read back; with any other level it is refused with
    -32602 and the level stays. *)
Theorem log_level_is_always_a_valid_level :
  (forall describe tools config requests sv,
      In (currentLogLevel sv) validLevels ->
      In (getLogLevel (serve describe tools config requests sv)) validLevels)
  /\ (forall describe tools config level sv,
        In level validLevels ->
        dispatchMcpMethod describe tools config (Some "logging/setLevel")
                          (Some [("level", Js.JStr level)]) None [] sv
        = (Result EmptyResult, mkServer (world sv) level))
  /\ (forall describe tools config level sv,
        ~ In level validLevels ->
        dispatchMcpMethod describe tools config (Some "logging/setLevel")
                          (Some [("level", Js.JStr level)]) None [] sv
        = (Error (-32602)
                 "Invalid log level. Must be one of: debug, info, notice, warning, error, critical, alert, emergency",
           sv)).
Proof.
  split; [|split].
  - intros describe tools config requests. unfold getLogLevel, serve.
    induction requests as [|q requests IH]; intros sv Hc; [exact Hc|].
    cbn [fold_left]. apply IH. apply dispatch_keeps_level_valid. exact Hc.
  - intros describe tools config level sv Hin.
    unfold dispatchMcpMethod, handleLoggingSetLevel. cbn.
    rewrite (valid_level_truthy level Hin).
    apply mem_In in Hin. unfold Str.mem in Hin. cbn in Hin. rewrite Hin.
    reflexivity.
  - intros describe tools config level sv Hout.
    unfold dispatchMcpMethod, handleLoggingSetLevel. cbn.
    apply mem_not_In in Hout. unfold Str.mem in Hout. cbn in Hout.
    rewrite Hout, andb_false_r. destruct sv. reflexivity.
Qed.

(** X26.  Requests outside the three stateful methods change nothing.
    Every method other than [initialize], [tools/call] and
    [logging/setLevel] leaves the session, the registry and the log level
    as they are; a method that is not in the table is answered with
    -32601 and its name, a missing or empty method with -32600; and only
    [logging/setLevel] ever changes the log level. *)
Theorem stateless_methods_change_nothing :
  forall describe tools config method params requestId schedule sv,
    let m := Js.nullish method "" in
    let answer := dispatchMcpMethod describe tools config method params
                                    requestId schedule sv in
    (m <> "initialize" -> m <> "tools/call" -> m <> "logging/setLevel" ->
     snd answer = sv)
    /\ (m <> "logging/setLevel" ->
        currentLogLevel (snd answer) = currentLogLevel sv)
    /\ (~ In m ["initialize"; "tools/list"; "tools/call"; "resources/list";
                "resources/templates/list"; "prompts/list"; "ping";
                "logging/setLevel"] ->
        answer
        = (if Js.truthy_opt method
           then Error (-32601) ("Method not found: " ++ m)
           else Error (-32600) "Missing method", sv)).
Proof.
  intros describe tools config method params requestId schedule sv m answer.
  subst answer. unfold dispatchMcpMethod. fold m.
  destruct (Js.truthy_opt method); cbn [negb];
    [|split; [|split]; reflexivity].
  destruct (m =? "initialize")%string eqn:E1.
  { apply String.eqb_eq in E1. split; [|split].
    - intros Hne. contradiction.
    - intros _. destruct (handleInitialize params config). reflexivity.
    - intros Hout. exfalso. apply Hout. left. symmetry. exact E1. }
  destruct (m =? "tools/list")%string eqn:E2.
  { apply String.eqb_eq in E2. split; [|split]; try reflexivity.
    intros Hout. exfalso. apply Hout. right. left. symmetry. exact E2. }
  destruct (m =? "tools/call")%string eqn:E3.
  { apply String.eqb_eq in E3. split; [|split].
    - intros _ Hne. contradiction.
    - intros _.
      destruct (handleToolsCall tools params requestId schedule (world sv)).
      reflexivity.
    - intros Hout. exfalso. apply Hout. right. right. left. symmetry.
      exact E3. }
  destruct (m =? "resources/list")%string eqn:E4.
  { apply String.eqb_eq in E4. split; [|split]; try reflexivity.
    intros Hout. exfalso. apply Hout. simpl. auto 10. }
  destruct (m =? "resources/templates/list")%string eqn:E5.
  { apply String.eqb_eq in E5. split; [|split]; try reflexivity.
    intros Hout. exfalso. apply Hout. simpl. auto 10. }
  destruct (m =? "prompts/list")%string eqn:E6.
  { apply String.eqb_eq in E6. split; [|split]; try reflexivity.
    intros Hout. exfalso. apply Hout. simpl. auto 10. }
  destruct (m =? "ping")%string eqn:E7.
  { apply String.eqb_eq in E7. split; [|split]; try reflexivity.
    intros Hout. exfalso. apply Hout. simpl. auto 10. }
  destruct (m =? "logging/setLevel")%string eqn:E8.
  { apply String.eqb_eq in E8. split; [|split].
    - intros _ _ Hne. contradiction.
    - intros Hne. contradiction.
    - intros Hout. exfalso. apply Hout. simpl. auto 10. }
  split; [|split]; reflexivity.
Qed.
End RouterFacts.

(** ** A session from initialize to its first read *)

Section SessionLifecycle.
Import SessionStore.

(** X27.  The session the initialize route writes is the one read back.
    After [create], an [update] that records the protocol version and an
    [update] that sets [initialized], a [get] before the expiry set by
    [create] returns the session bound to the API key, initialized, with
    that version, created at the time of [create] and expiring when
    [create] said; the updates moved only [last_accessed]. *)
Theorem created_session_reads_back_after_updates :
  forall tCount tOldest t sid k ttlMs s v t1 t2 now,
    now < t + ttlMs ->
    let s1 := snd (create tCount tOldest t sid k ttlMs s) in
    let s2 := update t1 sid
                (mkPatch None None None None None None (Some v)) s1 in
    let s3 := update t2 sid
                (mkPatch None None None None None (Some true) None) s2 in
    fst (get now sid s3)
    = Some (mkSession sid (Some k) None None None t now (Some true) (Some v)
                      (t + ttlMs)).
Proof.
  intros tCount tOldest t sid k ttlMs s v t1 t2 now Hnow s1 s2 s3.
  subst s3 s2 s1. unfold create. cbn [snd].
  unfold update at 2. rewrite get_set_same.
  unfold update. rewrite get_set_same.
  unfold get. rewrite get_set_same.
  unfold assign. cbn.
  replace (t + ttlMs <=? now) with false
    by (symmetry; apply Z.leb_gt; exact Hnow).
  reflexivity.
Qed.
End SessionLifecycle.

(** ** Which entries [evictOldest] removes *)

Section EvictionOrder.
Import Storage StoreProps.

Lemma sort_insert_ascending {A : Type} (key : A -> Z) x l :
  ascending key l -> ascending key (sort_insert key x l).
Proof.
  induction l as [|z l IH]; intros Hs; simpl.
  - split; [intros y []|exact I].
  - destruct Hs as [Hz Hl].
    destruct (key x <=? key z) eqn:E.
    + apply Z.leb_le in E. split; [|split; assumption].
      intros y [<-|Hy]; [exact E|]. specialize (Hz y Hy). lia.
    + apply Z.leb_gt in E. split; [|exact (IH Hl)].
      intros y Hy. apply sort_insert_In in Hy.
      destruct Hy as [->|Hy]; [lia|exact (Hz y Hy)].
Qed.

Lemma sort_by_ascending {A : Type} (key : A -> Z) l :
  ascending key (sort_by key l).
Proof.
  induction l as [|x l IH]; simpl; [exact I|].
  apply sort_insert_ascending. exact IH.
Qed.

Lemma ascending_split {A : Type} (key : A -> Z) (l1 l2 : list A) :
  ascending key (l1 ++ l2) ->
  forall x y, In x l1 -> In y l2 -> key x <= key y.
Proof.
  induction l1 as [|z l1 IH]; intros Hs x y Hx Hy; [destruct Hx|].
  simpl in Hs. destruct Hs as [Hz Hl]. destruct Hx as [<-|Hx].
  - apply Hz. apply in_or_app. right. exact Hy.
  - exact (IH Hl x y Hx Hy).
Qed.

Lemma fold_delete_In {V : Type} (victims : list (string * V)) :
  forall (m : JsMap.t V) e,
    In e (fold_left (fun acc v => JsMap.delete (fst v) acc) victims m)
    <-> In e m /\ ~ In (fst e) (map fst victims).
Proof.
  induction victims as [|v victims IH]; intros m e; simpl.
  - tauto.
  - rewrite IH. unfold JsMap.delete. rewrite filter_In.
    rewrite negb_true_iff, String.eqb_neq. intuition congruence.
Qed.

Lemma keys_determine {V : Type} (m : JsMap.t V) e e' :
  NoDup (JsMap.keys m) -> In e m -> In e' m -> fst e = fst e' -> e = e'.
Proof.
  unfold JsMap.keys. induction m as [|x m IH]; intros Hn He He' Hk;
    [destruct He|].
  simpl in Hn. inversion Hn as [|? ? Hnot Hrest]; subst.
  destruct He as [<-|He], He' as [<-|He'].
  - reflexivity.
  - exfalso. apply Hnot. rewrite Hk. apply in_map. exact He'.
  - exfalso. apply Hnot. rewrite <- Hk. apply in_map. exact He.
  - exact (IH Hrest He He' Hk).
Qed.

(** X28.  [evictOldest] evicts oldest first.  Below the cap it does
    nothing.  At the cap it only removes entries, and none of the entries
    it removes was created later than any entry it keeps. *)
Theorem evictOldest_removes_the_oldest :
  forall (V : Type) (time : V -> Z) (m : JsMap.t V) maxSize countToRemove,
    NoDup (JsMap.keys m) ->
    let m' := evictOldest time m maxSize countToRemove in
    (JsMap.size m < maxSize -> m' = m)
    /\ (forall e, In e m' -> In e m)
    /\ (forall kept gone,
          In kept m' -> In gone m -> ~ In gone m' ->
          time (snd gone) <= time (snd kept)).
Proof.
  intros V time m maxSize n Hnodup m'. subst m'. unfold evictOldest.
  destruct (JsMap.size m <? maxSize) eqn:E.
  { split; [reflexivity|]. split; [tauto|]. intros kept gone _ Hin Hout.
    contradiction. }
  apply Z.ltb_ge in E.
  set (sorted := sort_by (fun e : string * V => time (snd e)) m).
  split; [lia|]. split.
  { intros e He. apply fold_delete_In in He. tauto. }
  intros kept gone Hkept Hgone Hout.
  apply fold_delete_In in Hkept. destruct Hkept as [Hkm Hknot].
  assert (Hvictim : In gone (firstn n sorted)).
  { destruct (in_dec string_dec (fst gone) (map fst (firstn n sorted)))
      as [Hk|Hk].
    - apply in_map_iff in Hk. destruct Hk as (v & Hfst & Hv).
      assert (Hvm : In v m).
      { apply (sort_by_In (fun e : string * V => time (snd e)) m).
        change (In v sorted).
        rewrite <- (firstn_skipn n sorted). apply in_or_app. left. exact Hv. }
      rewrite <- (keys_determine m v gone Hnodup Hvm Hgone Hfst). exact Hv.
    - exfalso. apply Hout. apply fold_delete_In. split; assumption. }
  assert (Hrest : In kept (skipn n sorted)).
  { assert (Hs : In kept sorted)
      by (apply (sort_by_In (fun e : string * V => time (snd e)) m); exact Hkm).
    rewrite <- (firstn_skipn n sorted) in Hs. apply in_app_or in Hs.
    destruct Hs as [Hs|Hs]; [|exact Hs].
    exfalso. apply Hknot. apply in_map. exact Hs. }
  apply (ascending_split (fun e : string * V => time (snd e))
           (firstn n sorted) (skipn n sorted)); try assumption.
  rewrite firstn_skipn. apply sort_by_ascending.
Qed.
End EvictionOrder.

(* ===================================================================== *)
(** * Worked examples on the sample platform *)
(* ===================================================================== *)

Import Sample Scenario.

Lemma parseCursor_total_malformed_first_page_witness :
  Pagination.paginateArray [1; 2; 3] (Some "not-a-cursor") 2
  = Js.Ok (Pagination.mkPage [1; 2] (Some (Pagination.createCursor 2))).
Proof.
  refine (proj2 (proj2 (proj2 parseCursor_total_malformed_first_page))
            Z [1; 2; 3] (Some "not-a-cursor") 2 _ _).
  - intros c [= <-] (fields & n & Hp & _). vm_compute in Hp. discriminate.
  - lia.
Defined.

(** C4 as stated fails: 2025-11-25 is in the set the claim lists, and an
    initialize request that offers it is not answered with it. *)
Lemma initialize_does_not_echo_2025_11_25 :
  exists v,
    In v ["2025-11-25"; "2025-06-18"; "2025-03-26"; "2024-11-05"; "2024-10-07"]
    /\ Dispatcher.negotiatedVersion (Dispatcher.offering v)
         (Dispatcher.mkServerConfig "MCP" "1.0.0" None) <> Some v.
Proof.
  exists "2025-11-25". split; [simpl; auto|].
  vm_compute. discriminate.
Qed.

Lemma initialize_negotiates_among_four_versions_witness :
  Dispatcher.negotiatedVersion (Dispatcher.offering "2025-03-26")
    (Dispatcher.mkServerConfig "MCP" "1.0.0" None) = Some "2025-03-26".
Proof.
  apply (proj1 (proj2 initialize_negotiates_among_four_versions)).
  simpl. auto.
Defined.

Lemma ssrf_rejected_client_id_is_not_fetched_witness :
  Flow.handleAuthorize (clock 0) localhost_client dev_provider strict_oauth
                       flow_options Storage.emptyTokenStore
  = (Js.Throw "invalid_client: ssrf_blocked: blocked_host",
     Storage.emptyTokenStore, []).
Proof.
  apply (proj2 ssrf_rejected_client_id_is_not_fetched
           (clock 0) localhost_client dev_provider strict_oauth flow_options
           Storage.emptyTokenStore "https://localhost/cimd.json" "blocked_host");
    reflexivity.
Defined.

Lemma provider_callback_never_reaches_its_redirect_fallback_witness :
  (exists store' log entry,
      Flow.handleAuthorize (clock 0) evil_redirect dev_provider strict_oauth
                           flow_options Storage.emptyTokenStore
      = (Js.Ok (Flow.mkAuthorizeResult
                  "https://server.example/callback?code=opaque-1-16&state=xyz"
                  "opaque-0-16"),
         store', log)
      /\ JsMap.get "opaque-1-16" (Storage.codes store') = Some entry
      /\ Storage.value entry = "opaque-0-16")
  /\ Flow.handleProviderCallback (clock 1)
       (Flow.mkCallbackInput "state-txn1" "provider-code")
       live_provider strict_oauth flow_options store_with_txn
     = (Js.Throw
          "fetch_failed: callbackParameters must be obtained from validateAuthResponse()",
        store_with_txn).
Proof.
  split.
  - exact (proj1 provider_callback_never_reaches_its_redirect_fallback
             (clock 0) evil_redirect dev_provider strict_oauth flow_options
             Storage.emptyTokenStore
             (mkUrl "https:" "server.example" "/callback" [] : @URL url)
             eq_refl eq_refl eq_refl eq_refl eq_refl eq_refl eq_refl).
  - exact (proj2 (proj2 provider_callback_never_reaches_its_redirect_fallback)
             (clock 1) (Flow.mkCallbackInput "state-txn1" "provider-code")
             live_provider strict_oauth flow_options store_with_txn
             pending_txn store_with_txn
             (mkUrl "https:" "server.example" "/oauth/callback" [] : @URL url)
             ("https://provider.example.com/authorize",
              "https://provider.example.com/token")
             eq_refl eq_refl eq_refl eq_refl).
Defined.

(** C3 as stated fails: the code resolves to a transaction without a
    provider field, and the token endpoint answers with tokens instead of
    [invalid_grant]. *)
Lemma code_exchange_without_provider_succeeds :
  Storage.txn_provider pending_txn = None
  /\ fst (Storage.getTxnIdByCode 1 "code1" store_with_code) = Some "txn1"
  /\ fst (Storage.getTransaction 1 "txn1" store_with_code) = Some pending_txn
  /\ fst (exchange "verifier")
     = Js.Ok (Flow.mkTokenResponse "opaque-0-24" "opaque-1-24" "bearer" 3600
                                   "read")
  /\ fst (exchange "verifier") <> Js.Throw "invalid_grant".
Proof.
  repeat split; try reflexivity. vm_compute. discriminate.
Qed.

Lemma code_exchange_without_provider_token_witness :
  (exists granted store',
      exchange "verifier"
      = (Js.Ok (Flow.mkTokenResponse "opaque-0-24" "opaque-1-24" "bearer" 3600
                                     granted), store')
      /\ Storage.same_rs_records store_with_code store'
      /\ JsMap.get "code1" (Storage.codes store') = None
      /\ JsMap.get "txn1" (Storage.transactions store') = None)
  /\ exchange "wrong" = (Js.Throw "invalid_grant", store_with_code).
Proof.
  split.
  - exact (proj1 (code_exchange_without_provider_token
                    (clock 1) "code1" "verifier" None store_with_code
                    "txn1" pending_txn eq_refl eq_refl eq_refl eq_refl)
                 eq_refl).
  - apply (proj2 (code_exchange_without_provider_token
                    (clock 1) "code1" "wrong" None store_with_code
                    "txn1" pending_txn eq_refl eq_refl eq_refl eq_refl)).
    vm_compute. discriminate.
Defined.

Lemma pkce_match_is_necessary_for_code_exchange_witness :
  (exists txnId txn s1 s2,
      Storage.getTxnIdByCode 1 "code1" store_with_code = (Some txnId, s1)
      /\ Storage.getTransaction 1 txnId s1 = (Some txn, s2)
      /\ calculatePKCECodeChallenge "verifier" = Storage.codeChallenge txn)
  /\ (exists store',
        exchange "wrong" = (Js.Throw "invalid_grant", store')
        /\ Storage.same_rs_records store_with_code store').
Proof.
  split.
  - refine (proj1 pkce_match_is_necessary_for_code_exchange
              (clock 1) "code1" "verifier" None store_with_code
              (Flow.mkTokenResponse "opaque-0-24" "opaque-1-24" "bearer" 3600
                                    "read")
              (snd (exchange "verifier")) _).
    reflexivity.
  - apply (proj2 pkce_match_is_necessary_for_code_exchange
             (clock 1) "code1" "wrong" None store_with_code "txn1" pending_txn).
    + reflexivity.
    + reflexivity.
    + vm_compute. discriminate.
Defined.





(** C7 as stated fails.  A cancellation sent before the call is installed
    is lost and the call succeeds; and one that arrives while a tool that
    ignores its signal is waiting leaves the success in place. *)
Lemma cancelled_call_does_not_answer_the_cancellation_error :
  fst (Dispatcher.handleToolsCall tools (call "slow") (Some request7) []
         (Dispatcher.deliver [Dispatcher.cancelOf request7] fresh_world))
  = Dispatcher.Result ok_result
  /\ fst (Dispatcher.handleToolsCall tools (call "slow") (Some request7)
            [[Dispatcher.cancelOf request7]] fresh_world)
     = Dispatcher.Result ok_result
  /\ Dispatcher.Result ok_result
     <> Dispatcher.Error (-32603) "Request was cancelled".
Proof.
  repeat split; try reflexivity. discriminate.
Qed.

(** A tool that throws when it finds its signal aborted: [executeSharedTool]
    catches the throw, so the call answers a result marked [isError] and
    not the error -32603 of the [catch] in [handleToolsCall]. *)
Lemma cancelled_polite_tool_answers_an_error_result :
  fst (Dispatcher.handleToolsCall tools (call "polite") (Some request7)
         [[Dispatcher.cancelOf request7]] fresh_world)
  = Dispatcher.Result (Dispatcher.textError "Operation was cancelled").
Proof. reflexivity. Qed.

Lemma fresh_world_live : Dispatcher.registry_live fresh_world.
Proof.
  intros registry rid c Hr Hg. injection Hr as <-. discriminate.
Defined.

Lemma cancellation_acts_only_on_installed_handle_witness :
  Dispatcher.handleMcpNotification (Dispatcher.cancelOf request7) fresh_world
  = (true, fresh_world)
  /\ fst (Dispatcher.handleToolsCall tools (call "slow") (Some request7)
            [[Dispatcher.cancelOf (Dispatcher.IdNumber 8)]] fresh_world)
     = Dispatcher.Result ok_result
  /\ Dispatcher.aborted
       (snd (Dispatcher.handleMcpNotification (Dispatcher.cancelOf request7)
                                              installed_world)) 0%nat
     = true
  /\ Dispatcher.aborted
       (snd (Dispatcher.handleToolsCall tools (call "slow") (Some request7)
               [[Dispatcher.cancelOf request7]] fresh_world)) 0%nat
     = true
  /\ fst (Dispatcher.handleToolsCall tools (call "slow") (Some request7)
            [[Dispatcher.cancelOf request7]] fresh_world)
     = Dispatcher.Result ok_result.
Proof.
  split; [|split; [|split]].
  - apply (proj1 cancellation_acts_only_on_installed_handle); [reflexivity|].
    intros v r registry _ _ Hr. injection Hr as <-. reflexivity.
  - refine (proj1 (proj2 (proj2 cancellation_acts_only_on_installed_handle))
              tools (call "slow") (Some request7)
              [[Dispatcher.cancelOf (Dispatcher.IdNumber 8)]] fresh_world
              slow_tool (Js.JObj []) ok_result fresh_world_live _
              eq_refl eq_refl eq_refl eq_refl).
    intros n rid Hin Hrid. injection Hrid as <-.
    destruct Hin as [<-|[]]. reflexivity.
  - exact (proj1 (proj2 (proj2 (proj2 cancellation_acts_only_on_installed_handle)))
             request7 installed_world [(request7, 0%nat)] 0%nat
             eq_refl eq_refl (Nat.lt_0_succ 0)).
  - pose proof (proj2 (proj2 (proj2 (proj2 cancellation_acts_only_on_installed_handle)))
                  (Dispatcher.executeSharedTool tools) (call "slow") request7
                  [[Dispatcher.cancelOf request7]] fresh_world []
                  (Dispatcher.cancelOf request7)
                  eq_refl (or_introl eq_refl) eq_refl) as [Hsignal Hanswer].
    split; [exact (Hsignal eq_refl)|exact (Hanswer ok_result eq_refl)].
Defined.

Lemma ensureFreshToken_keeps_rs_access_on_rotation_witness :
  exists store' recently',
    Refresh.ensureFreshToken (clock 3590000) "rs-access-1"
                             (Some refresh_config) rs_store JsMap.empty
    = Js.Ok (Refresh.mkFreshToken "provider-access-2" true, store', recently')
    /\ fst (Storage.getByRsAccess 3590000 "rs-access-1" store') = Some 0%nat
    /\ Storage.field Storage.rs_access_token "" store' 0%nat = "rs-access-1"
    /\ Storage.field (fun o => Storage.refresh_token (Storage.provider o))
                     None store' 0%nat
       = Some "provider-refresh-1-next"
    /\ JsMap.keys (Storage.rsAccessMap store')
       = JsMap.keys (Storage.rsAccessMap rs_store).
Proof.
  refine (ensureFreshToken_keeps_rs_access_on_rotation
            (clock 3590000) "rs-access-1" refresh_config rs_store JsMap.empty
            0%nat
            (Storage.mkRsRecord "rs-access-1" "rs-refresh-1" expiring_provider
                                0 (0 + Storage.DEFAULT_RS_TOKEN_TTL_MS))
            "https://provider.example.com/token"
            (mkTokenEndpointResponse "provider-access-2"
               (Some "provider-refresh-1-next") (Some 3600) (Some "read write"))
            "provider-refresh-1" "provider-refresh-1-next"
            eq_refl eq_refl eq_refl eq_refl eq_refl eq_refl eq_refl eq_refl
            eq_refl eq_refl eq_refl eq_refl eq_refl eq_refl eq_refl _).
  discriminate.
Defined.

Lemma rs_store_refs_live : StoreProps.refs_live rs_store.
Proof.
  intros k r H.
  change (JsMap.get k [("rs-refresh-1", 0%nat)] = Some r) in H.
  unfold JsMap.get in H. cbn [Js.assoc] in H.
  destruct ("rs-refresh-1" =? k)%string; [|discriminate].
  injection H as <-. apply Nat.lt_0_succ.
Defined.

Lemma storeRsMapping_then_lookup_witness :
  let s' := snd (Storage.storeRsMapping 5 "uuid-1" "rs-access-2" some_provider
                   None 1000 rs_store) in
  fst (Storage.getByRsAccess 100 "rs-access-2" s') = Some 1%nat
  /\ fst (Storage.getByRsRefresh 100 "uuid-1" s') = Some 1%nat
  /\ exists o, Storage.deref s' 1%nat = Some o
               /\ Storage.rs_access_token o = "rs-access-2"
               /\ Storage.provider o = some_provider
               /\ Storage.expiresAt o = 1005.
Proof.
  exact (storeRsMapping_then_lookup 5 "uuid-1" "rs-access-2" some_provider
           None 1000 rs_store 100 rs_store_refs_live eq_refl).
Defined.

Lemma updateByRsRefresh_rekeys_witness :
  let s' := snd (Storage.updateByRsRefresh 10 "rs-refresh-1" some_provider
                   (Some "rs-access-2") 1000 rs_store) in
  fst (Storage.getByRsAccess 20 "rs-access-1" s') = None
  /\ fst (Storage.getByRsAccess 20 "rs-access-2" s') = Some 0%nat
  /\ StoreProps.providerOf
       (snd (Storage.updateByRsRefresh 10 "rs-refresh-1" some_provider None
               1000 rs_store)) 0%nat
     = Some some_provider
  /\ Storage.updateByRsRefresh 10 "rs-refresh-9" some_provider None 1000
                               rs_store
     = (None, rs_store).
Proof.
  assert (Hne : "rs-access-2" <> "rs-access-1") by discriminate.
  pose proof (proj1 updateByRsRefresh_rekeys 10 "rs-refresh-1" some_provider
                "rs-access-2" 1000 rs_store 0%nat
                (Storage.mkRsRecord "rs-access-1" "rs-refresh-1"
                   expiring_provider 0 (0 + Storage.DEFAULT_RS_TOKEN_TTL_MS))
                20 eq_refl eq_refl eq_refl Hne eq_refl) as Hmove.
  pose proof (proj1 (proj2 updateByRsRefresh_rekeys) 10 "rs-refresh-1"
                some_provider 1000 rs_store 0%nat
                (Storage.mkRsRecord "rs-access-1" "rs-refresh-1"
                   expiring_provider 0 (0 + Storage.DEFAULT_RS_TOKEN_TTL_MS))
                20 eq_refl eq_refl eq_refl) as Hkeep.
  pose proof (proj2 (proj2 updateByRsRefresh_rekeys) 10 "rs-refresh-9"
                some_provider None 1000 rs_store eq_refl) as Hmiss.
  split; [apply Hmove|].
  split; [apply Hmove|].
  split; [apply Hkeep|exact Hmiss].
Defined.

Lemma lookups_never_return_expired_witness :
  (JsMap.get "rs-access-1" (Storage.rsAccessMap rs_store) = Some 0%nat
   /\ 1 < Storage.field Storage.expiresAt 0 rs_store 0%nat
   /\ snd (Storage.getByRsAccess 1 "rs-access-1" rs_store) = rs_store)
  /\ (let s' := snd (Storage.getByRsAccess 604800000 "rs-access-1" rs_store) in
      fst (Storage.getByRsAccess 604800000 "rs-access-1" rs_store) = None
      /\ JsMap.get "rs-access-1" (Storage.rsAccessMap s') = None
      /\ JsMap.get (Storage.field Storage.rs_refresh_token "" rs_store 0%nat)
                   (Storage.rsRefreshMap s') = None)
  /\ (JsMap.get "rs-refresh-1" (Storage.rsRefreshMap rs_store) = Some 0%nat
      /\ 1 < Storage.field Storage.expiresAt 0 rs_store 0%nat
      /\ snd (Storage.getByRsRefresh 1 "rs-refresh-1" rs_store) = rs_store)
  /\ (let s' := snd (Storage.getByRsRefresh 604800000 "rs-refresh-1" rs_store) in
      fst (Storage.getByRsRefresh 604800000 "rs-refresh-1" rs_store) = None
      /\ JsMap.get "rs-refresh-1" (Storage.rsRefreshMap s') = None
      /\ JsMap.get (Storage.field Storage.rs_access_token "" rs_store 0%nat)
                   (Storage.rsAccessMap s') = None).
Proof.
  split; [|split; [|split]].
  - exact (proj1 lookups_never_return_expired 1 "rs-access-1" rs_store 0%nat
             eq_refl).
  - exact (proj1 (proj2 lookups_never_return_expired) 604800000 "rs-access-1"
             rs_store 0%nat eq_refl (Z.le_refl _)).
  - exact (proj1 (proj2 (proj2 lookups_never_return_expired)) 1 "rs-refresh-1"
             rs_store 0%nat eq_refl).
  - exact (proj2 (proj2 (proj2 lookups_never_return_expired)) 604800000
             "rs-refresh-1" rs_store 0%nat eq_refl (Z.le_refl _)).
Defined.

Lemma saved_entries_live_for_their_ttl_witness :
  Storage.getTransaction 599999 "txn1" store_with_txn
  = (Some pending_txn, store_with_txn)
  /\ fst (Storage.getTransaction 600000 "txn1" store_with_txn) = None
  /\ Storage.getTxnIdByCode 29999 "code1"
       (Storage.saveCode 0 "code1" "txn1" (Some 30) store_with_txn)
     = (Some "txn1", Storage.saveCode 0 "code1" "txn1" (Some 30) store_with_txn)
  /\ fst (Storage.getTxnIdByCode 30000 "code1"
            (Storage.saveCode 0 "code1" "txn1" (Some 30) store_with_txn))
     = None.
Proof.
  split; [|split; [|split]].
  - exact (proj1 (proj1 saved_entries_live_for_their_ttl 0 "txn1" pending_txn
                    None Storage.emptyTokenStore 599999) eq_refl).
  - exact (proj1 (proj2 (proj1 saved_entries_live_for_their_ttl 0 "txn1"
                           pending_txn None Storage.emptyTokenStore 600000)
                    (Z.le_refl _))).
  - exact (proj1 (proj1 (proj2 saved_entries_live_for_their_ttl) 0 "code1"
                    "txn1" (Some 30) store_with_txn 29999) eq_refl).
  - exact (proj1 (proj2 (proj1 (proj2 saved_entries_live_for_their_ttl) 0
                           "code1" "txn1" (Some 30) store_with_txn 30000)
                    (Z.le_refl _))).
Defined.

Lemma stores_stay_within_their_caps_witness :
  JsMap.size
    (Storage.rsAccessMap
       (snd (Storage.storeRsMapping 5 "uuid-1" "rs-access-2" some_provider
               None 1000 rs_store)))
  <= Storage.MAX_RS_RECORDS
  /\ JsMap.size
       (Storage.transactions
          (Storage.saveTransaction 5 "txn2" pending_txn None store_with_txn))
     <= Storage.MAX_TRANSACTIONS.
Proof.
  split.
  - apply (proj1 stores_stay_within_their_caps).
    vm_compute. discriminate.
  - apply (proj2 stores_stay_within_their_caps).
    vm_compute. discriminate.
Defined.

Lemma cleanup_removes_exactly_the_expired_witness :
  Storage.getTxnIdByCode 7 "code1"
    (fst (Storage.token_cleanup 5 6 7 store_with_code))
  = (Some "txn1", fst (Storage.token_cleanup 5 6 7 store_with_code))
  /\ Storage.getTransaction 6 "txn1"
       (fst (Storage.token_cleanup 5 6 7 store_with_code))
     = (Some pending_txn, fst (Storage.token_cleanup 5 6 7 store_with_code))
  /\ Storage.getByRsAccess 5 "rs-access-1"
       (fst (Storage.token_cleanup 5 6 7 rs_store))
     = (Some 0%nat, fst (Storage.token_cleanup 5 6 7 rs_store)).
Proof.
  split; [|split].
  - apply (proj2 (proj2 (proj2 (proj2 (proj2 (proj2 (proj2
             (cleanup_removes_exactly_the_expired 5 6 7 store_with_code)))))))
             7 "code1" "txn1").
    + vm_compute. discriminate.
    + reflexivity.
  - apply (proj1 (proj2 (proj2 (proj2 (proj2 (proj2 (proj2
             (cleanup_removes_exactly_the_expired 5 6 7 store_with_code)))))))
             6 "txn1" pending_txn).
    + vm_compute. discriminate.
    + reflexivity.
  - apply (proj1 (proj2 (proj2 (proj2 (proj2
             (cleanup_removes_exactly_the_expired 5 6 7 rs_store))))) 5
             "rs-access-1" 0%nat).
    + vm_compute. discriminate.
    + reflexivity.
Defined.

Lemma session_count_stays_within_max_sessions_witness :
  SessionStore.getSessionCount (SessionStore.run busy_day JsMap.empty)
  <= SessionStore.MAX_SESSIONS.
Proof.
  apply session_count_stays_within_max_sessions.
  - unfold busy_day, creates. simpl. repeat constructor.
  - vm_compute. discriminate.
Defined.

Lemma session_expiry_is_not_extended_by_use_witness :
  exists x' x,
    JsMap.get "s1" (SessionStore.run use_s1 three_sessions) = Some x'
    /\ SessionStore.last_accessed x' = 4
    /\ In ("s1", x) three_sessions
    /\ SessionStore.expiresAt x' = SessionStore.expiresAt x.
Proof.
  pose (x' := SessionStore.mkSession "s1" (Some "k") None None None 1 4
                (Some true) None (1 + SessionStore.DEFAULT_SESSION_TTL_MS)).
  assert (Hg : JsMap.get "s1" (SessionStore.run use_s1 three_sessions)
               = Some x') by reflexivity.
  assert (Hops : Forall (SessionProps.leaves_expiry "s1") use_s1)
    by (repeat constructor).
  destruct (session_expiry_is_not_extended_by_use "s1" use_s1 three_sessions
              x' Hops Hg) as (x & Hin & E).
  exists x', x. split; [exact Hg|]. split; [reflexivity|].
  split; [exact Hin|exact E].
Defined.

Lemma ensureFreshToken_writes_only_when_refreshed_witness :
  (rs_store = snd (Storage.getByRsAccess 0 "rs-access-1" rs_store)
   /\ (JsMap.empty : Refresh.Recently) = JsMap.empty
   /\ ("provider-access-1" = ""
       \/ exists r record,
            fst (Storage.getByRsAccess 0 "rs-access-1" rs_store) = Some r
            /\ Storage.deref rs_store r = Some record
            /\ "provider-access-1"
               = Storage.access_token (Storage.provider record)))
  /\ exists config,
       Some broken_config = Some config
       /\ Refresh.tokenEndpointOf config = Js.Throw "Invalid URL".
Proof.
  split.
  - exact (proj1 ensureFreshToken_writes_only_when_refreshed (clock 0)
             "rs-access-1" None rs_store JsMap.empty
             (Refresh.mkFreshToken "provider-access-1" false) rs_store
             JsMap.empty eq_refl eq_refl).
  - exact (proj2 ensureFreshToken_writes_only_when_refreshed (clock 3590000)
             "rs-access-1" (Some broken_config) rs_store JsMap.empty
             "Invalid URL" eq_refl).
Defined.

Lemma refresh_is_throttled_within_cooldown_witness :
  exists fresh2 store2',
    Refresh.ensureFreshToken (clock 3600000) "rs-access-1"
                             (Some refresh_config) rotated_store
                             [("rs-access-1", 3590000)]
    = Js.Ok (fresh2, store2', [("rs-access-1", 3590000)])
    /\ Refresh.wasRefreshed fresh2 = false.
Proof.
  refine (refresh_is_throttled_within_cooldown (clock 3590000) (clock 3600000)
            "rs-access-1" (Some refresh_config) (Some refresh_config)
            rs_store rotated_store JsMap.empty
            (Refresh.mkFreshToken "provider-access-2" true) rotated_store
            [("rs-access-1", 3590000)] eq_refl eq_refl _ _ eq_refl).
  - discriminate.
  - vm_compute. discriminate.
Defined.

Lemma authorization_code_is_single_use_witness :
  exchange "verifier" = (Js.Ok exchanged, snd (exchange "verifier"))
  /\ @Flow.handleToken url oauth later_draws (clock 2)
       (Flow.AuthorizationCodeGrant "code1" "verifier")
       None (snd (exchange "verifier"))
     = (Js.Throw "invalid_grant", snd (exchange "verifier")).
Proof.
  split; [reflexivity|].
  exact (authorization_code_is_single_use url url oauth oauth entropy
           later_draws (clock 1) "code1" "verifier"
           None store_with_code exchanged (snd (exchange "verifier")) eq_refl
           (clock 2) "verifier" None).
Defined.

Lemma refresh_grant_answers_a_resolving_pair_witness :
  regrant = (Js.Ok regranted, snd regrant)
  /\ exists r before after,
       fst (Storage.getByRsRefresh 3590000 "rs-refresh-1" rs_store) = Some r
       /\ Storage.deref rs_store r = Some before
       /\ Storage.deref (snd regrant) r = Some after
       /\ fst (Storage.getByRsRefresh 3590001 "rs-refresh-1" (snd regrant))
          = Some r
       /\ fst (Storage.getByRsAccess 3590001 "opaque-0-24" (snd regrant))
          = Some r
       /\ Storage.rs_access_token after = "opaque-0-24"
       /\ "opaque-0-24"
          = (if Js.same_opt
                  (Storage.refresh_token (Storage.provider after))
                  (Storage.refresh_token (Storage.provider before))
             then Storage.rs_access_token before
             else Flow.generateOpaqueToken 0 24)
       /\ (Storage.rs_access_token before <> "opaque-0-24" ->
           fst (Storage.getByRsAccess 3590001
                  (Storage.rs_access_token before) (snd regrant)) = None).
Proof.
  split; [reflexivity|].
  exact (proj2 (refresh_grant_answers_a_resolving_pair (clock 3590000)
                  "rs-refresh-1" (Some live_provider) rs_store regranted
                  (snd regrant) 3590001 eq_refl eq_refl eq_refl)).
Defined.

Lemma code_exchange_stores_the_provider_tokens_witness :
  exists granted store' r,
    Flow.handleToken (clock 1) (Flow.AuthorizationCodeGrant "code1" "verifier")
                     None store_with_grant
    = (Js.Ok (Flow.mkTokenResponse "opaque-0-24" "opaque-1-24" "bearer" 3600
                                   granted),
       store')
    /\ fst (Storage.getByRsAccess 4 "opaque-0-24" store') = Some r
    /\ fst (Storage.getByRsRefresh 4 "opaque-1-24" store') = Some r
    /\ StoreProps.providerOf store' r = Some obtained_tokens
    /\ JsMap.get "code1" (Storage.codes store') = None
    /\ JsMap.get "txn1" (Storage.transactions store') = None.
Proof.
  refine (code_exchange_stores_the_provider_tokens (clock 1) "code1" "verifier"
            None store_with_grant "txn1" granted_txn obtained_tokens 4
            _ eq_refl eq_refl eq_refl eq_refl eq_refl eq_refl eq_refl).
  intros k r Hg. discriminate Hg.
Defined.

Lemma fetched_metadata_passed_every_check_witness :
  @Cimd.fetchClientMetadata url document_codec serving client_url None
  = (Cimd.Success client_document, [client_url])
  /\ Ssrf.checkSsrfSafe client_url (Some true) = Ssrf.Safe
  /\ Cimd.client_id client_document = client_url.
Proof.
  split; [reflexivity|].
  pose proof (@fetched_metadata_passed_every_check url document_codec serving
                client_url None client_document [client_url] eq_refl) as G.
  split; [exact (proj1 G)|exact (proj1 (proj2 (proj2 (proj2 G))))].
Defined.

Lemma authorize_success_guarantees_witness :
  authorized = (Js.Ok authorize_result, snd (fst authorized), [client_url])
  /\ fst (Storage.getTransaction 600000 "opaque-0-16" (snd (fst authorized)))
     = Some (Storage.mkTransaction "S256-verifier" (Some "xyz") (Some "read") 1
                                   None None)
  /\ exists metadata,
       [client_url] = [client_url]
       /\ Cimd.client_id metadata = client_url
       /\ In "https://app.example/cb" (Cimd.redirect_uris metadata)
       /\ Ssrf.checkSsrfSafe client_url (Some true) = Ssrf.Safe.
Proof.
  split; [reflexivity|].
  pose proof (@authorize_success_guarantees url entropy stateCodec
                document_codec serving (clock 1) registered_client
                dev_provider strict_oauth flow_options Storage.emptyTokenStore
                authorize_result (snd (fst authorized)) [client_url] eq_refl)
    as G.
  destruct G as (_ & _ & _ & _ & Hread & Hcimd).
  split; [exact (Hread 600000 eq_refl)|].
  exact (proj1 (Hcimd client_url eq_refl) eq_refl).
Defined.

Lemma private_172_block_is_exactly_16_to_31_witness :
  Ssrf.isPrivateIp "172.32.0.1" = false
  /\ Ssrf.checkSsrfSafe "https://172.20.0.1/client.json" (Some false)
     = Ssrf.Unsafe "private_ip".
Proof.
  split.
  - apply (proj1 private_172_block_is_exactly_16_to_31 32 "0.1").
    split; discriminate.
  - apply (proj2 private_172_block_is_exactly_16_to_31
             "https://172.20.0.1/client.json" (Some false)
             (mkUrl "https:" "172.20.0.1" "/client.json" [] : @URL url)
             20 "0.1"); try reflexivity.
    split; discriminate.
Defined.

Lemma pages_continue_where_the_last_ended_witness :
  Pagination.paginateArray catalogue None 50 = Js.Ok first_page
  /\ exists page',
       Pagination.paginateArray catalogue (Some (Pagination.createCursor 50)) 50
       = Js.Ok page'
       /\ (seq 0 50 ++ Pagination.data page')%list = seq 0 100.
Proof.
  split; [reflexivity|].
  exact (proj2 (proj2 (proj2 (proj2
           (pages_continue_where_the_last_ended nat catalogue None 50 0
              first_page eq_refl eq_refl eq_refl))
           (Pagination.createCursor 50) eq_refl)) eq_refl).
Defined.

Lemma tools_call_leaves_only_its_own_handle_removed_witness :
  Dispatcher.cancellationRegistry (snd cancelled_call)
  = Some [(Dispatcher.IdNumber 8, 0%nat)]
  /\ Dispatcher.reg_get request7 [(Dispatcher.IdNumber 8, 0%nat)] = None
  /\ Dispatcher.reg_get (Dispatcher.IdNumber 8) [(Dispatcher.IdNumber 8, 0%nat)]
     = Dispatcher.reg_get (Dispatcher.IdNumber 8)
                          [(Dispatcher.IdNumber 8, 0%nat)].
Proof.
  pose proof (tools_call_leaves_only_its_own_handle_removed
                (Dispatcher.executeSharedTool tools) (call "polite")
                (Some request7) [[Dispatcher.cancelOf request7]]
                other_call_world) as (Heq & Hgone & Hkept).
  split; [exact Heq|]. split.
  - exact (Hgone request7 [(Dispatcher.IdNumber 8, 0%nat)] eq_refl eq_refl).
  - exact (Hkept request7 (Dispatcher.IdNumber 8)
             [(Dispatcher.IdNumber 8, 0%nat)] [(Dispatcher.IdNumber 8, 0%nat)]
             eq_refl eq_refl eq_refl eq_refl).
Defined.

Lemma handshake_records_the_answered_version_witness :
  exists v,
    In v Dispatcher.SUPPORTED_PROTOCOL_VERSIONS
    /\ Dispatcher.negotiatedVersion (Dispatcher.offering "2025-11-25")
                                    (Dispatcher.mkServerConfig "" "" None)
       = Some v
    /\ snd (Dispatcher.handleInitialize (Dispatcher.offering "2025-11-25")
                                        (Dispatcher.mkServerConfig "" "" None))
       = Dispatcher.mkSessionState false None (Some v)
    /\ Dispatcher.handleMcpNotification
         (Dispatcher.mkNotification "notifications/initialized" None)
         (Dispatcher.mkWorld [] (Some [])
            (Some (snd (Dispatcher.handleInitialize
                          (Dispatcher.offering "2025-11-25")
                          (Dispatcher.mkServerConfig "" "" None)))))
       = (true,
          Dispatcher.mkWorld [] (Some [])
            (Some (Dispatcher.mkSessionState true None (Some v))))
    /\ (Dispatcher.session fresh_world = None ->
        Dispatcher.handleMcpNotification
          (Dispatcher.mkNotification "notifications/initialized" None)
          fresh_world
        = (true, fresh_world)).
Proof.
  exact (handshake_records_the_answered_version
           (Dispatcher.offering "2025-11-25")
           (Dispatcher.mkServerConfig "" "" None)
           (Dispatcher.mkNotification "notifications/initialized" None)
           fresh_world eq_refl).
Defined.

Lemma failed_token_request_writes_nothing_witness :
  (rs_store = snd (Storage.getByRsRefresh 0 "rs-refresh-9" rs_store)
   /\ ("invalid_grant" = "invalid_grant"
       \/ "invalid_grant" = "provider_token_expired"
       \/ "invalid_grant" = "provider_refresh_failed"
       \/ exists pc,
            None = Some pc
            /\ Refresh.tokenEndpointOf
                 (Refresh.mkProviderRefreshConfig
                    (Js.or_string (Flow.clientId pc) "")
                    (Js.or_string (Flow.clientSecret pc) "")
                    (Flow.accountsUrl pc) (Flow.tokenEndpointPath pc))
               = Js.Throw "invalid_grant"))
  /\ ("invalid_grant" = "invalid_grant"
      /\ Storage.same_rs_records store_with_code store_with_code).
Proof.
  split.
  - exact (proj1 failed_token_request_writes_nothing (clock 0) "rs-refresh-9"
             None rs_store "invalid_grant" rs_store eq_refl).
  - exact (proj2 failed_token_request_writes_nothing (clock 1) "code1" "wrong"
             None store_with_code "invalid_grant" store_with_code eq_refl).
Defined.

Lemma failed_callback_mints_no_code_witness :
  (fst (Storage.getTransaction 1 "missing" store_with_txn) = None ->
   "unknown_txn" = "unknown_txn")
  /\ (store_with_txn = snd (Storage.getTransaction 1 "missing" store_with_txn)
      \/ "unknown_txn" = "fetch_failed: Invalid URL").
Proof.
  exact (failed_callback_mints_no_code (clock 1)
           (Flow.mkCallbackInput "state-missing" "provider-code")
           live_provider strict_oauth flow_options store_with_txn
           "unknown_txn" store_with_txn eq_refl).
Defined.

Lemma ensureFreshToken_keeps_unrotated_refresh_token_witness :
  exists store',
    @Refresh.ensureFreshToken url steady (clock 3590000) "rs-access-1"
                              (Some refresh_config) rs_store JsMap.empty
    = Js.Ok (Refresh.mkFreshToken "provider-access-2" true, store',
             Refresh.markRefreshed 3590000 3590000 "rs-access-1" JsMap.empty)
    /\ fst (Storage.getByRsAccess 3590000 "rs-access-1" store') = Some 0%nat
    /\ fst (Storage.getByRsRefresh 3590000 "rs-refresh-1" store') = Some 0%nat
    /\ StoreProps.providerOf store' 0%nat
       = Some (Storage.mkProviderTokens "provider-access-2"
                 (Some "provider-refresh-1") (Some (3590000 + 3600 * 1000))
                 (Some ["read"])).
Proof.
  exact (@ensureFreshToken_keeps_unrotated_refresh_token url steady
           (clock 3590000) "rs-access-1" refresh_config rs_store JsMap.empty
           0%nat rs_record "https://provider.example.com/token"
           steady_response "provider-refresh-1"
           eq_refl eq_refl eq_refl eq_refl eq_refl eq_refl eq_refl eq_refl
           eq_refl eq_refl eq_refl eq_refl eq_refl eq_refl
           (or_introl eq_refl)).
Defined.

Lemma log_level_is_always_a_valid_level_witness :
  In (Router.getLogLevel (Router.serve listing tools plain_config chatter booted))
     Router.validLevels
  /\ Router.getLogLevel (Router.serve listing tools plain_config chatter booted)
     = "debug"
  /\ fst (Router.dispatchMcpMethod listing tools plain_config
            (Some "logging/setLevel") (Some [("level", Js.JStr "loud")])
            None [] booted)
     = Dispatcher.Error (-32602)
         "Invalid log level. Must be one of: debug, info, notice, warning, error, critical, alert, emergency".
Proof.
  split; [|split].
  - apply (proj1 log_level_is_always_a_valid_level).
    simpl. auto.
  - reflexivity.
  - assert (Hloud : ~ In "loud" Router.validLevels)
      by (simpl; intuition discriminate).
    exact (f_equal fst
             (proj2 (proj2 log_level_is_always_a_valid_level) listing tools
                plain_config "loud" booted Hloud)).
Defined.

Lemma stateless_methods_change_nothing_witness :
  Router.dispatchMcpMethod listing tools plain_config (Some "resources/read")
                           None None [] booted
  = (Dispatcher.Error (-32601) "Method not found: resources/read", booted)
  /\ snd (Router.dispatchMcpMethod listing tools plain_config (Some "ping")
            None None [] booted)
     = booted.
Proof.
  split.
  - apply (proj2 (proj2 (stateless_methods_change_nothing listing tools
                           plain_config (Some "resources/read") None None []
                           booted))).
    simpl. intuition discriminate.
  - apply (proj1 (stateless_methods_change_nothing listing tools plain_config
                    (Some "ping") None None [] booted)); discriminate.
Defined.

Lemma created_session_reads_back_after_updates_witness :
  fst (SessionStore.get 9 "s1"
         (SessionStore.update 3 "s1"
            (SessionStore.mkPatch None None None None None (Some true) None)
            (SessionStore.update 2 "s1"
               (SessionStore.mkPatch None None None None None None
                                     (Some "2025-06-18"))
               (snd (SessionStore.create 1 1 1 "s1" "k" 1000 JsMap.empty)))))
  = Some (SessionStore.mkSession "s1" (Some "k") None None None 1 9 (Some true)
                                 (Some "2025-06-18") 1001).
Proof.
  exact (created_session_reads_back_after_updates 1 1 1 "s1" "k" 1000
           JsMap.empty "2025-06-18" 2 3 9 eq_refl).
Defined.

Lemma evictOldest_removes_the_oldest_witness :
  Storage.evictOldest (fun x : Z => x) [("a", 3); ("b", 1); ("c", 2)] 3 2
  = [("a", 3)]
  /\ 1 <= 3.
Proof.
  split; [reflexivity|].
  assert (Hn : NoDup (JsMap.keys [("a", 3); ("b", 1); ("c", 2)])).
  { repeat constructor; simpl; intuition discriminate. }
  assert (Hgone : ~ In ("b", 1) [("a", 3)]).
  { intros [E|[]]. discriminate E. }
  exact (proj2 (proj2 (evictOldest_removes_the_oldest Z (fun x => x)
                         [("a", 3); ("b", 1); ("c", 2)] 3 2%nat Hn))
           ("a", 3) ("b", 1) (or_introl eq_refl)
           (or_intror (or_introl eq_refl)) Hgone).
Defined.
